(** * Mood-Tracker-Pro: the aggregation core of the home and analytics screens

    A shallow embedding of the pure computations buried in
    [HomeScreen] (streak, day and week averages, emoji classification) and in
    [AdvancedMoodAnalyticsScreen.analyzeMoodPatterns] (weekday buckets, peak
    and dip day, weekend-versus-weekday skew, keyword triggers), and of what
    the two screens do with the results (the date navigation of the
    summary, the report's state, chart, cards and tips), followed by the
    properties the design document states about them and by further
    properties read off the code.

    Conventions of the embedding.
    - A JavaScript number that holds a count, a rating, a sum of ratings or a
      length is an integer ([Z]); such values stay far below 2^53, where
      binary64 arithmetic on integers is exact.
    - A JavaScript number that comes out of a division (every average) is an
      IEEE-754 binary64 value, [spec_float] with the operations of
      [SpecFloat] at precision 53.
    - A calendar date ['YYYY-MM-DD'] is the number of days since 1970-01-01
      ([days_from_civil]); the order of the ISO strings is the order of the
      day numbers.  A [Date] is its time value, the milliseconds since the
      epoch.  [new Date('YYYY-MM-DD')] is midnight UTC of that date, while
      [getDate], [setDate] and [getDay] work on local time and
      [toISOString] on UTC: the time zone of the device ([TimeZone]) is a
      parameter of the weekday of an entry and of the days the streak loop
      probes.  Where a window is cut out of the rows around "today"
      ([weekEntries], [loadHistoricalMoodData]), [today] and the target are
      the dates [toISOString] prints, and the start of the window is taken
      the stated number of dates before it.
    - A string is a [string] of bytes; case mapping is the ASCII one. *)

From Stdlib Require Import ZArith List String Ascii Bool Lia SpecFloat Sorted Permutation.
From Stdlib Require Import DecimalString.
From stdpp Require Import gmap.
Import ListNotations.
Open Scope Z_scope.

(** ** The JavaScript runtime the screens rely on *)

Module JS.

(** *** Numbers *)

Definition prec : Z := 53.
Definition emax : Z := 1024.

(** An integer entering floating-point arithmetic. *)
Definition of_int (z : Z) : spec_float := binary_normalize prec emax z 0 false.

(** [a / b], [a - b], [Math.abs a], [a > b]. *)
Definition div (a b : spec_float) : spec_float := SFdiv prec emax a b.
Definition sub (a b : spec_float) : spec_float := SFsub prec emax a b.
Definition Math_abs (a : spec_float) : spec_float := SFabs a.
Definition gt (a b : spec_float) : bool := SFltb b a.

(** The literal [0.5] = 2^52 * 2^-53. *)
Definition half : spec_float := S754_finite false 4503599627370496 (-53).

(** The quotient of two integers, as in [sum / entries.length]. *)
Definition quotient (a b : Z) : spec_float := div (of_int a) (of_int b).

(** ToBoolean on a number: [0], [-0] and [NaN] are falsy. *)
Definition truthy (x : spec_float) : bool :=
  match x with
  | S754_zero _ | S754_nan => false
  | _ => true
  end.

(** [x || 0]. *)
Definition or_zero (x : spec_float) : spec_float :=
  if truthy x then x else S754_zero false.

(** The integer [floor (v * 2^e * scale + 1/2)]: [v * 2^e * scale] rounded
    to the nearest integer, a tie going up. *)
Definition round_half_up (scale v e : Z) : Z :=
  match e with
  | Zneg k => (2 * scale * v + 2 ^ Zpos k) / 2 ^ (Zpos k + 1)
  | _ => scale * v * 2 ^ e
  end.

(** [Math.round x]: the nearest integer, a tie going towards +infinity;
    [NaN], the zeros and the infinities are returned as they are, and a
    value that rounds to zero keeps its sign. *)
Definition Math_round (x : spec_float) : spec_float :=
  match x with
  | S754_finite s m e =>
      let z := round_half_up 1 (cond_Zopp s (Zpos m)) e in
      if z =? 0 then S754_zero s else of_int z
  | _ => x
  end.

(** Decimal digits of a natural number. *)
Definition decimal (n : N) : string := NilZero.string_of_uint (N.to_uint n).

(** [x.toFixed(1)]: the integer [n] nearest to [10 * |x|] (the larger one on
    a tie), printed with a point before its last digit and a minus sign when
    [x < 0].  (From 10^21 on JavaScript switches to exponent notation; an
    average of ratings is nowhere near, and the digits are printed in full
    here.) *)
Definition toFixed1 (x : spec_float) : string :=
  match x with
  | S754_nan => "NaN"
  | S754_infinity s => if s then "-Infinity" else "Infinity"
  | S754_zero _ => "0.0"
  | S754_finite s m e =>
      let n := Z.to_N (round_half_up 10 (Zpos m) e) in
      ((if s then "-" else "") ++ decimal (n / 10) ++ "." ++ decimal (n mod 10))%string
  end.

(** *** The values of numbers

    What the properties below say about numbers, they say about these. *)

(** The least exponent of the format: 2^-1074 is the least positive
    binary64 value, and every finite binary64 value is a whole number of
    it. *)
Definition emin : Z := 3 - emax - prec.

(** The value of a number in units of 2^-1074.  (NaN is given 0, as
    [x || 0] does.) *)
Inductive xvalue := NegInf | Finite (z : Z) | PosInf.

Definition value (x : spec_float) : xvalue :=
  match x with
  | S754_zero _ | S754_nan => Finite 0
  | S754_infinity s => if s then NegInf else PosInf
  | S754_finite s m e => Finite (cond_Zopp s (Zpos m) * 2 ^ (e - emin))
  end.

Definition xlt (a b : xvalue) : Prop :=
  match a, b with
  | NegInf, NegInf => False
  | NegInf, _ => True
  | Finite x, Finite y => x < y
  | Finite _, PosInf => True
  | _, _ => False
  end.

Definition xle (a b : xvalue) : Prop := ~ xlt b a.

(** A finite value's exponent is within the format. *)
Definition bounded_below (x : spec_float) : Prop :=
  match x with
  | S754_finite _ _ e => emin <= e
  | _ => True
  end.

(** A number is ordinary when it is not NaN and, if finite, has its exponent
    within the format: every result of a division is, once [|| 0] has
    replaced NaN. *)
Definition ordinary (x : spec_float) : Prop := x <> S754_nan /\ bounded_below x.

(** [x] is not a number, or carries the sign [sx]. *)
Definition signed (sx : bool) (x : spec_float) : Prop :=
  match x with
  | S754_nan => True
  | S754_zero s | S754_infinity s | S754_finite s _ _ => s = sx
  end.

(** [x] is an infinity or a finite value other than zero, of sign [sx]. *)
Definition nonzero_of_sign (sx : bool) (x : spec_float) : Prop :=
  match x with
  | S754_finite s _ _ | S754_infinity s => s = sx
  | _ => False
  end.

(** *** Strings *)

Definition lower_ascii (c : ascii) : ascii :=
  let n := nat_of_ascii c in
  if ((65 <=? n) && (n <=? 90))%nat then ascii_of_nat (n + 32) else c.

Definition upper_ascii (c : ascii) : ascii :=
  let n := nat_of_ascii c in
  if ((97 <=? n) && (n <=? 122))%nat then ascii_of_nat (n - 32) else c.

(** [s.toLowerCase()]. *)
Fixpoint toLowerCase (s : string) : string :=
  match s with
  | EmptyString => EmptyString
  | String c s' => String (lower_ascii c) (toLowerCase s')
  end.

(** [s.startsWith(w)]. *)
Fixpoint startsWith (s w : string) : bool :=
  match w, s with
  | EmptyString, _ => true
  | String _ _, EmptyString => false
  | String a w', String b s' => Ascii.eqb a b && startsWith s' w'
  end.

(** [s.includes(w)]: [w] occurs in [s] as a contiguous substring. *)
Fixpoint includes (s w : string) : bool :=
  startsWith s w ||
  match s with
  | EmptyString => false
  | String _ s' => includes s' w
  end.

(** [s.charAt(0).toUpperCase() + s.slice(1)]. *)
Definition capitalize (s : string) : string :=
  match s with
  | EmptyString => EmptyString
  | String c s' => String (upper_ascii c) s'
  end.

(** *** Array.prototype.sort

    The sort is stable (ECMAScript 2019), and for a consistent comparator a
    stable sort has one possible result; insertion from the right computes
    it.  [before a b] is "the comparator puts [b] strictly before [a]",
    that is [compare(a, b) > 0]. *)
Section Sort.
Context {A : Type} (before : A -> A -> bool).

Fixpoint insert (x : A) (l : list A) : list A :=
  match l with
  | [] => [x]
  | y :: l' => if before x y then y :: insert x l' else x :: l
  end.

Definition sort (l : list A) : list A := fold_right insert [] l.
End Sort.

End JS.

(** ** Dates and entries *)

(** Days since 1970-01-01 of the proleptic Gregorian date [y]-[m]-[d]. *)
Definition days_from_civil (y m d : Z) : Z :=
  let y' := if m <=? 2 then y - 1 else y in
  let era := y' / 400 in
  let yoe := y' - era * 400 in
  let doy := (153 * ((m + 9) mod 12) + 2) / 5 + d - 1 in
  era * 146097 + (yoe * 365 + yoe / 4 - yoe / 100 + doy) - 719468.

(** *** Time values and the time zone of the device *)

Definition msPerDay : Z := 86400000.
Definition msPerHour : Z := 3600000.

(** ECMAScript's [LocalTZA(t, isUTC)], the offset of local time from UTC in
    milliseconds: [atInstant] takes a time value ([isUTC] true),
    [atLocalTime] a local time ([isUTC] false).  Which offset applies when
    is the business of the device. *)
Record TimeZone := {
  atInstant : Z -> Z;
  atLocalTime : Z -> Z
}.

(** A zone without daylight-saving time, [offset] milliseconds ahead of
    UTC. *)
Definition fixed (offset : Z) : TimeZone :=
  {| atInstant := fun _ => offset; atLocalTime := fun _ => offset |}.

Definition UTC : TimeZone := fixed 0.

(** [LocalTime(t)] and [UTC(t)]. *)
Definition LocalTime (zone : TimeZone) (t : Z) : Z := t + atInstant zone t.
Definition toUTC (zone : TimeZone) (t : Z) : Z := t - atLocalTime zone t.

(** [Day(t)], the day number of a time value, and [WeekDay(t)]: 0 is
    Sunday, 6 is Saturday; day 0 of the epoch was a Thursday. *)
Definition Day (t : Z) : Z := t / msPerDay.
Definition WeekDay (t : Z) : Z := (Day t + 4) mod 7.

(** [new Date('YYYY-MM-DD')]: midnight UTC of the date. *)
Definition midnight (date : Z) : Z := date * msPerDay.

(** [d.toISOString().split('T')[0]]: the date of the time value in UTC. *)
Definition dateString (t : Z) : Z := Day t.

(** [d.setDate(d.getDate() - i)]: the day of the month is read and set in
    local time.  [MakeDay] of the local year and month and of the local day
    of the month less [i] is the local day number less [i]; the time within
    the day is kept, and the local time so made is taken back to UTC. *)
Definition daysEarlier (zone : TimeZone) (t i : Z) : Z :=
  toUTC zone (LocalTime zone t - i * msPerDay).

(** [new Date(date).getDay()]: the weekday, in local time, of midnight UTC
    of the date. *)
Definition getDay (zone : TimeZone) (date : Z) : Z :=
  WeekDay (LocalTime zone (midnight date)).

(** The weekday of a calendar date. *)
Definition weekday (date : Z) : Z := (date + 4) mod 7.

(** A row of [mood_entries] as the two screens read it: the calendar date,
    the rating and the free text ([details], absent when the column is
    null). *)
Record MoodEntry := {
  date : Z;
  rating : Z;
  details : option string
}.

(** [rows.reduce((total, entry) => total + entry.rating, 0)]. *)
Definition sumRatings (rows : list MoodEntry) : Z :=
  fold_left (fun total entry => total + rating entry) rows 0.

(** [rows.length > 0 ? sum / rows.length : null], the shape every average
    of the two screens has. *)
Definition average (rows : list MoodEntry) : option spec_float :=
  if 0 <? Z.of_nat (length rows)
  then Some (JS.quotient (sumRatings rows) (Z.of_nat (length rows)))
  else None.

(** ** HomeScreen *)

Module HomeScreen.

(** *** The streak ([refreshMoodData]) *)

(** [dateMap.set(entry.date, true)] for every entry. *)
Definition dateMap (allEntries : list MoodEntry) : gmap Z bool :=
  fold_left (fun m entry => <[date entry := true]> m) allEntries ∅.

(** [dateMap.has(dateStr)]. *)
Definition has (m : gmap Z bool) (dateStr : Z) : bool :=
  match m !! dateStr with
  | Some _ => true
  | None => false
  end.

(** The date the loop probes in iteration [i]: [prevDate] is a copy of
    [mostRecentDate = new Date(allEntries[0].date)], moved back [i] days by
    [setDate] and printed by [toISOString]. *)
Definition prevDateStr (zone : TimeZone) (mostRecentDate i : Z) : Z :=
  dateString (daysEarlier zone (midnight mostRecentDate) i).

(** The loop [for (let i = 1; i <= 365; i++)], entered with [remaining]
    iterations left: the date probed in iteration [i] either extends the
    streak or ends the loop. *)
Fixpoint checkPreviousDays (zone : TimeZone) (m : gmap Z bool) (mostRecentDate : Z)
    (remaining : nat) (i currentStreak : Z) : Z :=
  match remaining with
  | O => currentStreak
  | S remaining' =>
      if has m (prevDateStr zone mostRecentDate i)
      then checkPreviousDays zone m mostRecentDate remaining' (i + 1) (currentStreak + 1)
      else currentStreak
  end.

(** [allEntries] is what the query ordered by date, newest first,
    returned; the most recent date is read off its first row. *)
Definition currentStreak (zone : TimeZone) (allEntries : list MoodEntry) : Z :=
  match allEntries with
  | [] => 0
  | first :: _ =>
      checkPreviousDays zone (dateMap allEntries) (date first) 365 1 1
  end.



(** *** The weekly average of the current week ([refreshMoodData]) *)

(** [entry.date >= startDate && entry.date <= today] with [startDate]
    seven days before [today]. *)
Definition weekEntries (today : Z) (allEntries : list MoodEntry) : list MoodEntry :=
  let startDate := today - 7 in
  List.filter (fun entry => (startDate <=? date entry) && (date entry <=? today))
    allEntries.

Definition weeklyAverage (today : Z) (allEntries : list MoodEntry) : option spec_float :=
  average (weekEntries today allEntries).

(** *** Historical data ([loadHistoricalMoodData]) *)

Inductive TimePeriod := day | week.

Record HistoricalMoodData := {
  dayMood : option spec_float;
  entries : list MoodEntry;
  weekAverage : option spec_float
}.

(** [.eq('date', targetDateStr)]. *)
Definition dayEntries (targetDate : Z) (rows : list MoodEntry) : list MoodEntry :=
  List.filter (fun entry => date entry =? targetDate) rows.

(** [.gte('date', start).lte('date', end)]. *)
Definition between (startDate endDate : Z) (rows : list MoodEntry) : list MoodEntry :=
  List.filter (fun entry => (startDate <=? date entry) && (date entry <=? endDate)) rows.

(** [Math.round(sum / dayEntries.length)], or null without entries. *)
Definition dayAverage (dayEntries : list MoodEntry) : option spec_float :=
  option_map JS.Math_round (average dayEntries).

(** The week that ends on the target day: [sevenDaysAgo] is six days
    before it. *)
Definition historicalWeekEntries (targetDate : Z) (rows : list MoodEntry) : list MoodEntry :=
  between (targetDate - 6) targetDate rows.

(** The state [historicalMoodData] once the load has gone through without
    an error, [rows] being the user's rows of [mood_entries] and
    [targetDate] the date of the target.  (In the week view the target's
    weekday is taken on that date.) *)
Definition loadHistoricalMoodData (summaryTimePeriod : TimePeriod)
    (targetDate : Z) (rows : list MoodEntry) : HistoricalMoodData :=
  match summaryTimePeriod with
  | day =>
      {| dayMood := dayAverage (dayEntries targetDate rows);
         entries := dayEntries targetDate rows;
         weekAverage := average (historicalWeekEntries targetDate rows) |}
  | week =>
      let startOfWeek := targetDate - weekday targetDate in
      let endOfWeek := startOfWeek + 6 in
      {| dayMood := None;
         entries := between startOfWeek endOfWeek rows;
         weekAverage := None |}
  end.

(** *** Presentation *)

(** [switch (rating)] compares with [===]. *)
Definition equals (rating : spec_float) (n : Z) : bool := SFeqb rating (JS.of_int n).

Definition getMoodEmoji (rating : option spec_float) : string :=
  match rating with
  | None => "–"
  | Some r =>
      if equals r 1 then "😢" else if equals r 2 then "😕" else if equals r 3 then "😐"
      else if equals r 4 then "🙂" else if equals r 5 then "😄" else "–"
  end.

Inductive Color := text | mood1 | mood2 | mood3 | mood4 | mood5.

Definition getMoodColor (rating : option spec_float) : Color :=
  match rating with
  | None => text
  | Some r =>
      if equals r 1 then mood1 else if equals r 2 then mood2 else if equals r 3 then mood3
      else if equals r 4 then mood4 else if equals r 5 then mood5 else text
  end.

(** [avg ? Math.round(avg) : null], the argument of [getMoodColor] in the
    "Weekly Mood" cell. *)
Definition roundedOrNull (avg : option spec_float) : option spec_float :=
  match avg with
  | Some a => if JS.truthy a then Some (JS.Math_round a) else None
  | None => None
  end.

(** [avg ? getMoodEmoji(Math.round(avg)) : '–']. *)
Definition weeklyMoodEmoji (avg : option spec_float) : string :=
  match avg with
  | Some a => if JS.truthy a then getMoodEmoji (Some (JS.Math_round a)) else "–"
  | None => "–"
  end.

(** The week view: the cell of weekday [index] shows the rounded average
    of the entries of the week that fall on it. *)
Definition weekDayAverage (zone : TimeZone) (index : Z) (weekRows : list MoodEntry)
    : option spec_float :=
  dayAverage (List.filter (fun entry => getDay zone (date entry) =? index) weekRows).

End HomeScreen.

(** ** HomeScreen: the date navigation of the mood summary *)

Module Summary.
Import HomeScreen.

(** The two pieces of state the navigation bar works on. *)
Record State := {
  summaryTimePeriod : TimePeriod;
  dateOffset : Z
}.

(** The values [useState] starts from. *)
Definition initial : State := {| summaryTimePeriod := day; dateOffset := 0 |}.

(** [dateOffset > 0]. *)
Definition canNavigateForward (s : State) : bool := 0 <? dateOffset s.

Definition navigateToPrevious (s : State) : State :=
  {| summaryTimePeriod := summaryTimePeriod s; dateOffset := dateOffset s + 1 |}.

Definition navigateToNext (s : State) : State :=
  if canNavigateForward s
  then {| summaryTimePeriod := summaryTimePeriod s; dateOffset := dateOffset s - 1 |}
  else s.

Definition resetToToday (s : State) : State :=
  {| summaryTimePeriod := summaryTimePeriod s; dateOffset := 0 |}.

Definition toggleTimePeriod (s : State) : State :=
  {| summaryTimePeriod := match summaryTimePeriod s with day => week | week => day end;
     dateOffset := 0 |}.

(** What the user can press: the two arrows, the date between them and the
    day/week toggle; saving a mood ([handleMoodSaved]) ends with
    [setDateOffset(0)] as well.  The screen is rendered anew between two
    presses. *)
Inductive Press := previous | next | dateDisplay | periodToggle | moodSaved.

Definition press (s : State) (p : Press) : State :=
  match p with
  | previous => navigateToPrevious s
  | next => navigateToNext s
  | dateDisplay => resetToToday s
  | periodToggle => toggleTimePeriod s
  | moodSaved => resetToToday s
  end.

Definition after (presses : list Press) : State := fold_left press presses initial.

End Summary.

(** ** AdvancedMoodAnalyticsScreen *)

Module Analytics.

Definition daysOfWeek : list string :=
  ["Sunday"; "Monday"; "Tuesday"; "Wednesday"; "Thursday"; "Friday"; "Saturday"]%string.

(** [daysOfWeek[new Date(entry.date).getDay()]]. *)
Definition dayName (zone : TimeZone) (entry : MoodEntry) : string :=
  nth (Z.to_nat (getDay zone (date entry))) daysOfWeek ""%string.

(** *** Weekday buckets *)

Record DayBucket := {
  day : string;
  entries : list MoodEntry;
  averageMood : option spec_float
}.

Definition bucket (zone : TimeZone) (entries : list MoodEntry) (day : string) : DayBucket :=
  let dayEntries := List.filter (fun entry => String.eqb (dayName zone entry) day) entries in
  {| day := day; entries := dayEntries; averageMood := average dayEntries |}.

Definition entriesByDay (zone : TimeZone) (entries : list MoodEntry) : list DayBucket :=
  map (bucket zone entries) daysOfWeek.

(** *** Peak day and dip day *)

(** [day.averageMood !== null]. *)
Definition hasData (b : DayBucket) : bool :=
  match averageMood b with
  | Some _ => true
  | None => false
  end.

(** [(day.averageMood || 0)]. *)
Definition mood (b : DayBucket) : spec_float :=
  match averageMood b with
  | Some a => JS.or_zero a
  | None => S754_zero false
  end.

(** The value the comparators rank a bucket by. *)
Definition moodValue (b : DayBucket) : JS.xvalue := JS.value (mood b).

(** [x > 0] on the value a comparator returns. *)
Definition isPositive (x : spec_float) : bool := JS.gt x (S754_zero false).

(** The comparators [(a, b) => b.averageMood - a.averageMood] (descending)
    and [(a, b) => a.averageMood - b.averageMood] (ascending): a positive
    result moves [b] in front of [a]. *)
Definition descending (a b : DayBucket) : bool := isPositive (JS.sub (mood b) (mood a)).
Definition ascending (a b : DayBucket) : bool := isPositive (JS.sub (mood a) (mood b)).

Definition highestMoodDay (zone : TimeZone) (entries : list MoodEntry) : option DayBucket :=
  hd_error (JS.sort descending (List.filter hasData (entriesByDay zone entries))).

Definition lowestMoodDay (zone : TimeZone) (entries : list MoodEntry) : option DayBucket :=
  hd_error (JS.sort ascending (List.filter hasData (entriesByDay zone entries))).

(** A [MoodPattern]; [pattern_day] is its field [day]. *)
Record MoodPattern := {
  pattern_day : string;
  pattern : string;
  description : string
}.

(** [if (d && d.averageMood) patterns.push(...)]. *)
Definition pushIfMood (d : option DayBucket) (make : string -> spec_float -> MoodPattern)
    : list MoodPattern :=
  match d with
  | Some b =>
      match averageMood b with
      | Some a => if JS.truthy a then [make (day b) a] else []
      | None => []
      end
  | None => []
  end.

Definition peakDay (name : string) (a : spec_float) : MoodPattern :=
  {| pattern_day := name;
     pattern := "Peak Day";
     description := "You tend to feel your best on " ++ name
       ++ "s with an average mood of " ++ JS.toFixed1 a ++ "." |}%string.

Definition dipDay (name : string) (a : spec_float) : MoodPattern :=
  {| pattern_day := name;
     pattern := "Dip Day";
     description := "You tend to experience lower moods on " ++ name
       ++ "s with an average mood of " ++ JS.toFixed1 a ++ "." |}%string.

(** *** Weekend versus weekday *)

Definition weekdayEntries (zone : TimeZone) (entries : list MoodEntry) : list MoodEntry :=
  List.filter
    (fun entry => let day := getDay zone (date entry) in (1 <=? day) && (day <=? 5)) entries.

Definition weekendEntries (zone : TimeZone) (entries : list MoodEntry) : list MoodEntry :=
  List.filter
    (fun entry => let day := getDay zone (date entry) in (day =? 0) || (day =? 6)) entries.

(** [rows.length > 0 ? sum / rows.length : 0]. *)
Definition averageOrZero (rows : list MoodEntry) : spec_float :=
  match average rows with
  | Some a => a
  | None => JS.of_int 0
  end.

Definition weekdayAvg (zone : TimeZone) (entries : list MoodEntry) : spec_float :=
  averageOrZero (weekdayEntries zone entries).
Definition weekendAvg (zone : TimeZone) (entries : list MoodEntry) : spec_float :=
  averageOrZero (weekendEntries zone entries).

Definition weekendBoost (weekendAvg weekdayAvg : spec_float) : MoodPattern :=
  {| pattern_day := "Weekend";
     pattern := "Weekend Boost";
     description := "Your mood tends to improve on weekends by "
       ++ JS.toFixed1 (JS.sub weekendAvg weekdayAvg) ++ " points on average." |}%string.

Definition weekdayPreference (weekendAvg weekdayAvg : spec_float) : MoodPattern :=
  {| pattern_day := "Weekday";
     pattern := "Weekday Preference";
     description := "You tend to have better moods during weekdays compared to weekends by "
       ++ JS.toFixed1 (JS.sub weekdayAvg weekendAvg) ++ " points." |}%string.

Definition weekendRule (zone : TimeZone) (entries : list MoodEntry) : list MoodPattern :=
  let weekdayAvg := weekdayAvg zone entries in
  let weekendAvg := weekendAvg zone entries in
  if JS.gt (JS.Math_abs (JS.sub weekdayAvg weekendAvg)) JS.half
     && (0 <? Z.of_nat (length (weekdayEntries zone entries)))
     && (0 <? Z.of_nat (length (weekendEntries zone entries)))
  then
    if JS.gt weekendAvg weekdayAvg
    then [weekendBoost weekendAvg weekdayAvg]
    else [weekdayPreference weekendAvg weekdayAvg]
  else [].

(** The array [patterns] after the three rules have pushed into it, the
    value handed to [setMoodPatterns]. *)
Definition moodPatterns (zone : TimeZone) (entries : list MoodEntry) : list MoodPattern :=
  pushIfMood (highestMoodDay zone entries) peakDay
  ++ pushIfMood (lowestMoodDay zone entries) dipDay
  ++ weekendRule zone entries.

(** *** Keyword triggers *)

Inductive Impact := Positive | Negative.

(** [triggerWords.positive] and [triggerWords.negative]. *)
Definition triggerWords (kind : Impact) : list string :=
  match kind with
  | Positive => ["exercise"; "workout"; "friend"; "family"; "nature"; "outdoors";
                 "sleep"; "rest"; "meditation"; "hobby"]
  | Negative => ["work"; "stress"; "tired"; "sick"; "argument"; "conflict";
                 "deadline"; "anxiety"; "worry"]
  end%string.

(** The kind a word of the vocabulary does not have. *)
Definition other (kind : Impact) : Impact :=
  match kind with
  | Positive => Negative
  | Negative => Positive
  end.

Record TriggerData := {
  count : Z;
  totalImpact : Z;
  type : Impact
}.

(** The object [triggers]: its keys in insertion order, which is the order
    [Object.entries] lists them in. *)
Definition Triggers := list (string * TriggerData).

(** [if (!triggers[word]) triggers[word] = { count: 0, totalImpact: 0, type };
     triggers[word].count += 1; triggers[word].totalImpact += entry.rating]. *)
Fixpoint record (word : string) (kind : Impact) (rating : Z) (triggers : Triggers) : Triggers :=
  match triggers with
  | [] => [(word, {| count := 0 + 1; totalImpact := 0 + rating; type := kind |})]
  | (key, data) :: rest =>
      if String.eqb key word
      then (key, {| count := count data + 1;
                    totalImpact := totalImpact data + rating;
                    type := type data |}) :: rest
      else (key, data) :: record word kind rating rest
  end.

(** [triggers[word]]. *)
Fixpoint lookup (word : string) (triggers : Triggers) : option TriggerData :=
  match triggers with
  | [] => None
  | (key, data) :: rest => if String.eqb key word then Some data else lookup word rest
  end.

(** What [record] leaves under the word, given what was there. *)
Definition bumped (kind : Impact) (rating : Z) (before : option TriggerData) : TriggerData :=
  match before with
  | Some data => {| count := count data + 1;
                    totalImpact := totalImpact data + rating;
                    type := type data |}
  | None => {| count := 0 + 1; totalImpact := 0 + rating; type := kind |}
  end.

(** [triggerWords[kind].forEach(word => { if (details.includes(word)) ... })]. *)
Definition checkTriggers (kind : Impact) (details : string) (rating : Z)
    (triggers : Triggers) : Triggers :=
  fold_left
    (fun triggers word =>
       if JS.includes details word then record word kind rating triggers else triggers)
    (triggerWords kind) triggers.

(** The body of [entries.forEach]: an entry without details (null or the
    empty string) is skipped. *)
Definition analyzeDetails (triggers : Triggers) (entry : MoodEntry) : Triggers :=
  match details entry with
  | None => triggers
  | Some text =>
      if String.eqb text "" then triggers
      else
        let details := JS.toLowerCase text in
        checkTriggers Negative details (rating entry)
          (checkTriggers Positive details (rating entry) triggers)
  end.

Definition triggers (entries : list MoodEntry) : Triggers :=
  fold_left analyzeDetails entries [].

Record MoodTrigger := {
  trigger : string;
  impact : Impact;
  frequency : Z
}.

Definition toMoodTrigger (kv : string * TriggerData) : MoodTrigger :=
  {| trigger := JS.capitalize (fst kv);
     impact := type (snd kv);
     frequency := count (snd kv) |}.

(** Two states of the object that agree on everything but the rating
    totals. *)
Definition sameCounts (t t' : Triggers) : Prop :=
  Forall2 (fun a b => fst a = fst b
                      /\ count (snd a) = count (snd b)
                      /\ type (snd a) = type (snd b)) t t'.

(** The comparator [(a, b) => b.frequency - a.frequency], positive when [b]
    goes first. *)
Definition byFrequency (a b : MoodTrigger) : bool := 0 <? frequency b - frequency a.

(** The words that appear at least twice, in the order of the object. *)
Definition frequentTriggers (entries : list MoodEntry) : list MoodTrigger :=
  map toMoodTrigger (List.filter (fun kv => 2 <=? count (snd kv)) (triggers entries)).

(** The value handed to [setMoodTriggers]. *)
Definition triggersArray (entries : list MoodEntry) : list MoodTrigger :=
  firstn 5 (JS.sort byFrequency (frequentTriggers entries)).

End Analytics.

(** ** AdvancedMoodAnalyticsScreen: loading the data and rendering the report *)

Module Report.

(** *** The state of the screen *)

Record State := {
  moodEntries : list MoodEntry;
  hasEnoughData : bool;
  moodPatterns : list Analytics.MoodPattern;
  moodTriggers : list Analytics.MoodTrigger
}.

(** The values [useState] starts from. *)
Definition initial : State :=
  {| moodEntries := []; hasEnoughData := false; moodPatterns := []; moodTriggers := [] |}.

(** [loadMoodData], [fetched] being what [getRecentMoodEntries(30)]
    resolved to, or [None] when it threw: the [catch] logs the error and
    the state is left as it was.  [analyzeMoodPatterns] runs, and sets the
    patterns and the triggers, only with ten entries or more. *)
Definition loadMoodData (zone : TimeZone) (fetched : option (list MoodEntry)) (s : State)
    : State :=
  match fetched with
  | None => s
  | Some entries =>
      let hasEnough := 10 <=? Z.of_nat (length entries) in
      {| moodEntries := entries;
         hasEnoughData := hasEnough;
         moodPatterns :=
           if hasEnough then Analytics.moodPatterns zone entries else moodPatterns s;
         moodTriggers := if hasEnough then Analytics.triggersArray entries else moodTriggers s |}
  end.

(** The screen after a sequence of loads, each run to its end before the
    next. *)
Definition afterLoads (zone : TimeZone) (loads : list (option (list MoodEntry))) : State :=
  fold_left (fun s fetched => loadMoodData zone fetched s) loads initial.

(** *** The chart ([getChartData]) *)

(** [d || 0] on an integer. *)
Definition orZero (d : Z) : Z := if d =? 0 then 0 else d.

(** The [Date] of iteration [i]: a copy of the present instant [now],
    [today] being the same instant, moved back by
    [date.setDate(today.getDate() - i)]; [dateStr] is its date in UTC. *)
Definition chartDate (zone : TimeZone) (now i : Z) : Z :=
  dateString (daysEarlier zone now i).

(** The label pushed in iteration [i]: ['Today'], or the first two letters
    of [daysOfWeek[date.getDay()]], the weekday being the local one. *)
Definition chartLabel (zone : TimeZone) (now i : Z) : string :=
  if i =? 0 then "Today"
  else substring 0 2
         (nth (Z.to_nat (WeekDay (LocalTime zone (daysEarlier zone now i))))
            Analytics.daysOfWeek ""%string).

(** [moodEntries.find(e => e.date === dateStr)], then
    [entry ? entry.rating : 0]. *)
Definition chartValue (moodEntries : list MoodEntry) (zone : TimeZone) (now i : Z) : Z :=
  match List.find (fun e => date e =? chartDate zone now i) moodEntries with
  | Some entry => rating entry
  | None => 0
  end.

(** [for (let i = 7; i >= 0; i--)], entered at [i] with the labels and the
    data pushed so far. *)
Fixpoint chartLoop (moodEntries : list MoodEntry) (zone : TimeZone) (now : Z) (i : nat)
    (labels : list string) (data : list Z) : list string * list Z :=
  let labels := labels ++ [chartLabel zone now (Z.of_nat i)] in
  let data := data ++ [chartValue moodEntries zone now (Z.of_nat i)] in
  match i with
  | O => (labels, data)
  | S i' => chartLoop moodEntries zone now i' labels data
  end.

Record ChartData := {
  labels : list string;
  data : list Z
}.

Definition getChartData (moodEntries : list MoodEntry) (zone : TimeZone) (now : Z)
    : ChartData :=
  let '(labels, data) := chartLoop moodEntries zone now 7 [] [] in
  {| labels := labels; data := map orZero data |}.

(** *** The pattern cards and the trigger cards *)

(** [moodPatterns.length > 0], the condition under which the pattern cards
    stand in place of "No clear mood patterns detected yet", and
    [moodTriggers.length > 0], the condition of the section "Potential Mood
    Triggers". *)
Definition patternsShown (moodPatterns : list Analytics.MoodPattern) : bool :=
  0 <? Z.of_nat (length moodPatterns).



(** *** Mood variability *)

(** [Math.min(...ratings)] and [Math.max(...ratings)] of a list that starts
    with [first]. *)
Definition Math_min (first : Z) (rest : list Z) : Z := fold_left Z.min rest first.
Definition Math_max (first : Z) (rest : list Z) : Z := fold_left Z.max rest first.

Definition significant : string :=
  "Your mood shows significant variability. Consider tracking what factors might be influencing these changes.".
Definition moderate : string :=
  "Your mood shows moderate variability, which is typical for most people.".
Definition stable : string :=
  "Your mood is relatively stable. This consistency can be a sign of emotional resilience.".
Definition notEnough : string := "Not enough data to analyze mood variability.".

(** The text of the "Mood Variability" card; the first branch is the one
    of [moodEntries.length > 0]. *)
Definition moodVariability (moodEntries : list MoodEntry) : string :=
  match map rating moodEntries with
  | first :: rest =>
      let min := Math_min first rest in
      let max := Math_max first rest in
      let range := max - min in
      if 3 <=? range then significant
      else if 2 <=? range then moderate
      else stable
  | [] => notEnough
  end.

(** *** Personalized tips *)

(** The double quote that the two tips about triggers put around a word. *)
Definition quote : string := String (ascii_of_nat 34) EmptyString.

(** [s || fallback] on a string: the empty string is falsy. *)
Definition orElse (s fallback : string) : string :=
  if String.eqb s "" then fallback else s.

Definition isDipDay (p : Analytics.MoodPattern) : bool :=
  String.eqb (Analytics.pattern p) "Dip Day".

Definition hasImpact (kind : Analytics.Impact) (t : Analytics.MoodTrigger) : bool :=
  match Analytics.impact t, kind with
  | Analytics.Positive, Analytics.Positive | Analytics.Negative, Analytics.Negative => true
  | _, _ => false
  end.

(** [moodPatterns.find(p => p.pattern === 'Dip Day')?.day || 'your dip days']. *)
Definition dipDayName (moodPatterns : list Analytics.MoodPattern) : string :=
  match List.find isDipDay moodPatterns with
  | Some p => orElse (Analytics.pattern_day p) "your dip days"
  | None => "your dip days"%string
  end.

(** [moodTriggers.find(t => t.impact === kind)?.trigger.toLowerCase()
     || fallback]. *)
Definition triggerName (kind : Analytics.Impact) (fallback : string)
    (moodTriggers : list Analytics.MoodTrigger) : string :=
  match List.find (hasImpact kind) moodTriggers with
  | Some t => orElse (JS.toLowerCase (Analytics.trigger t)) fallback
  | None => fallback
  end.

Definition dipDayTip (moodPatterns : list Analytics.MoodPattern) : string :=
  if (0 <? Z.of_nat (length moodPatterns)) && existsb isDipDay moodPatterns
  then ("Plan enjoyable activities for " ++ dipDayName moodPatterns
        ++ " to help boost your mood.")%string
  else "Try to identify activities that consistently improve your mood and incorporate them into your routine."%string.

Definition positiveTip (moodTriggers : list Analytics.MoodTrigger) : string :=
  if (0 <? Z.of_nat (length moodTriggers)) && existsb (hasImpact Analytics.Positive) moodTriggers
  then ("Consider increasing activities involving " ++ quote
        ++ triggerName Analytics.Positive "positive triggers" moodTriggers
        ++ quote ++ " as they seem to boost your mood.")%string
  else "Keep noting details about your day when logging moods to help identify what positively affects you."%string.

Definition negativeTip (moodTriggers : list Analytics.MoodTrigger) : string :=
  if (0 <? Z.of_nat (length moodTriggers)) && existsb (hasImpact Analytics.Negative) moodTriggers
  then ("Be mindful of how " ++ quote
        ++ triggerName Analytics.Negative "negative triggers" moodTriggers
        ++ quote ++ " affects your mood and develop strategies to manage it.")%string
  else "Tracking both positive and challenging moments helps build self-awareness about your emotional patterns."%string.

End Report.

(** ** The design document's reference definitions

    These follow the wording of the document, not the code; the theorems
    below compare the two. *)

Module Spec.





(** "The first in weekday order" among the best: [h] is the first best
    element of [l] when it beats ([R a h]) every element before it and is
    beaten by none after it. *)
Definition firstBest {A : Type} (R : A -> A -> Prop) (l : list A) (h : A) : Prop :=
  exists l1 l2, l = l1 ++ h :: l2
    /\ Forall (fun a => R a h) l1
    /\ Forall (fun b => ~ R h b) l2.

(** The first element with the maximum (minimum) key. *)
Definition firstMaximum {A : Type} (key : A -> JS.xvalue) : list A -> A -> Prop :=
  firstBest (fun a b => JS.xlt (key a) (key b)).

Definition firstMinimum {A : Type} (key : A -> JS.xvalue) : list A -> A -> Prop :=
  firstBest (fun a b => JS.xlt (key b) (key a)).

(** "Arithmetic mean of ratings across a 7-day inclusive window ending at a
    given date": the end date and the six days before it. *)
Definition inWeekWindow (endDate : Z) (entry : MoodEntry) : bool :=
  (endDate - 6 <=? date entry) && (date entry <=? endDate).

Definition computeWeekAverage (entries : list MoodEntry) (endDate : Z) : option spec_float :=
  average (List.filter (inWeekWindow endDate) entries).

(** "Arithmetic mean of ratings of all entries whose date equals it ... kept
    as a float when used for numeric display". *)
Definition computeDayAverage (entries : list MoodEntry) (date' : Z) : option spec_float :=
  average (List.filter (fun entry => date entry =? date') entries).

(** "Rounding to nearest integer for classification purposes uses standard
    round-half-away-from-zero": the magnitude is rounded, a tie going up, and
    the sign is put back. *)
Definition roundHalfAwayFromZero (x : spec_float) : spec_float :=
  match x with
  | S754_finite s m e =>
      let z := cond_Zopp s (JS.round_half_up 1 (Zpos m) e) in
      if z =? 0 then S754_zero s else JS.of_int z
  | _ => x
  end.

(** "The absolute difference of their mean ratings exceeds 0.5", in exact
    arithmetic and free of divisions: for two non-empty groups with sums
    [s] and [s'] and counts [n] and [n'], the mean of the first less the
    mean of the second is [(s * n' - s' * n) / (n * n')]. *)
Definition crossDifference (a b : list MoodEntry) : Z :=
  sumRatings a * Z.of_nat (length b) - sumRatings b * Z.of_nat (length a).





(** The mean of [a] is higher than the mean of [b]. *)
Definition higherMean (a b : list MoodEntry) : Prop := 0 < crossDifference a b.

(** "The weekday bucket with the strict maximum mean among buckets that
    have data ... the first in weekday order": the first best of the
    buckets by the exact means of their entries; the minimum likewise. *)
Definition peakBucket : list Analytics.DayBucket -> Analytics.DayBucket -> Prop :=
  firstBest (fun a b => higherMean (Analytics.entries b) (Analytics.entries a)).

Definition dipBucket : list Analytics.DayBucket -> Analytics.DayBucket -> Prop :=
  firstBest (fun a b => higherMean (Analytics.entries a) (Analytics.entries b)).

(** The vocabulary in its iteration order, positive words first. *)
Definition vocabulary : list (string * Analytics.Impact) :=
  map (fun word => (word, Analytics.Positive)) (Analytics.triggerWords Analytics.Positive)
  ++ map (fun word => (word, Analytics.Negative)) (Analytics.triggerWords Analytics.Negative).

(** An entry mentions a word when it has a note whose lower-case form
    contains the word. *)
Definition mentions (word : string) (entry : MoodEntry) : bool :=
  match details entry with
  | Some text => JS.includes (JS.toLowerCase text) word
  | None => false
  end.

Definition occurrences (word : string) (entries : list MoodEntry) : Z :=
  Z.of_nat (length (List.filter (mentions word) entries)).

(** "The accumulated rating total": the sum of the ratings of the entries
    that mention the word. *)
Definition ratingTotal (word : string) (entries : list MoodEntry) : Z :=
  sumRatings (List.filter (mentions word) entries).

(** "Discard words with fewer than 2 occurrences; sort the remaining words
    descending by occurrence count, ties broken by original vocabulary
    iteration order; truncate to the top 5." *)
Definition extractTriggers (entries : list MoodEntry) : list Analytics.MoodTrigger :=
  firstn 5
    (JS.sort Analytics.byFrequency
       (List.filter (fun t => 2 <=? Analytics.frequency t)
          (map (fun wk => {| Analytics.trigger := JS.capitalize (fst wk);
                             Analytics.impact := snd wk;
                             Analytics.frequency := occurrences (fst wk) entries |})
               vocabulary))).

(** "Ties broken stably by the order in which the words were first matched
    in the entries" (the claim as amended): a note adds the words it
    mentions that no earlier note mentioned, in the order of the
    vocabulary. *)
Definition known (word : string) (words : list string) : bool :=
  existsb (String.eqb word) words.

Definition firstMentioned (words : list string) (entry : MoodEntry) : list string :=
  List.filter (fun word => mentions word entry && negb (known word words))
    (map fst vocabulary).

Definition mentionOrder (entries : list MoodEntry) : list string :=
  fold_left (fun words entry => words ++ firstMentioned words entry) entries [].

Definition kindOf (word : string) : Analytics.Impact :=
  if known word (Analytics.triggerWords Analytics.Positive)
  then Analytics.Positive else Analytics.Negative.

Definition rankByFirstMention (entries : list MoodEntry) : list Analytics.MoodTrigger :=
  firstn 5
    (JS.sort Analytics.byFrequency
       (List.filter (fun t => 2 <=? Analytics.frequency t)
          (map (fun word => {| Analytics.trigger := JS.capitalize word;
                               Analytics.impact := kindOf word;
                               Analytics.frequency := occurrences word entries |})
               (mentionOrder entries)))).

End Spec.

(** ** Sample data *)

Module Sample.

Definition entry (date rating : Z) : MoodEntry :=
  {| date := date; rating := rating; details := None |}.

Definition note (date rating : Z) (text : string) : MoodEntry :=
  {| date := date; rating := rating; details := Some text |}.

(** 367 consecutive days, one entry a day, newest first. *)
Definition yearAndTwoDays : list MoodEntry :=
  map (fun i => entry (20000 - Z.of_nat i) 3) (seq 0 367).

(** Sunday 10 March 2024, and a week with one entry on that day and one
    exactly seven days before it. *)
Definition sunday : Z := days_from_civil 2024 3 10.

Definition todayAndAWeekAgo : list MoodEntry := [entry sunday 5; entry (sunday - 7) 1].

(** Two check-ins on one day, rated 3 and 4. *)
Definition threeAndFour : list MoodEntry := [entry sunday 3; entry sunday 4].

(** Saturday 9 and Sunday 10 March 2024 and the Saturday after, rated 5;
    the Monday, Tuesday and Wednesday between them, rated 1. *)
Definition weekendFives : list MoodEntry :=
  [entry (sunday - 1) 5; entry sunday 5; entry (sunday + 1) 1; entry (sunday + 2) 1;
   entry (sunday + 3) 1; entry (sunday + 6) 5].



(** A negative word first met before a positive one, each met twice. *)
Definition stressBeforeExercise : list MoodEntry :=
  [note sunday 2 "stress"; note (sunday + 1) 4 "Exercise and stress"; note (sunday + 2) 5 "exercise"].

(** The same two notes with low and with high ratings. *)
Definition exerciseRatedLow : list MoodEntry :=
  [note sunday 1 "exercise"; note (sunday + 1) 1 "exercise"].
Definition exerciseRatedHigh : list MoodEntry :=
  [note sunday 5 "exercise"; note (sunday + 1) 5 "exercise"].

(** One note that mentions a workout, in capitals. *)
Definition morningWorkout : MoodEntry := note sunday 4 "Morning WORKOUT, felt great".

(** Two notes about a workout. *)
Definition twoWorkouts : list MoodEntry :=
  [morningWorkout; note (sunday + 2) 5 "evening workout"].


(** Eastern standard time, five hours behind UTC. *)
Definition newYork : TimeZone := fixed (- 5 * msPerHour).



(** Seven vocabulary words, each in two notes or more. *)
Definition sevenWords : list MoodEntry :=
  [note sunday 4 "exercise with a friend, then family time in nature";
   note (sunday + 1) 2 "stress at work, little sleep";
   note (sunday + 2) 3 "Exercise, friend, family, nature; work stress but good sleep";
   note (sunday + 3) 5 "sleep"].

End Sample.

(** ** Where a quotient lies between two integers

    [located num den q l]: the quotient [num / den] lies in [q, q + 1), and
    [l] tells where: on [q], below the middle, on it, or above it.  This is
    what the location a division or a shift hands to the rounding means. *)

Module Rounding.

Definition located (num den q : Z) (l : location) : Prop :=
  0 < den
  /\ q * den <= num < (q + 1) * den
  /\ match l with
     | loc_Exact => num = q * den
     | loc_Inexact c => num <> q * den /\ (2 * (num - q * den) ?= den) = c
     end.

(** The mean of [rows] rounded to the nearest integer, a tie going up:
    [floor (sum / n + 1/2)] in exact arithmetic. *)
Definition roundedMean (rows : list MoodEntry) : Z :=
  (2 * sumRatings rows + Z.of_nat (length rows)) / (2 * Z.of_nat (length rows)).

End Rounding.

(** * Properties *)

(** ** The streak *)

Section Streak.
Import HomeScreen.


















End Streak.

Section StreakBounds.
Import HomeScreen.










End StreakBounds.

(** ** Averages and "no data" *)

Lemma filter_nil_iff {A : Type} (f : A -> bool) (l : list A) :
  List.filter f l = [] <-> forall x, In x l -> f x = false.
Proof.
  induction l as [|a l IH]; simpl.
  - intuition.
  - destruct (f a) eqn:Ha.
    + split; [discriminate|]. intros H. specialize (H a (or_introl eq_refl)). congruence.
    + rewrite IH. split.
      * intros H x [<-|Hx]; auto.
      * intros H x Hx. apply H. now right.
Qed.

Lemma average_None (rows : list MoodEntry) : average rows = None <-> rows = [].
Proof.
  unfold average. destruct rows as [|e rows]; simpl length.
  - simpl. tauto.
  - destruct (Z.ltb_spec 0 (Z.of_nat (S (length rows)))); [|lia].
    split; discriminate.
Qed.

Lemma average_Some (rows : list MoodEntry) :
  rows <> [] ->
  average rows = Some (JS.quotient (sumRatings rows) (Z.of_nat (length rows))).
Proof.
  intros Hne. unfold average. destruct rows as [|e rows]; [contradiction|].
  simpl length. destruct (Z.ltb_spec 0 (Z.of_nat (S (length rows)))); [reflexivity|lia].
Qed.

Lemma option_map_None {A B : Type} (f : A -> B) (o : option A) :
  option_map f o = None <-> o = None.
Proof. destruct o; simpl; split; congruence. Qed.

Section NoData.
Import HomeScreen.
Context (zone : TimeZone).

Lemma dayMood_None (targetDate : Z) (rows : list MoodEntry) :
  dayMood (loadHistoricalMoodData day targetDate rows) = None
  <-> forall entry, In entry rows -> date entry <> targetDate.
Proof.
  simpl. unfold dayAverage. rewrite option_map_None, average_None.
  unfold dayEntries. rewrite filter_nil_iff.
  split; intros H entry Hin; specialize (H entry Hin).
  - now apply Z.eqb_neq.
  - now apply Z.eqb_neq.
Qed.

Lemma weeklyAverage_None (today : Z) (allEntries : list MoodEntry) :
  weeklyAverage today allEntries = None
  <-> forall entry, In entry allEntries -> ~ (today - 7 <= date entry <= today).
Proof.
  unfold weeklyAverage. rewrite average_None. unfold weekEntries.
  rewrite filter_nil_iff.
  split; intros H entry Hin; specialize (H entry Hin).
  - apply andb_false_iff in H as [H|H]; [apply Z.leb_gt in H|apply Z.leb_gt in H]; lia.
  - apply andb_false_iff.
    destruct (Z.leb_spec (today - 7) (date entry)); [right; apply Z.leb_gt; lia | now left].
Qed.

Lemma weekAverage_None (targetDate : Z) (rows : list MoodEntry) :
  weekAverage (loadHistoricalMoodData day targetDate rows) = None
  <-> forall entry, In entry rows -> ~ (targetDate - 6 <= date entry <= targetDate).
Proof.
  simpl. rewrite average_None. unfold historicalWeekEntries, between.
  rewrite filter_nil_iff.
  split; intros H entry Hin; specialize (H entry Hin).
  - apply andb_false_iff in H as [H|H]; [apply Z.leb_gt in H|apply Z.leb_gt in H]; lia.
  - apply andb_false_iff.
    destruct (Z.leb_spec (targetDate - 6) (date entry)); [right; apply Z.leb_gt; lia | now left].
Qed.

Lemma weekDayAverage_None (index : Z) (weekRows : list MoodEntry) :
  weekDayAverage zone index weekRows = None
  <-> forall entry, In entry weekRows -> getDay zone (date entry) <> index.
Proof.
  unfold weekDayAverage, dayAverage. rewrite option_map_None, average_None, filter_nil_iff.
  split; intros H entry Hin; specialize (H entry Hin); now apply Z.eqb_neq.
Qed.

End NoData.

Lemma averageMood_None (zone : TimeZone) (entries : list MoodEntry) (b : Analytics.DayBucket) :
  In b (Analytics.entriesByDay zone entries) ->
  (Analytics.averageMood b = None <-> Analytics.entries b = []).
Proof.
  unfold Analytics.entriesByDay. intros Hin.
  apply List.in_map_iff in Hin as (name & <- & _). simpl. apply average_None.
Qed.

(** C2.  The day average, the week average (of the current week and of a
    past one) and the mean of a weekday bucket (the analytics buckets and the
    cells of the week view) are null exactly when no entry lies in their
    scope; with an entry in scope they are a number, so null never stands for
    a computed value, 0 included. *)
Theorem aggregates_are_null_exactly_without_entries :
  (forall targetDate rows,
     HomeScreen.dayMood (HomeScreen.loadHistoricalMoodData HomeScreen.day targetDate rows) = None
     <-> forall entry, In entry rows -> date entry <> targetDate)
  /\ (forall today allEntries,
        HomeScreen.weeklyAverage today allEntries = None
        <-> forall entry, In entry allEntries -> ~ (today - 7 <= date entry <= today))
  /\ (forall targetDate rows,
        HomeScreen.weekAverage (HomeScreen.loadHistoricalMoodData HomeScreen.day targetDate rows) = None
        <-> forall entry, In entry rows -> ~ (targetDate - 6 <= date entry <= targetDate))
  /\ (forall zone entries b, In b (Analytics.entriesByDay zone entries) ->
        (Analytics.averageMood b = None <-> Analytics.entries b = []))
  /\ (forall zone index weekRows,
        HomeScreen.weekDayAverage zone index weekRows = None
        <-> forall entry, In entry weekRows -> getDay zone (date entry) <> index).
Proof.
  split; [exact dayMood_None|].
  split; [exact weeklyAverage_None|].
  split; [exact weekAverage_None|].
  split; [exact averageMood_None | exact weekDayAverage_None].
Qed.

(** ** The week average *)

Section WeekAverage.
Import HomeScreen.

Lemma inWeekWindow_iff (endDate : Z) (entry : MoodEntry) :
  Spec.inWeekWindow endDate entry = true <-> endDate - 6 <= date entry <= endDate.
Proof. unfold Spec.inWeekWindow. rewrite andb_true_iff, !Z.leb_le. tauto. Qed.

(** The week of a past day is the seven-day window of the document. *)
Lemma historical_weekAverage_is_reference (targetDate : Z) (rows : list MoodEntry) :
  weekAverage (loadHistoricalMoodData day targetDate rows)
  = Spec.computeWeekAverage rows targetDate.
Proof. reflexivity. Qed.

(** The week of the current day reaches back seven days, eight dates in
    all. *)
Lemma weekEntries_In (today : Z) (allEntries : list MoodEntry) (entry : MoodEntry) :
  In entry (weekEntries today allEntries)
  <-> In entry allEntries /\ today - 7 <= date entry <= today.
Proof.
  unfold weekEntries. rewrite filter_In, andb_true_iff, !Z.leb_le. tauto.
Qed.

(** C3 (the code departs from the claim).  On a Sunday with one entry rated
    5 and an entry rated 1 seven days earlier, the current week's average
    takes both entries in and is 3, where the seven-day window ending that
    Sunday holds the first entry only and has mean 5, which is also what
    the historical path computes for the same day. *)
Theorem current_week_average_reaches_an_eighth_day :
  weekEntries Sample.sunday Sample.todayAndAWeekAgo = Sample.todayAndAWeekAgo
  /\ weeklyAverage Sample.sunday Sample.todayAndAWeekAgo = Some (JS.of_int 3)
  /\ Spec.computeWeekAverage Sample.todayAndAWeekAgo Sample.sunday = Some (JS.of_int 5)
  /\ weekAverage (loadHistoricalMoodData day Sample.sunday Sample.todayAndAWeekAgo)
     = Some (JS.of_int 5).
Proof. now vm_compute. Qed.

End WeekAverage.

(** ** Signs of binary64 results *)

Lemma binary_round_aux_signed (sx : bool) (mx ex : Z) (lx : location) :
  JS.signed sx (binary_round_aux JS.prec JS.emax sx mx ex lx).
Proof.
  unfold binary_round_aux.
  destruct (shr_fexp JS.prec JS.emax mx ex lx) as [mrs' e'].
  destruct (shr_fexp JS.prec JS.emax _ e' loc_Exact) as [mrs'' e''].
  destruct (shr_m mrs''); simpl; trivial.
  destruct (e'' <=? JS.emax - JS.prec); simpl; trivial.
Qed.

Lemma of_int_signed (p : positive) : JS.signed false (JS.of_int (Zpos p)).
Proof.
  unfold JS.of_int, binary_normalize, binary_round.
  destruct (shl_align _ _ _) as [mz ez]. apply binary_round_aux_signed.
Qed.

Lemma div_signed (x y : spec_float) :
  JS.signed false x -> JS.signed false y -> JS.signed false (JS.div x y).
Proof.
  unfold JS.div, SFdiv.
  destruct x as [sx|sx| |sx mx ex], y as [sy|sy| |sy my ey]; simpl;
    intros Hx Hy; subst; trivial.
  destruct (SFdiv_core_binary _ _ _ _ _ _) as [[mz ez] lz].
  apply binary_round_aux_signed.
Qed.

Lemma quotient_signed (a b : Z) : 0 < a -> 0 < b -> JS.signed false (JS.quotient a b).
Proof.
  intros Ha Hb. destruct a as [|pa|pa], b as [|pb|pb]; try lia.
  apply div_signed; apply of_int_signed.
Qed.

(** [Math.round] breaks a tie upwards; away from zero that is the same thing
    as long as the value is not negative. *)
Lemma Math_round_half_away (x : spec_float) :
  JS.signed false x -> JS.Math_round x = Spec.roundHalfAwayFromZero x.
Proof. destruct x as [s|s| |s m e]; simpl; intros Hx; subst; reflexivity. Qed.

Lemma sumRatings_from (rows : list MoodEntry) (total : Z) :
  fold_left (fun total entry => total + rating entry) rows total
  = total + sumRatings rows.
Proof.
  unfold sumRatings. revert total. induction rows as [|e rows IH]; intros total; simpl.
  - lia.
  - rewrite IH, (IH (0 + rating e)). lia.
Qed.

Lemma sumRatings_cons (e : MoodEntry) (rows : list MoodEntry) :
  sumRatings (e :: rows) = rating e + sumRatings rows.
Proof. unfold sumRatings at 1. simpl. rewrite sumRatings_from. lia. Qed.

Lemma sumRatings_positive (rows : list MoodEntry) :
  rows <> [] -> (forall entry, In entry rows -> 1 <= rating entry) -> 0 < sumRatings rows.
Proof.
  intros Hne Hr. assert (Z.of_nat (length rows) <= sumRatings rows) as Hlen.
  { clear Hne. induction rows as [|e rows IH]; [unfold sumRatings; simpl; lia|].
    rewrite sumRatings_cons. specialize (Hr e (or_introl eq_refl)) as He.
    specialize (IH (fun x Hx => Hr x (or_intror Hx))). simpl length. lia. }
  destruct rows; [contradiction|]. simpl length in Hlen. lia.
Qed.

(** The average of ratings that are all at least 1 is not negative. *)
Lemma average_signed (rows : list MoodEntry) (a : spec_float) :
  (forall entry, In entry rows -> 1 <= rating entry) ->
  average rows = Some a -> JS.signed false a.
Proof.
  intros Hr Ha. destruct rows as [|e rows]; [discriminate|].
  rewrite average_Some in Ha by discriminate. injection Ha as <-.
  apply quotient_signed; [apply sumRatings_positive; [discriminate | assumption]|].
  simpl length. lia.
Qed.

(** ** The day average *)

Section DayAverage.
Import HomeScreen.

Lemma dayMood_is_rounded (targetDate : Z) (rows : list MoodEntry) :
  dayMood (loadHistoricalMoodData day targetDate rows)
  = option_map JS.Math_round (Spec.computeDayAverage rows targetDate).
Proof. reflexivity. Qed.

Lemma dayMood_half_away (targetDate : Z) (rows : list MoodEntry) :
  (forall entry, In entry rows -> 1 <= rating entry <= 5) ->
  dayMood (loadHistoricalMoodData day targetDate rows)
  = option_map Spec.roundHalfAwayFromZero (Spec.computeDayAverage rows targetDate).
Proof.
  intros Hr. rewrite dayMood_is_rounded. unfold Spec.computeDayAverage.
  destruct (average _) as [a|] eqn:Ha; simpl; [|reflexivity].
  f_equal. apply Math_round_half_away. apply average_signed in Ha; [assumption|].
  intros entry Hin. apply filter_In in Hin as [Hin _]. specialize (Hr entry Hin). lia.
Qed.

Lemma weekly_rounding_at_presentation (avg : spec_float) :
  JS.truthy avg = true ->
  roundedOrNull (Some avg) = Some (JS.Math_round avg)
  /\ weeklyMoodEmoji (Some avg) = getMoodEmoji (Some (JS.Math_round avg)).
Proof. intros Ht. unfold roundedOrNull, weeklyMoodEmoji. now rewrite Ht. Qed.

(** C9 as stated fails: for a day with ratings 3 and 4 the raw average is
    3.5, and what the day path keeps is 4. *)
Lemma day_average_of_3_and_4_is_kept_as_4 :
  Spec.computeDayAverage Sample.threeAndFour Sample.sunday = Some (JS.quotient 7 2)
  /\ dayMood (loadHistoricalMoodData day Sample.sunday Sample.threeAndFour) = Some (JS.of_int 4)
  /\ dayMood (loadHistoricalMoodData day Sample.sunday Sample.threeAndFour)
     <> Spec.computeDayAverage Sample.threeAndFour Sample.sunday.
Proof.
  split; [vm_compute; reflexivity|].
  split; [vm_compute; reflexivity|].
  vm_compute. discriminate.
Qed.

(** C9 (as amended).  The day average is rounded where it is computed: what
    the day path stores is [Math.round] of the mean of the day's ratings,
    null without entries, and the unrounded mean of a day is not kept.
    [Math.round] sends a tie upwards, which for ratings between 1 and 5 is
    rounding half away from zero; a day rated 3 and 4 has mean 3.5, is
    stored as 4 and shows the emoji and the colour of 4.  The week average
    is the one that is stored unrounded (it is the mean over the seven-day
    window) and rounded only where the emoji and the colour are picked. *)
Theorem day_average_is_rounded_when_computed :
  (forall targetDate rows,
     dayMood (loadHistoricalMoodData day targetDate rows)
     = option_map JS.Math_round (Spec.computeDayAverage rows targetDate))
  /\ (forall targetDate rows,
        (forall entry, In entry rows -> 1 <= rating entry <= 5) ->
        dayMood (loadHistoricalMoodData day targetDate rows)
        = option_map Spec.roundHalfAwayFromZero (Spec.computeDayAverage rows targetDate))
  /\ (Spec.computeDayAverage Sample.threeAndFour Sample.sunday = Some (JS.quotient 7 2)
      /\ dayMood (loadHistoricalMoodData day Sample.sunday Sample.threeAndFour)
         = Some (JS.of_int 4)
      /\ getMoodEmoji (dayMood (loadHistoricalMoodData day Sample.sunday Sample.threeAndFour))
         = "🙂"%string
      /\ getMoodColor (dayMood (loadHistoricalMoodData day Sample.sunday Sample.threeAndFour))
         = mood4)
  /\ (forall targetDate rows,
        weekAverage (loadHistoricalMoodData day targetDate rows)
        = Spec.computeWeekAverage rows targetDate)
  /\ (forall avg, JS.truthy avg = true ->
        roundedOrNull (Some avg) = Some (JS.Math_round avg)
        /\ weeklyMoodEmoji (Some avg) = getMoodEmoji (Some (JS.Math_round avg))).
Proof.
  split; [exact dayMood_is_rounded|].
  split; [exact dayMood_half_away|].
  split; [now vm_compute|].
  split; [exact historical_weekAverage_is_reference | exact weekly_rounding_at_presentation].
Qed.

End DayAverage.

(** ** Binary64 subtraction and the order of values *)

Lemma iter_pos_nat {A : Type} (f : A -> A) (p : positive) (x : A) :
  SpecFloat.iter_pos f p x = Nat.iter (Pos.to_nat p) f x.
Proof.
  revert x. induction p as [p IH|p IH|]; intros x; cbn [SpecFloat.iter_pos].
  - rewrite !IH, Pos2Nat.inj_xI, <- Nat.iter_add, <- Nat.iter_succ_r. f_equal. lia.
  - rewrite !IH, Pos2Nat.inj_xO, <- Nat.iter_add. f_equal. lia.
  - reflexivity.
Qed.

(** Shifting a mantissa right by fewer places than it has digits leaves a
    positive mantissa. *)
Lemma iter_shr_1_positive (k : nat) (m : positive) (r s : bool) :
  (k < Pos.to_nat (digits2_pos m))%nat ->
  exists m' r' s',
    Nat.iter k shr_1 {| shr_m := Zpos m; shr_r := r; shr_s := s |}
    = {| shr_m := Zpos m'; shr_r := r'; shr_s := s' |}
    /\ (Pos.to_nat (digits2_pos m') = Pos.to_nat (digits2_pos m) - k)%nat.
Proof.
  induction k as [|k IH]; intros Hk.
  - exists m, r, s. simpl. split; [reflexivity | lia].
  - destruct IH as (m1 & r1 & s1 & Heq & Hd); [lia|].
    simpl. rewrite Heq.
    destruct m1 as [p|p|]; simpl in Hd |- *.
    + eexists _, _, _. split; [reflexivity|]. rewrite Pos2Nat.inj_succ in Hd. lia.
    + eexists _, _, _. split; [reflexivity|]. rewrite Pos2Nat.inj_succ in Hd. lia.
    + lia.
Qed.

Lemma shr_fexp_positive (m : positive) (e : Z) (l : location) :
  JS.emin <= e ->
  exists m' r' s' e',
    shr_fexp JS.prec JS.emax (Zpos m) e l
    = ({| shr_m := Zpos m'; shr_r := r'; shr_s := s' |}, e')
    /\ JS.emin <= e'.
Proof.
  intros He. unfold shr_fexp, shr.
  remember (shr_record_of_loc (Z.pos m) l) as rec eqn:Hrec.
  assert (exists r s, rec = {| shr_m := Zpos m; shr_r := r; shr_s := s |}) as (r & s & ->).
  { subst rec. destruct l as [|[| |]]; simpl; eauto. }
  destruct (fexp JS.prec JS.emax (Zdigits2 (Z.pos m) + e) - e) as [|n|n] eqn:Hn.
  - eauto 6.
  - rewrite iter_pos_nat.
    destruct (iter_shr_1_positive (Pos.to_nat n) m r s) as (m' & r' & s' & Heq & _).
    { revert Hn. unfold fexp, SpecFloat.emin, JS.emin, JS.prec, JS.emax in *. simpl Zdigits2. lia. }
    rewrite Heq. exists m', r', s', (e + Z.pos n). split; [reflexivity | lia].
  - eauto 6.
Qed.

Lemma shr_fexp_exponent (m e : Z) (l : location) :
  JS.emin <= snd (shr_fexp JS.prec JS.emax m e l).
Proof.
  unfold shr_fexp, shr.
  destruct (fexp JS.prec JS.emax (Zdigits2 m + e) - e) as [|n|n] eqn:Hn; simpl;
    revert Hn; unfold fexp, SpecFloat.emin, JS.emin, JS.prec, JS.emax; lia.
Qed.

(** Rounding a positive mantissa whose exponent is within the format never
    underflows to zero. *)
Lemma binary_round_aux_nonzero (sx : bool) (m : positive) (e : Z) (l : location) :
  JS.emin <= e ->
  JS.nonzero_of_sign sx (binary_round_aux JS.prec JS.emax sx (Zpos m) e l).
Proof.
  intros He. unfold binary_round_aux.
  destruct (shr_fexp_positive m e l He) as (m1 & r1 & s1 & e1 & -> & He1).
  cbn [shr_m].
  assert (exists m2, round_nearest_even (Z.pos m1)
                       (loc_of_shr_record {| shr_m := Z.pos m1; shr_r := r1; shr_s := s1 |})
                     = Zpos m2) as (m2 & ->).
  { unfold round_nearest_even. destruct r1, s1; simpl; eauto.
    destruct m1; simpl; eauto. }
  destruct (shr_fexp_positive m2 e1 loc_Exact He1) as (m3 & r3 & s3 & e3 & -> & He3).
  cbn [shr_m]. destruct (e3 <=? JS.emax - JS.prec); reflexivity.
Qed.

Lemma binary_round_aux_bounded (sx : bool) (mx ex : Z) (lx : location) :
  JS.bounded_below (binary_round_aux JS.prec JS.emax sx mx ex lx).
Proof.
  unfold binary_round_aux.
  destruct (shr_fexp JS.prec JS.emax mx ex lx) as [mrs' e'].
  pose proof (shr_fexp_exponent
                (round_nearest_even (shr_m mrs') (loc_of_shr_record mrs')) e' loc_Exact) as He.
  destruct (shr_fexp JS.prec JS.emax _ e' loc_Exact) as [mrs'' e'']. simpl in He.
  destruct (shr_m mrs''); simpl; trivial.
  destruct (e'' <=? JS.emax - JS.prec); simpl; trivial.
Qed.

Lemma iter_xO_mul (m d : positive) : Zpos (Pos.iter xO m d) = Zpos m * 2 ^ Zpos d.
Proof.
  induction d as [|d IH] using Pos.peano_ind.
  - simpl. lia.
  - rewrite Pos.iter_succ, Pos2Z.inj_succ, Z.pow_succ_r by lia.
    rewrite Pos2Z.inj_xO, IH. lia.
Qed.

Lemma shl_align_fst (m : positive) (e ez : Z) :
  ez <= e -> Zpos (fst (shl_align m e ez)) = Zpos m * 2 ^ (e - ez).
Proof.
  intros Hle. unfold shl_align. destruct (ez - e) as [|d|d] eqn:Hd; simpl.
  - replace (e - ez) with 0 by lia. lia.
  - lia.
  - rewrite iter_xO_mul. f_equal. f_equal. lia.
Qed.

Lemma shl_align_snd (m : positive) (e ez : Z) :
  snd (shl_align m e ez) = Z.min e ez.
Proof. unfold shl_align. destruct (ez - e) as [|d|d] eqn:Hd; simpl; lia. Qed.

Lemma binary_round_nonzero (sx : bool) (m : positive) (e : Z) :
  JS.emin <= e -> JS.nonzero_of_sign sx (binary_round JS.prec JS.emax sx m e).
Proof.
  intros He. unfold binary_round.
  pose proof (shl_align_snd m e (fexp JS.prec JS.emax (Z.pos (digits2_pos m) + e))) as Hs.
  destruct (shl_align _ _ _) as [mz ez]. simpl in Hs.
  apply binary_round_aux_nonzero. subst ez.
  unfold fexp, SpecFloat.emin, JS.emin, JS.prec, JS.emax in *. lia.
Qed.

(** The sign of a rounded integer multiple of [2^e] is the sign of the
    integer. *)
Lemma binary_normalize_positive (d e : Z) :
  JS.emin <= e ->
  (JS.nonzero_of_sign false (binary_normalize JS.prec JS.emax d e false) <-> 0 < d).
Proof.
  intros He. destruct d as [|p|p]; simpl.
  - split; [contradiction | lia].
  - split; [lia | intros _; now apply binary_round_nonzero].
  - pose proof (binary_round_nonzero true p e He) as H.
    split; [|lia]. intros H'.
    destruct (binary_round JS.prec JS.emax true p e); simpl in *; try contradiction; congruence.
Qed.

Lemma isPositive_iff (x : spec_float) :
  Analytics.isPositive x = true <-> JS.nonzero_of_sign false x.
Proof.
  unfold Analytics.isPositive, JS.gt, SFltb.
  destruct x as [s|s| |s m e]; simpl.
  - split; [discriminate | intros []].
  - destruct s; simpl; split; congruence.
  - split; [discriminate | intros []].
  - destruct s; simpl; split; congruence.
Qed.

Lemma scaled_aligned (s : bool) (m : positive) (e ez : Z) :
  JS.emin <= ez <= e ->
  cond_Zopp s (Zpos m) * 2 ^ (e - JS.emin)
  = cond_Zopp s (Zpos (fst (shl_align m e ez))) * 2 ^ (ez - JS.emin).
Proof.
  intros H. rewrite shl_align_fst by lia.
  replace (e - JS.emin) with ((e - ez) + (ez - JS.emin)) by lia.
  rewrite Z.pow_add_r by lia. destruct s; simpl; lia.
Qed.

(** The comparator's subtraction is positive exactly when its first
    operand is the larger value. *)
Lemma sub_positive_iff (x y : spec_float) :
  JS.ordinary x -> JS.ordinary y ->
  (Analytics.isPositive (JS.sub y x) = true <-> JS.xlt (JS.value x) (JS.value y)).
Proof.
  intros [Hx Hbx] [Hy Hby]. rewrite isPositive_iff. unfold JS.sub, SFsub.
  destruct y as [sy|sy| |sy my ey], x as [sx|sx| |sx mx ex]; try congruence;
    simpl in Hbx, Hby; clear Hx Hy.
  all: try (destruct sy; simpl; intuition congruence).
  all: try (destruct sy, sx; simpl; intuition congruence).
  - destruct sy, sx; simpl; split; (contradiction || lia).
  - pose proof (Z.pow_pos_nonneg 2 (ex - JS.emin)).
    destruct sx; simpl; split; intros; (reflexivity || discriminate || lia).
  - pose proof (Z.pow_pos_nonneg 2 (ey - JS.emin)).
    destruct sy; simpl; split; intros; (reflexivity || discriminate || lia).
  - cbv zeta. rewrite binary_normalize_positive by lia. simpl JS.value. unfold JS.xlt.
    rewrite (scaled_aligned sy my ey (Z.min ey ex)) by lia.
    rewrite (scaled_aligned sx mx ex (Z.min ey ex)) by lia.
    pose proof (Z.pow_pos_nonneg 2 (Z.min ey ex - JS.emin)).
    nia.
Qed.

Lemma div_bounded (x y : spec_float) : JS.bounded_below (JS.div x y).
Proof.
  unfold JS.div, SFdiv.
  destruct x as [sx|sx| |sx mx ex], y as [sy|sy| |sy my ey]; simpl; trivial.
  destruct (SFdiv_core_binary _ _ _ _ _ _) as [[mz ez] lz].
  apply binary_round_aux_bounded.
Qed.

Lemma or_zero_ordinary (x : spec_float) :
  JS.bounded_below x -> JS.ordinary (JS.or_zero x).
Proof.
  intros Hb. unfold JS.or_zero, JS.ordinary.
  destruct x; simpl; auto; split; (discriminate || exact I).
Qed.

Lemma xlt_trans (a b c : JS.xvalue) : JS.xlt a b -> JS.xlt b c -> JS.xlt a c.
Proof. destruct a, b, c; simpl; try tauto; lia. Qed.

Lemma xlt_cotrans (a b c : JS.xvalue) : JS.xlt a c -> JS.xlt a b \/ JS.xlt b c.
Proof. destruct a, b, c; simpl; try tauto; lia. Qed.

Lemma xlt_irrefl (a : JS.xvalue) : ~ JS.xlt a a.
Proof. destruct a; simpl; lia. Qed.

(** ** Rounding a quotient to binary64 *)

(** *** Digits *)

Lemma digits2_pos_bounds (p : positive) :
  2 ^ (Zpos (digits2_pos p) - 1) <= Zpos p < 2 ^ Zpos (digits2_pos p).
Proof.
  induction p as [p IH|p IH|]; cbn [digits2_pos].
  - rewrite Pos2Z.inj_succ, Z.pow_succ_r by lia.
    replace (Z.succ (Zpos (digits2_pos p)) - 1) with (Z.succ (Zpos (digits2_pos p) - 1)) by lia.
    rewrite Z.pow_succ_r by lia. lia.
  - rewrite Pos2Z.inj_succ, Z.pow_succ_r by lia.
    replace (Z.succ (Zpos (digits2_pos p)) - 1) with (Z.succ (Zpos (digits2_pos p) - 1)) by lia.
    rewrite Z.pow_succ_r by lia. lia.
  - cbn. lia.
Qed.

Lemma digits2_pos_unique (p : positive) (d : Z) :
  2 ^ (d - 1) <= Zpos p < 2 ^ d -> Zpos (digits2_pos p) = d.
Proof.
  intros [Hlo Hhi]. pose proof (digits2_pos_bounds p) as [Hlo' Hhi'].
  destruct (Z.lt_trichotomy (Zpos (digits2_pos p)) d) as [Hlt|[Heq|Hgt]]; [|exact Heq|].
  - assert (2 ^ Zpos (digits2_pos p) <= 2 ^ (d - 1)) by (apply Z.pow_le_mono_r; lia). lia.
  - assert (0 <= d).
    { destruct (Z.lt_ge_cases d 0) as [Hneg|]; [|lia]. rewrite Z.pow_neg_r in Hhi by lia. lia. }
    assert (2 ^ d <= 2 ^ (Zpos (digits2_pos p) - 1)) by (apply Z.pow_le_mono_r; lia). lia.
Qed.

Lemma digits_53 (q : Z) :
  4503599627370496 <= q < 9007199254740992 -> Zdigits2 q = 53.
Proof.
  intros H. destruct q as [|p|p]; try lia. cbn [Zdigits2].
  apply digits2_pos_unique. change (2 ^ (53 - 1)) with 4503599627370496.
  change (2 ^ 53) with 9007199254740992. lia.
Qed.

Lemma digits_54 (q : Z) :
  9007199254740992 <= q < 18014398509481984 -> Zdigits2 q = 54.
Proof.
  intros H. destruct q as [|p|p]; try lia. cbn [Zdigits2].
  apply digits2_pos_unique. change (2 ^ (54 - 1)) with 9007199254740992.
  change (2 ^ 54) with 18014398509481984. lia.
Qed.

(** *** Locations *)

Section Located.
Import Rounding.

Lemma loc_of_shr_record_of_loc (m : Z) (l : location) :
  loc_of_shr_record (shr_record_of_loc m l) = l /\ shr_m (shr_record_of_loc m l) = m.
Proof. destruct l as [|[]]; now split. Qed.

Lemma new_location_located (num den : Z) :
  0 < den ->
  located num den (num / den) (new_location den (num mod den)).
Proof.
  intros Hden. pose proof (Z.div_mod num den ltac:(lia)) as E.
  pose proof (Z.mod_pos_bound num den Hden) as B.
  set (q := num / den) in *. set (r := num mod den) in *.
  split; [exact Hden|]. split; [nia|].
  replace (num - q * den) with r by lia.
  unfold new_location, new_location_even, new_location_odd.
  destruct (Z.even den) eqn:Eeven; destruct (Z.eqb_spec r 0) as [Hr|Hr]; try nia.
  - split; [nia|reflexivity].
  - split; [nia|].
    destruct (Z.compare_spec (2 * r + 1) den) as [H|H|H];
      [apply Z.compare_lt_iff|apply Z.compare_lt_iff|apply Z.compare_gt_iff]; try lia.
    destruct (Z.compare_spec (2 * r) den) as [H'|H'|H']; try lia.
    rewrite <- H' in Eeven. rewrite Z.even_mul in Eeven. discriminate.
Qed.

Lemma round_nearest_even_located (num den q : Z) (l : location) :
  located num den q l ->
  let m := round_nearest_even q l in
  q <= m <= q + 1 /\ 2 * Z.abs (m * den - num) <= den.
Proof.
  intros (Hden & Hq & Hl). cbv zeta. unfold round_nearest_even.
  destruct l as [|[]].
  - subst num. split; [lia|]. replace (q * den - q * den) with 0 by lia. cbn. lia.
  - destruct Hl as [_ Hl]. apply Z.compare_eq in Hl.
    destruct (Z.even q); split; try lia.
  - destruct Hl as [_ Hl]. rewrite Z.compare_lt_iff in Hl. split; lia.
  - destruct Hl as [_ Hl]. rewrite Z.compare_gt_iff in Hl. split; lia.
Qed.

Lemma shr_1_halves (p : positive) (r s : bool) :
  p <> 1%positive ->
  shr_1 {| shr_m := Zpos p; shr_r := r; shr_s := s |}
  = {| shr_m := Zpos p / 2; shr_r := Z.odd (Zpos p); shr_s := r || s |}.
Proof.
  intros Hp. destruct p as [p|p|]; [| |congruence]; cbn [shr_1 Z.odd].
  - f_equal. rewrite Pos2Z.inj_xI. apply (Z.div_unique _ _ _ 1); lia.
  - f_equal. rewrite Pos2Z.inj_xO. apply (Z.div_unique _ _ _ 0); lia.
Qed.

Lemma shr_1_located (num den : Z) (p : positive) (l : location) :
  p <> 1%positive ->
  located num den (Zpos p) l ->
  let mrs := shr_1 (shr_record_of_loc (Zpos p) l) in
  shr_m mrs = Zpos p / 2 /\ located num (2 * den) (shr_m mrs) (loc_of_shr_record mrs).
Proof.
  intros Hp (Hden & Hq & Hl). cbv zeta.
  pose proof (Z.div_mod (Zpos p) 2 ltac:(lia)) as E.
  pose proof (Z.mod_pos_bound (Zpos p) 2 ltac:(lia)) as B.
  rewrite Zmod_odd in E.
  assert (shr_1 (shr_record_of_loc (Zpos p) l)
          = {| shr_m := Zpos p / 2; shr_r := Z.odd (Zpos p);
               shr_s := match l with loc_Exact => false | _ => true end |}) as ->.
  { destruct l as [|[]]; cbn [shr_record_of_loc]; rewrite shr_1_halves by exact Hp;
      f_equal; now destruct (Z.odd _). }
  cbn [shr_m]. split; [reflexivity|].
  set (h := Zpos p / 2) in *.
  split; [lia|].
  destruct (Z.odd (Zpos p)); (split; [nia|]); destruct l as [|[]]; cbn [loc_of_shr_record].
  - split; [nia|]. apply Z.compare_eq_iff. nia.
  - destruct Hl as [Hne Hl]. apply Z.compare_eq in Hl.
    split; [nia|]. apply Z.compare_gt_iff. nia.
  - destruct Hl as [Hne Hl]. rewrite Z.compare_lt_iff in Hl.
    split; [nia|]. apply Z.compare_gt_iff. nia.
  - destruct Hl as [Hne Hl]. rewrite Z.compare_gt_iff in Hl.
    split; [nia|]. apply Z.compare_gt_iff. nia.
  - nia.
  - destruct Hl as [Hne Hl]. split; [nia|]. apply Z.compare_lt_iff. nia.
  - destruct Hl as [Hne Hl]. split; [nia|]. apply Z.compare_lt_iff. nia.
  - destruct Hl as [Hne Hl]. split; [nia|]. apply Z.compare_lt_iff. nia.
Qed.

End Located.

Section RoundNormal.
Import Rounding.

Lemma shr_fexp_53 (q e : Z) (l : location) :
  4503599627370496 <= q < 9007199254740992 -> JS.emin <= e ->
  shr_fexp JS.prec JS.emax q e l = (shr_record_of_loc q l, e).
Proof.
  intros Hq He. unfold shr_fexp. rewrite (digits_53 q Hq).
  cbv [fexp emin JS.prec JS.emax JS.emin] in *.
  rewrite Z.max_l by lia. now replace (53 + e - 53 - e) with 0 by lia.
Qed.

Lemma shr_fexp_54 (q e : Z) (l : location) :
  9007199254740992 <= q < 18014398509481984 -> JS.emin <= e ->
  shr_fexp JS.prec JS.emax q e l = (shr_1 (shr_record_of_loc q l), e + 1).
Proof.
  intros Hq He. unfold shr_fexp. rewrite (digits_54 q Hq).
  cbv [fexp emin JS.prec JS.emax JS.emin] in *.
  rewrite Z.max_l by lia. now replace (54 + e - 53 - e) with 1 by lia.
Qed.

(** The second half of [binary_round_aux], entered with a mantissa of 53
    digits and the place of the quotient above it: the result is the
    quotient within half a unit of its last place. *)
Lemma round_tail (sx : bool) (q e num den : Z) (l : location) :
  4503599627370496 <= q < 9007199254740992 -> JS.emin <= e <= 969 ->
  located num den q l ->
  exists m n,
    (let '(mrs, e') := shr_fexp JS.prec JS.emax (round_nearest_even q l) e loc_Exact in
     match shr_m mrs with
     | 0 => S754_zero sx
     | Zpos m => if e' <=? JS.emax - JS.prec then S754_finite sx m e' else S754_infinity sx
     | Zneg _ => S754_nan
     end) = S754_finite sx m (e + n)
    /\ 0 <= n <= 1
    /\ 4503599627370496 <= Zpos m < 9007199254740992
    /\ 2 * Z.abs (Zpos m * (den * 2 ^ n) - num) <= den * 2 ^ n.
Proof.
  intros Hq He Hloc.
  pose proof (round_nearest_even_located num den q l Hloc) as [Hm Herr]. cbv zeta in Hm, Herr.
  set (m1 := round_nearest_even q l) in *.
  destruct (Z.lt_ge_cases m1 9007199254740992) as [Hlt|Hge].
  - rewrite shr_fexp_53 by lia. cbn [shr_record_of_loc shr_m].
    destruct m1 as [|m|m]; try lia. exists m, 0.
    replace (e <=? JS.emax - JS.prec) with true
      by (symmetry; apply Z.leb_le; unfold JS.emax, JS.prec; lia).
    rewrite Z.add_0_r. split; [reflexivity|]. split; [lia|]. split; [lia|].
    change (2 ^ 0) with 1. now rewrite Z.mul_1_r.
  - assert (m1 = 9007199254740992) as Hm1 by lia.
    rewrite shr_fexp_54 by lia. rewrite Hm1. cbn [shr_record_of_loc shr_1 shr_m].
    exists 4503599627370496%positive, 1.
    replace (e + 1 <=? JS.emax - JS.prec) with true
      by (symmetry; apply Z.leb_le; unfold JS.emax, JS.prec; lia).
    split; [reflexivity|]. split; [lia|]. split; [lia|].
    change (2 ^ 1) with 2. rewrite Hm1 in Herr. lia.
Qed.

(** [binary_round_aux] on a quotient of 53 or 54 digits. *)
Lemma binary_round_aux_quotient (sx : bool) (q e num den : Z) (l : location) :
  4503599627370496 <= q < 18014398509481984 -> JS.emin <= e <= 968 ->
  located num den q l ->
  exists m n,
    binary_round_aux JS.prec JS.emax sx q e l = S754_finite sx m (e + n)
    /\ 0 <= n <= 2
    /\ 4503599627370496 <= Zpos m < 9007199254740992
    /\ 2 * Z.abs (Zpos m * (den * 2 ^ n) - num) <= den * 2 ^ n.
Proof.
  intros Hq He Hloc. unfold binary_round_aux.
  destruct (Z.lt_ge_cases q 9007199254740992) as [Hlt|Hge].
  - rewrite shr_fexp_53 by lia.
    destruct (loc_of_shr_record_of_loc q l) as [-> ->].
    destruct (round_tail sx q e num den l ltac:(lia) ltac:(lia) Hloc) as (m & n & E & Hn & Hm & Herr).
    exists m, n. split; [exact E|]. split; [lia|]. now split.
  - rewrite shr_fexp_54 by lia.
    destruct q as [|p|p]; try lia.
    assert (p <> 1%positive) as Hp by lia.
    destruct (shr_1_located num den p l Hp Hloc) as [Hhalf Hloc']. cbv zeta in Hhalf, Hloc'.
    set (mrs := shr_1 (shr_record_of_loc (Zpos p) l)) in *.
    assert (4503599627370496 <= shr_m mrs < 9007199254740992) as Hq'.
    { rewrite Hhalf. split.
      - apply Z.div_le_lower_bound; lia.
      - apply Z.div_lt_upper_bound; lia. }
    destruct (round_tail sx (shr_m mrs) (e + 1) num (2 * den) (loc_of_shr_record mrs)
                Hq' ltac:(lia) Hloc') as (m & n & E & Hn & Hm & Herr).
    exists m, (1 + n). rewrite Z.add_assoc. split; [exact E|]. split; [lia|]. split; [exact Hm|].
    replace (2 ^ (1 + n)) with (2 * 2 ^ n) by (rewrite Z.pow_add_r by lia; reflexivity).
    replace (den * (2 * 2 ^ n)) with (2 * den * 2 ^ n) by lia. exact Herr.
Qed.

End RoundNormal.

Section Quotient.
Import Rounding.

(** An integer below 2^53 enters floating-point arithmetic unchanged: its
    mantissa is the integer shifted to 53 digits. *)
Lemma of_int_normal (z : Z) :
  0 < z < 9007199254740992 ->
  exists m a, JS.of_int z = S754_finite false m (- a)
    /\ 0 <= a <= 52
    /\ Zpos m = z * 2 ^ a
    /\ 4503599627370496 <= Zpos m < 9007199254740992.
Proof.
  intros Hz. destruct z as [|p|p]; try lia.
  unfold JS.of_int, binary_normalize, binary_round.
  pose proof (digits2_pos_bounds p) as Hd. set (d := Zpos (digits2_pos p)) in *.
  assert (1 <= d <= 53) as Hd53.
  { split; [unfold d; lia|].
    destruct (Z.lt_ge_cases 53 d) as [Hgt|]; [|lia].
    assert (2 ^ 53 <= 2 ^ (d - 1)) by (apply Z.pow_le_mono_r; lia).
    change (2 ^ 53) with 9007199254740992 in *. lia. }
  assert (fexp JS.prec JS.emax (d + 0) = d - 53) as ->.
  { cbv [fexp emin JS.prec JS.emax]. lia. }
  destruct (shl_align p 0 (d - 53)) as [mz ez] eqn:E.
  pose proof (shl_align_fst p 0 (d - 53) ltac:(lia)) as Hfst.
  pose proof (shl_align_snd p 0 (d - 53)) as Hsnd.
  rewrite E in Hfst, Hsnd. cbn [fst snd] in Hfst, Hsnd.
  rewrite Z.min_r in Hsnd by lia. subst ez.
  replace (0 - (d - 53)) with (53 - d) in Hfst by lia.
  assert (4503599627370496 <= Zpos mz < 9007199254740992) as Hmz.
  { rewrite Hfst.
    assert (2 ^ (d - 1) * 2 ^ (53 - d) = 4503599627370496) as H1
      by (rewrite <- Z.pow_add_r by lia; now replace (d - 1 + (53 - d)) with 52 by lia).
    assert (2 ^ d * 2 ^ (53 - d) = 9007199254740992) as H2
      by (rewrite <- Z.pow_add_r by lia; now replace (d + (53 - d)) with 53 by lia).
    assert (0 < 2 ^ (53 - d)) by (apply Z.pow_pos_nonneg; lia). nia. }
  exists mz, (53 - d).
  replace (- (53 - d)) with (d - 53) by lia.
  split; [|split; [lia|split; [exact Hfst|exact Hmz]]].
  unfold binary_round_aux.
  rewrite shr_fexp_53 by (unfold JS.emin, JS.emax, JS.prec; lia).
  cbn [shr_record_of_loc shr_m loc_of_shr_record round_nearest_even].
  rewrite shr_fexp_53 by (unfold JS.emin, JS.emax, JS.prec; lia).
  cbn [shr_record_of_loc shr_m].
  replace (d - 53 <=? JS.emax - JS.prec) with true; [reflexivity|].
  symmetry. apply Z.leb_le. unfold JS.emax, JS.prec. lia.
Qed.

(** The quotient of two normal numbers: the mantissa of the result is the
    exact quotient within half a unit of the last place. *)
Lemma div_normal (mx my : positive) (ex ey : Z) :
  4503599627370496 <= Zpos mx < 9007199254740992 ->
  4503599627370496 <= Zpos my < 9007199254740992 ->
  -500 <= ex - ey <= 500 ->
  exists m n,
    JS.div (S754_finite false mx ex) (S754_finite false my ey)
    = S754_finite false m (ex - ey - 53 + n)
    /\ 0 <= n <= 2
    /\ 4503599627370496 <= Zpos m < 9007199254740992
    /\ 2 * Z.abs (Zpos m * (Zpos my * 2 ^ n) - Zpos mx * 9007199254740992) <= Zpos my * 2 ^ n.
Proof.
  intros Hx Hy He. unfold JS.div, SFdiv, SFdiv_core_binary.
  rewrite (digits_53 (Zpos mx) Hx), (digits_53 (Zpos my) Hy).
  assert (Z.min (fexp JS.prec JS.emax (53 + ex - (53 + ey))) (ex - ey) = ex - ey - 53) as ->.
  { cbv [fexp emin JS.prec JS.emax]. lia. }
  replace (ex - ey - (ex - ey - 53)) with 53 by lia.
  rewrite Z.shiftl_mul_pow2 by lia. change (2 ^ 53) with 9007199254740992.
  set (num := Zpos mx * 9007199254740992).
  assert (Z.div_eucl num (Zpos my) = (num / Zpos my, num mod Zpos my)) as ->.
  { unfold Z.div, Z.modulo. now destruct (Z.div_eucl num (Zpos my)). }
  pose proof (new_location_located num (Zpos my) ltac:(lia)) as Hloc.
  cbn [xorb].
  assert (4503599627370496 <= num / Zpos my < 18014398509481984) as Hq.
  { unfold num. split.
    - apply Z.div_le_lower_bound; lia.
    - apply Z.div_lt_upper_bound; lia. }
  assert (JS.emin <= ex - ey - 53 <= 968) as He' by (unfold JS.emin, JS.emax, JS.prec; lia).
  destruct (binary_round_aux_quotient false (num / Zpos my) (ex - ey - 53) num (Zpos my)
              (new_location (Zpos my) (num mod Zpos my)) Hq He' Hloc)
    as (m & n & E & Hn & Hm & Herr).
  exists m, n. split; [exact E|]. split; [exact Hn|]. split; [exact Hm|exact Herr].
Qed.

End Quotient.

Section Means.

(** The quotient of two positive integers below 2^53 is a normal number. *)
Lemma quotient_finite (s n : Z) :
  0 < s < 9007199254740992 -> 0 < n < 9007199254740992 ->
  exists m e, JS.quotient s n = S754_finite false m e.
Proof.
  intros Hs Hn. unfold JS.quotient.
  destruct (of_int_normal s Hs) as (mx & a & -> & Ha & _ & Hmx).
  destruct (of_int_normal n Hn) as (my & b & -> & Hb & _ & Hmy).
  destruct (div_normal mx my (- a) (- b) Hmx Hmy ltac:(lia)) as (m & k & -> & _).
  eauto.
Qed.

Lemma pow2_pos (k : Z) : 0 <= k -> 0 < 2 ^ k.
Proof. intros. apply Z.pow_pos_nonneg; lia. Qed.

(** The quotient of a sum of ratings by their number: a mantissa of 53
    digits at an exponent between -52 and -50, within half a unit of the
    exact quotient. *)
Lemma quotient_of_ratings (s n : Z) :
  0 < n < 1125899906842624 -> n <= s <= 5 * n ->
  exists m k, JS.quotient s n = S754_finite false m (- k)
    /\ 50 <= k <= 52
    /\ 4503599627370496 <= Zpos m < 9007199254740992
    /\ 2 * Z.abs (Zpos m * n - s * 2 ^ k) <= n.
Proof.
  intros Hn Hs. unfold JS.quotient.
  destruct (of_int_normal s ltac:(lia)) as (mx & a & -> & Ha & Emx & Hmx).
  destruct (of_int_normal n ltac:(lia)) as (my & b & -> & Hb & Emy & Hmy).
  destruct (div_normal mx my (- a) (- b) Hmx Hmy ltac:(lia)) as (m & j & -> & Hj & Hm & Herr).
  pose proof (pow2_pos a ltac:(lia)) as Pa. pose proof (pow2_pos b ltac:(lia)) as Pb.
  pose proof (pow2_pos j ltac:(lia)) as Pj.
  (* the two operands are at most three binary places apart *)
  assert (b <= a + 3) as Hba.
  { destruct (Z.le_gt_cases b (a + 3)) as [|Hgt]; [assumption|exfalso].
    assert (2 ^ (a + 4) <= 2 ^ b) as Hpow by (apply Z.pow_le_mono_r; lia).
    rewrite Z.pow_add_r in Hpow by lia. change (2 ^ 4) with 16 in Hpow.
    assert (n * (2 ^ a * 16) <= n * 2 ^ b) by (apply Z.mul_le_mono_nonneg_l; lia).
    assert (s * 2 ^ a <= 5 * n * 2 ^ a) by (apply Z.mul_le_mono_nonneg_r; lia).
    lia. }
  set (k := a - b + 53 - j).
  assert (0 <= k) as Hk0 by (unfold k; lia).
  exists m, k. replace (- a - - b - 53 + j) with (- k) by (unfold k; lia).
  split; [reflexivity|].
  (* the error, freed of the common power of two *)
  assert (2 * Z.abs (Zpos m * n - s * 2 ^ k) <= n) as Herr'.
  { set (P := 2 ^ b * 2 ^ j). assert (0 < P) as HP by (unfold P; lia).
    assert (Zpos m * (Zpos my * 2 ^ j) - Zpos mx * 9007199254740992
            = (Zpos m * n - s * 2 ^ k) * P) as E.
    { rewrite Emx, Emy. unfold P.
      assert (2 ^ a * 9007199254740992 = 2 ^ k * (2 ^ b * 2 ^ j)) as Epow.
      { change 9007199254740992 with (2 ^ 53). rewrite <- !Z.pow_add_r by lia.
        f_equal. unfold k. lia. }
      replace (s * 2 ^ a * 9007199254740992) with (s * (2 ^ a * 9007199254740992)) by lia.
      rewrite Epow. lia. }
    rewrite E, Z.abs_mul, (Z.abs_eq P) in Herr by lia.
    replace (Zpos my * 2 ^ j) with (n * P) in Herr by (rewrite Emy; unfold P; lia).
    apply (Z.mul_le_mono_pos_r _ _ P HP). lia. }
  pose proof (pow2_pos k Hk0) as Pk.
  assert (H1 : n * 2 ^ k <= s * 2 ^ k) by (apply Z.mul_le_mono_nonneg_r; lia).
  assert (H5 : s * 2 ^ k <= 5 * n * 2 ^ k) by (apply Z.mul_le_mono_nonneg_r; lia).
  assert (2 ^ k <= Zpos m) as Hlow.
  { apply (Z.mul_le_mono_pos_l _ _ n); [lia|].
    destruct (Z.le_gt_cases (n * 2 ^ k) (n * Zpos m)) as [|Hgt]; [assumption|exfalso].
    assert (n * Zpos m + n <= n * 2 ^ k).
    { replace (n * Zpos m + n) with (n * (Zpos m + 1)) by lia.
      assert (Zpos m < 2 ^ k) by (apply (Z.mul_lt_mono_pos_l n); lia).
      apply Z.mul_le_mono_nonneg_l; lia. }
    lia. }
  assert (Zpos m <= 5 * 2 ^ k) as Hhigh.
  { apply (Z.mul_le_mono_pos_l _ _ n); [lia|].
    destruct (Z.le_gt_cases (n * Zpos m) (n * (5 * 2 ^ k))) as [|Hgt]; [assumption|exfalso].
    assert (n * (5 * 2 ^ k) + n <= n * Zpos m).
    { replace (n * (5 * 2 ^ k) + n) with (n * (5 * 2 ^ k + 1)) by lia.
      assert (5 * 2 ^ k < Zpos m) by (apply (Z.mul_lt_mono_pos_l n); lia).
      apply Z.mul_le_mono_nonneg_l; lia. }
    lia. }
  split; [|split; [exact Hm|exact Herr']].
  split.
  - destruct (Z.le_gt_cases 50 k) as [|Hlt]; [assumption|exfalso].
    assert (2 ^ k <= 2 ^ 49) as Hp by (apply Z.pow_le_mono_r; lia).
    change (2 ^ 49) with 562949953421312 in Hp. lia.
  - destruct (Z.le_gt_cases k 52) as [|Hgt]; [assumption|exfalso].
    assert (2 ^ 53 <= 2 ^ k) as Hp by (apply Z.pow_le_mono_r; lia).
    change (2 ^ 53) with 9007199254740992 in Hp. lia.
Qed.

End Means.

Section RoundedMeans.
Import Rounding.

Lemma sumRatings_bounds (rows : list MoodEntry) :
  (forall entry, In entry rows -> 1 <= rating entry <= 5) ->
  Z.of_nat (length rows) <= sumRatings rows <= 5 * Z.of_nat (length rows).
Proof.
  induction rows as [|e rows IH]; intros H; [cbn; lia|].
  rewrite sumRatings_cons. cbn [length]. rewrite Nat2Z.inj_succ.
  pose proof (H e (or_introl eq_refl)).
  specialize (IH (fun entry Hin => H entry (or_intror Hin))). lia.
Qed.

(** Rounding the rounded quotient gives what rounding the exact quotient
    gives: the half unit the division may be off by never reaches across a
    half-integer. *)
Lemma round_half_up_quotient (m s n k : Z) :
  1 <= k -> 0 < n < 2 ^ k -> 0 <= s ->
  2 * Z.abs (m * n - s * 2 ^ k) <= n ->
  JS.round_half_up 1 m (- k) = (2 * s + n) / (2 * n).
Proof.
  intros Hk Hn Hs Herr.
  destruct k as [|kp|kp]; try lia. cbn [Z.opp JS.round_half_up].
  assert (2 ^ (Zpos kp + 1) = 2 * 2 ^ Zpos kp) as Hdouble
    by (rewrite Z.pow_add_r by lia; change (2 ^ 1) with 2; lia).
  assert (exists p', 2 ^ Zpos kp = 2 * p') as [p' Hp'].
  { exists (2 ^ (Zpos kp - 1)).
    replace (Zpos kp) with (1 + (Zpos kp - 1)) at 1 by lia.
    rewrite Z.pow_add_r by lia. reflexivity. }
  set (p := 2 ^ Zpos kp) in *.
  pose proof (Z.div_mod (2 * s + n) (2 * n) ltac:(lia)) as E.
  pose proof (Z.mod_pos_bound (2 * s + n) (2 * n) ltac:(lia)) as Hr.
  set (K := (2 * s + n) / (2 * n)) in *. set (r := (2 * s + n) mod (2 * n)) in *.
  set (R := 2 * m + p - 2 * p * K).
  set (X := m * n - s * p) in *.
  assert (R * n = 2 * X + p * r) as ER.
  { replace r with (2 * s + n - 2 * n * K) by lia. unfold R, X. ring. }
  assert (0 <= p * r) by (apply Z.mul_nonneg_nonneg; lia).
  assert (p * r <= p * (2 * n - 1)) by (apply Z.mul_le_mono_nonneg_l; lia).
  assert (0 <= R) as HR0.
  { destruct (Z.le_gt_cases 0 R) as [|Hneg]; [assumption|exfalso].
    assert (R <> -1) by (unfold R; lia).
    assert (R * n <= (-2) * n) by (apply Z.mul_le_mono_nonneg_r; lia). lia. }
  assert (R < 2 * p) as HR1.
  { apply (Z.mul_lt_mono_pos_r n); lia. }
  symmetry. apply (Z.div_unique _ _ K R); [lia|]. unfold R. fold p. lia.
Qed.

(** A mean of ratings between 1 and 5, over fewer than 2^50 rows. *)
Lemma mean_of_ratings (rows : list MoodEntry) :
  rows <> [] -> Z.of_nat (length rows) < 1125899906842624 ->
  (forall entry, In entry rows -> 1 <= rating entry <= 5) ->
  exists m k,
    average rows = Some (S754_finite false m (- k))
    /\ 50 <= k <= 52
    /\ 4503599627370496 <= Zpos m < 9007199254740992
    /\ 2 * Z.abs (Zpos m * Z.of_nat (length rows) - sumRatings rows * 2 ^ k)
       <= Z.of_nat (length rows).
Proof.
  intros Hne Hlen Hr. rewrite (average_Some rows Hne).
  pose proof (sumRatings_bounds rows Hr) as Hs.
  assert (0 < Z.of_nat (length rows)) by (destruct rows; [congruence|cbn [length]; lia]).
  destruct (quotient_of_ratings (sumRatings rows) (Z.of_nat (length rows)) ltac:(lia) Hs)
    as (m & k & -> & Hk & Hm & Herr).
  exists m, k. split; [reflexivity|]. split; [exact Hk|]. split; [exact Hm|exact Herr].
Qed.

Lemma roundedMean_range (rows : list MoodEntry) :
  rows <> [] -> (forall entry, In entry rows -> 1 <= rating entry <= 5) ->
  1 <= roundedMean rows <= 5.
Proof.
  intros Hne Hr. pose proof (sumRatings_bounds rows Hr) as Hs.
  assert (0 < Z.of_nat (length rows)) by (destruct rows; [congruence|cbn [length]; lia]).
  unfold roundedMean. split.
  - apply Z.div_le_lower_bound; lia.
  - apply Z.lt_succ_r. apply Z.div_lt_upper_bound; lia.
Qed.

(** [Math.round] of a mean of ratings is the mean rounded in exact
    arithmetic, a rating itself. *)
Lemma Math_round_mean (rows : list MoodEntry) :
  rows <> [] -> Z.of_nat (length rows) < 1125899906842624 ->
  (forall entry, In entry rows -> 1 <= rating entry <= 5) ->
  exists a, average rows = Some a
    /\ JS.truthy a = true
    /\ JS.Math_round a = JS.of_int (roundedMean rows).
Proof.
  intros Hne Hlen Hr.
  destruct (mean_of_ratings rows Hne Hlen Hr) as (m & k & -> & Hk & Hm & Herr).
  pose proof (roundedMean_range rows Hne Hr) as HK.
  pose proof (sumRatings_bounds rows Hr) as Hs.
  assert (0 < Z.of_nat (length rows)) by (destruct rows; [congruence|cbn [length]; lia]).
  eexists. split; [reflexivity|]. split; [reflexivity|].
  unfold JS.Math_round. cbn [cond_Zopp].
  rewrite (round_half_up_quotient (Zpos m) (sumRatings rows) (Z.of_nat (length rows)) k).
  - fold (roundedMean rows). destruct (Z.eqb_spec (roundedMean rows) 0); [lia|reflexivity].
  - lia.
  - split; [lia|]. assert (2 ^ 50 <= 2 ^ k) by (apply Z.pow_le_mono_r; lia).
    change (2 ^ 50) with 1125899906842624 in *. lia.
  - lia.
  - exact Herr.
Qed.

End RoundedMeans.

(** *** Two means side by side *)


Section Skew.

(** Two means [sd / nd] and [se / ne], each known within half a unit of
    the last place of its mantissa ([ma] at 2^-ka, [mb] at 2^-kb): the
    difference [d] of the mantissas at the finer exponent [kz] is within
    four units of the exact difference of the means. *)
Lemma means_close (ma mb ka kb sd nd se ne : Z) :
  50 <= ka <= 52 -> 50 <= kb <= 52 ->
  0 < nd -> 0 < ne -> nd * ne < 70368744177664 ->
  2 * Z.abs (ma * nd - sd * 2 ^ ka) <= nd ->
  2 * Z.abs (mb * ne - se * 2 ^ kb) <= ne ->
  let kz := Z.max ka kb in
  let d := ma * 2 ^ (kz - ka) - mb * 2 ^ (kz - kb) in
  let x := sd * ne - se * nd in
  0 < nd * ne /\ 8 * (nd * ne) < 2 ^ kz
  /\ Z.abs (d * (nd * ne) - x * 2 ^ kz) <= 4 * (nd * ne).
Proof.
  intros Hka Hkb Hnd Hne Hsmall Ha Hb kz d x.
  set (pa := 2 ^ (kz - ka)) in *. set (pb := 2 ^ (kz - kb)) in *. set (P := 2 ^ kz).
  assert (P = 2 ^ ka * pa) as Epa.
  { unfold P, pa. rewrite <- Z.pow_add_r by (unfold kz; lia). f_equal. lia. }
  assert (P = 2 ^ kb * pb) as Epb.
  { unfold P, pb. rewrite <- Z.pow_add_r by (unfold kz; lia). f_equal. lia. }
  assert (1 <= pa <= 4) as Hpa.
  { unfold pa. change 1 with (2 ^ 0). change 4 with (2 ^ 2).
    split; apply Z.pow_le_mono_r; unfold kz; lia. }
  assert (1 <= pb <= 4) as Hpb.
  { unfold pb. change 1 with (2 ^ 0). change 4 with (2 ^ 2).
    split; apply Z.pow_le_mono_r; unfold kz; lia. }
  assert (1125899906842624 <= P) as HP.
  { unfold P. change 1125899906842624 with (2 ^ 50). apply Z.pow_le_mono_r; unfold kz; lia. }
  set (M := nd * ne) in *.
  assert (0 < M) as HM by (unfold M; apply Z.mul_pos_pos; lia).
  (* the two errors at the common exponent *)
  set (A := ma * pa * nd - sd * P).
  set (B := mb * pb * ne - se * P).
  assert (2 * (Z.abs A * ne) <= 4 * M) as HA.
  { assert (A = (ma * nd - sd * 2 ^ ka) * pa) as -> by (unfold A; rewrite Epa; ring).
    rewrite Z.abs_mul, (Z.abs_eq pa) by lia.
    set (ea := Z.abs (ma * nd - sd * 2 ^ ka)) in *.
    assert (2 * ea * pa <= nd * pa) by (apply Z.mul_le_mono_nonneg_r; lia).
    assert (nd * pa <= nd * 4) by (apply Z.mul_le_mono_nonneg_l; lia).
    assert (2 * ea * pa * ne <= nd * 4 * ne) by (apply Z.mul_le_mono_nonneg_r; lia).
    unfold M. lia. }
  assert (2 * (Z.abs B * nd) <= 4 * M) as HB.
  { assert (B = (mb * ne - se * 2 ^ kb) * pb) as -> by (unfold B; rewrite Epb; ring).
    rewrite Z.abs_mul, (Z.abs_eq pb) by lia.
    set (eb := Z.abs (mb * ne - se * 2 ^ kb)) in *.
    assert (2 * eb * pb <= ne * pb) by (apply Z.mul_le_mono_nonneg_r; lia).
    assert (ne * pb <= ne * 4) by (apply Z.mul_le_mono_nonneg_l; lia).
    assert (2 * eb * pb * nd <= ne * 4 * nd) by (apply Z.mul_le_mono_nonneg_r; lia).
    unfold M. lia. }
  assert (d * M - x * P = A * ne - B * nd) as Eid by (unfold d, x, M, A, B; ring).
  assert (Z.abs (d * M - x * P) <= 4 * M) as Hclose.
  { rewrite Eid.
    assert (Z.abs (A * ne) = Z.abs A * ne) as E1 by (rewrite Z.abs_mul, (Z.abs_eq ne); lia).
    assert (Z.abs (B * nd) = Z.abs B * nd) as E2 by (rewrite Z.abs_mul, (Z.abs_eq nd); lia).
    lia. }
  assert (8 * M < P) as H8 by (clear - HP Hsmall; lia).
  split; [exact HM|]. split; [exact H8|exact Hclose].
Qed.



End Skew.

(** *** One quotient, one binary64 value *)

Lemma odd_factor (j : nat) : forall n q s : Z,
  Z.odd q = true -> n * q = s * 2 ^ Z.of_nat j -> exists n', n = n' * 2 ^ Z.of_nat j.
Proof.
  induction j as [|j IH]; intros n q s Hq Heq.
  - exists n. change (2 ^ Z.of_nat 0) with 1. lia.
  - rewrite Nat2Z.inj_succ, Z.pow_succ_r in * by lia.
    assert (Z.even n = true) as Hn.
    { assert (Z.even (n * q) = true) as He
        by (rewrite Heq, Z.even_mul, (Z.even_mul 2); apply orb_true_r).
      rewrite Z.even_mul in He. apply orb_true_iff in He as [He|He]; [exact He|].
      rewrite <- Z.negb_odd, Hq in He. discriminate. }
    apply Z.even_spec in Hn as (n1 & ->).
    destruct (IH n1 q s Hq) as (n' & ->); [lia|].
    exists n'. lia.
Qed.

(** A quotient of a count below 2^23 is never halfway between two
    neighbouring mantissas. *)
Lemma no_midpoint (s n m k : Z) :
  0 < n < 8388608 -> 50 <= k ->
  2 * Z.abs (m * n - s * 2 ^ k) <> n.
Proof.
  intros Hn Hk Heq.
  assert (exists q, Z.odd q = true /\ n * q = s * 2 ^ Z.of_nat (Z.to_nat (k + 1))) as (q & Hq & Hm).
  { rewrite Z2Nat.id by lia. rewrite (Z.pow_add_r 2 k 1) by lia. change (2 ^ 1) with 2.
    set (p := 2 ^ k) in *.
    destruct (Z.abs_spec (m * n - s * p)) as [[_ Ha]|[_ Ha]]; rewrite Ha in Heq.
    - exists (2 * m - 1). split; [|clear - Heq; lia].
      replace (2 * m - 1) with (1 + 2 * (m - 1)) by lia. now rewrite Z.odd_add_mul_2.
    - exists (2 * m + 1). split; [|clear - Heq; lia].
      replace (2 * m + 1) with (1 + 2 * m) by lia.
      now rewrite Z.odd_add_mul_2. }
  destruct (odd_factor _ n q s Hq Hm) as (n' & Hn').
  rewrite Z2Nat.id in Hn' by lia.
  assert (2 ^ 51 <= 2 ^ (k + 1)) as Hp by (apply Z.pow_le_mono_r; lia).
  change (2 ^ 51) with 2251799813685248 in Hp.
  assert (0 < n') as Hpos.
  { destruct (Z_lt_le_dec 0 n') as [H|H]; [exact H|]. exfalso.
    assert (n' * 2 ^ (k + 1) <= 0 * 2 ^ (k + 1)) by (apply Z.mul_le_mono_nonneg_r; lia). lia. }
  assert (1 * 2 ^ (k + 1) <= n' * 2 ^ (k + 1)) by (apply Z.mul_le_mono_nonneg_r; lia).
  lia.
Qed.

(** Two normal mantissas within half a unit of the same quotient, at
    exponents between -52 and -50, are the same mantissa at the same
    exponent. *)
Lemma rounding_unique (s n m1 k1 m2 k2 : Z) :
  0 < n < 8388608 -> 0 <= s ->
  50 <= k1 <= 52 -> 50 <= k2 <= 52 ->
  4503599627370496 <= m1 < 9007199254740992 ->
  4503599627370496 <= m2 < 9007199254740992 ->
  2 * Z.abs (m1 * n - s * 2 ^ k1) <= n ->
  2 * Z.abs (m2 * n - s * 2 ^ k2) <= n ->
  k1 <= k2 -> k1 = k2 /\ m1 = m2.
Proof.
  intros Hn Hs Hk1 Hk2 Hm1 Hm2 H1 H2 Hle.
  assert (k1 = k2) as ->.
  { destruct (Z.eq_dec k1 k2) as [E|Hne]; [exact E|]. exfalso.
    assert (2 ^ k2 = 2 ^ (k2 - k1 - 1) * 2 * 2 ^ k1) as Hsplit.
    { replace k2 with ((k2 - k1 - 1) + 1 + k1) at 1 by lia.
      rewrite !Z.pow_add_r by lia. reflexivity. }
    assert (1 <= 2 ^ (k2 - k1 - 1)) as Hc by (apply (Z.pow_le_mono_r 2 0); lia).
    set (c := 2 ^ (k2 - k1 - 1)) in *.
    assert (9007199254740992 = 2 ^ (53 - k2) * 2 ^ k2) as H53.
    { rewrite <- Z.pow_add_r by lia. now replace (53 - k2 + k2) with 53 by lia. }
    set (w := 2 ^ (53 - k2) * n - s).
    assert (9007199254740992 * n - s * 2 ^ k2 = w * 2 ^ k2) as Hy by (unfold w; rewrite H53; ring).
    assert (2 ^ 50 <= 2 ^ k2) as Hp by (apply Z.pow_le_mono_r; lia).
    change (2 ^ 50) with 1125899906842624 in Hp.
    assert ((2 * m1 - 1) * n <= 2 * (s * 2 ^ k1)) as Hlow by lia.
    assert (2 * (s * 2 ^ k2) <= (2 * m2 + 1) * n) as Hhigh by lia.
    assert (0 <= s * 2 ^ k1) as Hs1 by (apply Z.mul_nonneg_nonneg; lia).
    assert (2 * (s * 2 ^ k1) * 1 <= 2 * (s * 2 ^ k1) * c) as Hsc
      by (apply Z.mul_le_mono_nonneg_l; lia).
    assert (s * 2 ^ k2 = 2 * (s * 2 ^ k1) * c) as Es by (rewrite Hsplit; lia).
    assert ((2 * m1 - 1) * n <= s * 2 ^ k2) as Hlow' by lia.
    assert (9007199254740991 * n <= (2 * m1 - 1) * n) as Hm1n
      by (apply Z.mul_le_mono_nonneg_r; lia).
    assert ((2 * m2 + 1) * n <= 18014398509481983 * n) as Hm2n
      by (apply Z.mul_le_mono_nonneg_r; lia).
    assert (0 < w * 2 ^ k2 <= n) as Hw by lia.
    assert (0 < w) as Hwpos.
    { destruct (Z_lt_le_dec 0 w) as [H|H]; [exact H|]. exfalso.
      assert (w * 2 ^ k2 <= 0 * 2 ^ k2) by (apply Z.mul_le_mono_nonneg_r; lia). lia. }
    assert (1 * 2 ^ k2 <= w * 2 ^ k2) by (apply Z.mul_le_mono_nonneg_r; lia).
    lia. }
  split; [reflexivity|].
  pose proof (no_midpoint s n m1 k2 Hn ltac:(lia)) as N1.
  pose proof (no_midpoint s n m2 k2 Hn ltac:(lia)) as N2.
  set (t := s * 2 ^ k2) in *.
  assert (Z.abs ((m1 - m2) * n) < n) as Habs by lia.
  destruct (Z.eq_dec m1 m2) as [E|Hne]; [exact E|]. exfalso.
  assert (1 <= Z.abs (m1 - m2)) by lia.
  rewrite Z.abs_mul, (Z.abs_eq n) in Habs by lia.
  assert (1 * n <= Z.abs (m1 - m2) * n) by (apply Z.mul_le_mono_nonneg_r; lia).
  lia.
Qed.

(** *** The order of two means *)

Lemma sign_of_close (d x M P : Z) :
  0 < M -> 8 * M < P -> Z.abs (d * M - x * P) <= 4 * M -> x <> 0 -> (d < 0 <-> x < 0).
Proof.
  intros HM HP Hclose Hx.
  destruct (Z_lt_le_dec x 0) as [Hneg|Hpos].
  - assert (x * P <= (- 1) * P) by (apply Z.mul_le_mono_nonneg_r; lia).
    assert (d * M < 0 * M) as Hd by lia.
    apply Z.mul_lt_mono_pos_r in Hd; [tauto|exact HM].
  - assert (1 * P <= x * P) by (apply Z.mul_le_mono_nonneg_r; lia).
    assert (0 * M < d * M) as Hd by lia.
    apply Z.mul_lt_mono_pos_r in Hd; [lia|exact HM].
Qed.

(** The bound on a mantissa speaks of the quotient, not of the fraction
    that names it. *)
Lemma same_quotient (sa na sb nb m k : Z) :
  0 < na -> 0 < nb -> sa * nb = sb * na ->
  2 * Z.abs (m * na - sa * 2 ^ k) <= na ->
  2 * Z.abs (m * nb - sb * 2 ^ k) <= nb.
Proof.
  intros Hna Hnb Heq Ha. set (p := 2 ^ k) in *.
  assert (na * (m * nb - sb * p) = nb * (m * na - sa * p)) as E.
  { transitivity (m * na * nb - (sb * na) * p); [ring|]. rewrite <- Heq. ring. }
  assert (na * (2 * Z.abs (m * nb - sb * p)) <= na * nb) as Hle.
  { assert (na * Z.abs (m * nb - sb * p) = nb * Z.abs (m * na - sa * p)) as E'.
    { rewrite <- (Z.abs_eq na) at 1 by lia. rewrite <- (Z.abs_eq nb) at 2 by lia.
      rewrite <- !Z.abs_mul. now rewrite E. }
    assert (nb * (2 * Z.abs (m * na - sa * p)) <= nb * na)
      by (apply Z.mul_le_mono_nonneg_l; lia).
    lia. }
  apply Z.mul_le_mono_pos_l in Hle; [exact Hle|exact Hna].
Qed.

(** The binary64 means of two groups of ratings are in the order of the
    exact means, and equal when these are. *)
Lemma order_of_means (a b : list MoodEntry) :
  a <> [] -> b <> [] ->
  Z.of_nat (length a) < 8388608 -> Z.of_nat (length b) < 8388608 ->
  (forall entry, In entry a -> 1 <= rating entry <= 5) ->
  (forall entry, In entry b -> 1 <= rating entry <= 5) ->
  exists fa fb, average a = Some fa /\ average b = Some fb
    /\ JS.truthy fa = true /\ JS.truthy fb = true
    /\ (JS.xlt (JS.value fa) (JS.value fb) <-> Spec.higherMean b a).
Proof.
  intros Ha Hb Hla Hlb Hra Hrb.
  assert (0 < Z.of_nat (length a)) as Hna by (destruct a; [congruence|cbn [length]; lia]).
  assert (0 < Z.of_nat (length b)) as Hnb by (destruct b; [congruence|cbn [length]; lia]).
  pose proof (sumRatings_bounds a Hra) as Hsa. pose proof (sumRatings_bounds b Hrb) as Hsb.
  destruct (mean_of_ratings a Ha ltac:(lia) Hra) as (ma & ka & Ea & Hka & Hma & Herra).
  destruct (mean_of_ratings b Hb ltac:(lia) Hrb) as (mb & kb & Eb & Hkb & Hmb & Herrb).
  exists (S754_finite false ma (- ka)), (S754_finite false mb (- kb)).
  split; [exact Ea|]. split; [exact Eb|]. split; [reflexivity|]. split; [reflexivity|].
  unfold Spec.higherMean, Spec.crossDifference.
  set (sa := sumRatings a) in *. set (na := Z.of_nat (length a)) in *.
  set (sb := sumRatings b) in *. set (nb := Z.of_nat (length b)) in *.
  assert (na * nb < 70368744177664) as Hsmall.
  { assert (na * nb <= 8388607 * 8388607) by (apply Z.mul_le_mono_nonneg; lia). lia. }
  pose proof (means_close (Zpos ma) (Zpos mb) ka kb sa na sb nb Hka Hkb Hna Hnb Hsmall Herra Herrb)
    as Hclose. cbv zeta in Hclose. destruct Hclose as (HM & H8 & Hclose).
  set (kz := Z.max ka kb) in *.
  set (d := Zpos ma * 2 ^ (kz - ka) - Zpos mb * 2 ^ (kz - kb)) in *.
  assert (JS.xlt (JS.value (S754_finite false ma (- ka))) (JS.value (S754_finite false mb (- kb)))
          <-> d < 0) as ->.
  { cbn [JS.value JS.xlt cond_Zopp].
    assert (forall k, k <= kz <= 52 -> 2 ^ (- k - JS.emin) = 2 ^ (kz - k) * 2 ^ (- kz - JS.emin))
      as Hscale.
    { intros k Hk. rewrite <- Z.pow_add_r.
      - f_equal. lia.
      - lia.
      - unfold JS.emin, JS.emax, JS.prec. lia. }
    rewrite (Hscale ka), (Hscale kb) by (unfold kz; lia).
    assert (0 < 2 ^ (- kz - JS.emin)) as HE
      by (apply Z.pow_pos_nonneg; unfold kz, JS.emin, JS.emax, JS.prec; lia).
    set (E := 2 ^ (- kz - JS.emin)) in *.
    set (pa := Zpos ma * 2 ^ (kz - ka)) in *. set (pb := Zpos mb * 2 ^ (kz - kb)) in *.
    rewrite !Z.mul_assoc. fold pa pb.
    split.
    - intros H. apply Z.mul_lt_mono_pos_r in H; [lia|exact HE].
    - intros H. apply Z.mul_lt_mono_pos_r; [exact HE|lia]. }
  destruct (Z.eq_dec (sa * nb - sb * na) 0) as [Hx|Hx].
  - assert (sa * nb = sb * na) as Heq by lia.
    pose proof (same_quotient sa na sb nb (Zpos ma) ka Hna Hnb Heq Herra) as Herra'.
    assert (ka = kb /\ Zpos ma = Zpos mb) as (Ek & Em).
    { destruct (Z.le_ge_cases ka kb) as [Hle|Hge].
      - apply (rounding_unique sb nb (Zpos ma) ka (Zpos mb) kb); (exact Hle || lia || assumption).
      - assert (kb = ka /\ Zpos mb = Zpos ma) as (E1 & E2); [|split; congruence].
        apply (rounding_unique sb nb (Zpos mb) kb (Zpos ma) ka); (lia || assumption). }
    assert (d = 0) as Hd.
    { unfold d. subst kb. rewrite Em. lia. }
    rewrite Hd. lia.
  - rewrite (sign_of_close d (sa * nb - sb * na) (na * nb) (2 ^ kz) HM H8 Hclose Hx). lia.
Qed.

(** ** The head of a sorted array *)

Section SortHead.
Context {A : Type} (before : A -> A -> bool) (ok : A -> Prop) (R : A -> A -> Prop).
Hypothesis before_R : forall a b, ok a -> ok b -> (before a b = true <-> R a b).
Hypothesis R_trans : forall a b c, R a b -> R b c -> R a c.
Hypothesis R_cotrans : forall a b c, R a c -> R a b \/ R b c.

Lemma insert_head (x : A) (l : list A) :
  hd_error (JS.insert before x l)
  = Some (match l with
          | [] => x
          | y :: _ => if before x y then y else x
          end).
Proof. destruct l as [|y l]; simpl; [reflexivity|]. now destruct (before x y). Qed.

Lemma sort_nil (l : list A) : JS.sort before l = [] -> l = [].
Proof.
  destruct l as [|x l]; [reflexivity|]. simpl. intros H.
  pose proof (insert_head x (JS.sort before l)) as Hh. rewrite H in Hh. discriminate.
Qed.

Lemma sort_head_first_best (l : list A) (h : A) :
  Forall ok l -> hd_error (JS.sort before l) = Some h -> Spec.firstBest R l h.
Proof using before_R R_trans R_cotrans.
  revert h. induction l as [|x l IH]; intros h Hok; [discriminate|].
  apply List.Forall_cons_iff in Hok as [Hx Hok].
  simpl. rewrite insert_head. intros [= <-].
  destruct (JS.sort before l) as [|y s] eqn:Hs.
  - apply sort_nil in Hs as ->. exists [], []. repeat split; constructor.
  - destruct (IH y Hok eq_refl) as (l1 & l2 & -> & H1 & H2).
    assert (Hy : ok y) by (rewrite List.Forall_forall in Hok; apply Hok, in_elt).
    destruct (before x y) eqn:Hb.
    + exists (x :: l1), l2. repeat split; [|assumption].
      constructor; [now apply before_R | assumption].
    + assert (Hxy : ~ R x y) by (rewrite <- before_R by assumption; congruence).
      exists [], (l1 ++ y :: l2). repeat split; [constructor|].
      apply Forall_app. split; [|constructor].
      * rewrite List.Forall_forall in *. intros b Hb1 Hxb. apply Hxy.
        eapply R_trans; [exact Hxb | now apply H1].
      * assumption.
      * rewrite List.Forall_forall in *. intros b Hb2 Hxb.
        destruct (R_cotrans x y b Hxb) as [H|H]; [contradiction | now apply (H2 b)].
Qed.

Lemma sort_head_exists (l : list A) :
  l <> [] -> exists h, hd_error (JS.sort before l) = Some h.
Proof.
  destruct l as [|x l]; [contradiction|]. intros _. simpl. rewrite insert_head. eauto.
Qed.

(** A list has at most one first best element (at one position). *)
Lemma first_best_unique (l : list A) (h h' : A) :
  (forall a, ~ R a a) -> Spec.firstBest R l h -> Spec.firstBest R l h' -> h = h'.
Proof.
  intros Hirr (l1 & l2 & -> & H1 & H2) (l1' & l2' & Heq & H1' & H2').
  rewrite List.Forall_forall in *.
  revert l1' Heq H1'. induction l1 as [|a l1 IH]; intros l1' Heq H1'.
  - destruct l1' as [|a' l1']; simpl in Heq.
    + now injection Heq.
    + injection Heq as <- ->. exfalso.
      apply (H2 h'); [apply in_elt | apply H1'; now left].
  - destruct l1' as [|a' l1']; simpl in Heq.
    + injection Heq as <- <-. exfalso.
      apply (H2' h); [apply in_elt | apply H1; now left].
    + injection Heq as <- Heq. apply (IH (fun x Hx => H1 x (or_intror Hx)) l1' Heq).
      intros x Hx. apply H1'. now right.
Qed.

End SortHead.

Lemma sort_head_iff {A : Type} (before : A -> A -> bool) (ok : A -> Prop)
    (R : A -> A -> Prop) (l : list A) (h : A) :
  (forall a b, ok a -> ok b -> (before a b = true <-> R a b)) ->
  (forall a b c, R a b -> R b c -> R a c) ->
  (forall a b c, R a c -> R a b \/ R b c) ->
  (forall a, ~ R a a) ->
  Forall ok l ->
  (hd_error (JS.sort before l) = Some h <-> Spec.firstBest R l h).
Proof.
  intros HbR Ht Hc Hi Hok. split.
  - now apply (sort_head_first_best before ok R HbR Ht Hc).
  - intros Hh. assert (l <> []) as Hne.
    { destruct Hh as (l1 & l2 & -> & _). now destruct l1. }
    destruct (sort_head_exists before l Hne) as (h' & Hh').
    rewrite Hh'. f_equal.
    apply (first_best_unique R l h' h Hi); [|assumption].
    now apply (sort_head_first_best before ok R HbR Ht Hc).
Qed.

(** ** Peak day and dip day *)

Lemma filter_length_le {A : Type} (f : A -> bool) (l : list A) :
  (length (List.filter f l) <= length l)%nat.
Proof.
  induction l as [|x l IH]; [apply le_n|]. simpl. destruct (f x); simpl; lia.
Qed.

Section PeakAndDip.
Import Analytics.
Context (zone : TimeZone).

Lemma bucket_mood_ordinary (entries : list MoodEntry) (name : string) :
  JS.ordinary (mood (bucket zone entries name)).
Proof.
  unfold mood, bucket. cbn [averageMood]. unfold average.
  destruct (0 <? _).
  - apply or_zero_ordinary, div_bounded.
  - split; [discriminate | exact I].
Qed.

Lemma withData_ordinary (entries : list MoodEntry) :
  Forall (fun b => JS.ordinary (mood b)) (List.filter hasData (entriesByDay zone entries)).
Proof.
  apply List.Forall_forall. intros b Hb. apply filter_In in Hb as [Hb _].
  apply List.in_map_iff in Hb as (name & <- & _). apply bucket_mood_ordinary.
Qed.

Lemma highestMoodDay_firstMaximum (entries : list MoodEntry) (h : DayBucket) :
  highestMoodDay zone entries = Some h
  <-> Spec.firstMaximum moodValue (List.filter hasData (entriesByDay zone entries)) h.
Proof.
  unfold highestMoodDay, Spec.firstMaximum.
  apply (sort_head_iff descending (fun b => JS.ordinary (mood b))).
  - intros a b Ha Hb. unfold descending, moodValue. now apply sub_positive_iff.
  - intros a b c. apply xlt_trans.
  - intros a b c. apply xlt_cotrans.
  - intros a. apply xlt_irrefl.
  - apply withData_ordinary.
Qed.

Lemma lowestMoodDay_firstMinimum (entries : list MoodEntry) (h : DayBucket) :
  lowestMoodDay zone entries = Some h
  <-> Spec.firstMinimum moodValue (List.filter hasData (entriesByDay zone entries)) h.
Proof.
  unfold lowestMoodDay, Spec.firstMinimum.
  apply (sort_head_iff ascending (fun b => JS.ordinary (mood b))).
  - intros a b Ha Hb. unfold ascending, moodValue. now apply sub_positive_iff.
  - intros a b c Hab Hbc. exact (xlt_trans _ _ _ Hbc Hab).
  - intros a b c Hac. destruct (xlt_cotrans _ (moodValue b) _ Hac); auto.
  - intros a. apply xlt_irrefl.
  - apply withData_ordinary.
Qed.

Lemma entriesByDay_days (entries : list MoodEntry) :
  map day (entriesByDay zone entries) = daysOfWeek.
Proof. reflexivity. Qed.

Lemma selected_iff_data (entries : list MoodEntry) :
  (highestMoodDay zone entries = None <-> List.filter hasData (entriesByDay zone entries) = [])
  /\ (lowestMoodDay zone entries = None <-> List.filter hasData (entriesByDay zone entries) = []).
Proof.
  unfold highestMoodDay, lowestMoodDay.
  split; (split; [intros H; destruct (List.filter _ _) as [|b l] eqn:Hf; [reflexivity|];
                  simpl in H; rewrite insert_head in H; discriminate
                 | intros ->; reflexivity]).
Qed.

Lemma peak_pattern_names_selected_day (entries : list MoodEntry) (h : DayBucket) (a : spec_float) :
  highestMoodDay zone entries = Some h -> averageMood h = Some a -> JS.truthy a = true ->
  pushIfMood (highestMoodDay zone entries) peakDay = [peakDay (day h) a].
Proof. intros -> Ha Ht. simpl. now rewrite Ha, Ht. Qed.

Lemma dip_pattern_names_selected_day (entries : list MoodEntry) (h : DayBucket) (a : spec_float) :
  lowestMoodDay zone entries = Some h -> averageMood h = Some a -> JS.truthy a = true ->
  pushIfMood (lowestMoodDay zone entries) dipDay = [dipDay (day h) a].
Proof. intros -> Ha Ht. simpl. now rewrite Ha, Ht. Qed.

Lemma getDay_range (date : Z) : 0 <= getDay zone date < 7.
Proof. unfold getDay, WeekDay. apply Z.mod_pos_bound. lia. Qed.

Lemma dayName_In (entry : MoodEntry) : In (dayName zone entry) daysOfWeek.
Proof.
  unfold dayName. pose proof (getDay_range (date entry)) as Hr.
  apply nth_In. change (length daysOfWeek) with 7%nat. lia.
Qed.

(** A bucket holds the entries that fall on its day, its mean is their
    average, and it has data exactly when it holds an entry. *)
Lemma bucket_contents (entries : list MoodEntry) (b : DayBucket) :
  In b (entriesByDay zone entries) ->
  In (day b) daysOfWeek
  /\ (forall entry, In entry (Analytics.entries b)
        <-> In entry entries /\ dayName zone entry = day b)
  /\ averageMood b = average (Analytics.entries b)
  /\ (hasData b = true <-> Analytics.entries b <> []).
Proof.
  intros Hb. apply List.in_map_iff in Hb as (name & <- & Hname).
  unfold bucket. cbn [day Analytics.entries averageMood]. cbv zeta.
  split; [exact Hname|]. split; [|split; [reflexivity|]].
  - intros entry. rewrite filter_In, String.eqb_eq. tauto.
  - unfold hasData. cbn [averageMood].
    destruct (average _) eqn:Ha.
    + split; [|reflexivity]. intros _ Hnil. apply average_None in Hnil. congruence.
    + apply average_None in Ha. rewrite Ha. split; [discriminate|congruence].
Qed.

(** Every entry lies in a bucket that has data. *)
Lemma entry_in_a_bucket (entries : list MoodEntry) (entry : MoodEntry) :
  In entry entries ->
  exists b, In b (List.filter hasData (entriesByDay zone entries))
    /\ day b = dayName zone entry /\ In entry (Analytics.entries b).
Proof.
  intros Hin. exists (bucket zone entries (dayName zone entry)).
  assert (In (bucket zone entries (dayName zone entry)) (entriesByDay zone entries)) as Hb
    by (apply in_map, dayName_In).
  destruct (bucket_contents entries _ Hb) as (_ & Hentries & _ & Hdata).
  assert (In entry (Analytics.entries (bucket zone entries (dayName zone entry)))) as He
    by (apply Hentries; split; [exact Hin|reflexivity]).
  split; [|split; [reflexivity|exact He]].
  apply filter_In. split; [exact Hb|]. apply Hdata. intros Hnil. now rewrite Hnil in He.
Qed.

Lemma selected_has_entries (entries : list MoodEntry) (h : DayBucket) :
  highestMoodDay zone entries = Some h \/ lowestMoodDay zone entries = Some h ->
  In h (entriesByDay zone entries) /\ hasData h = true /\ Analytics.entries h <> [].
Proof.
  intros Hsel.
  assert (In h (List.filter hasData (entriesByDay zone entries))) as Hin.
  { destruct Hsel as [Hh|Hl].
    - apply highestMoodDay_firstMaximum in Hh as (l1 & l2 & -> & _).
      apply in_or_app. right. now left.
    - apply lowestMoodDay_firstMinimum in Hl as (l1 & l2 & -> & _).
      apply in_or_app. right. now left. }
  apply filter_In in Hin as (Hb & Hd). split; [exact Hb|]. split; [exact Hd|].
  now apply (bucket_contents entries h Hb).
Qed.

Lemma selected_when_entries (entries : list MoodEntry) :
  entries <> [] ->
  (exists h, highestMoodDay zone entries = Some h)
  /\ (exists l, lowestMoodDay zone entries = Some l).
Proof.
  intros Hne. destruct entries as [|entry rest] eqn:He; [congruence|]. rewrite <- He.
  destruct (entry_in_a_bucket entries entry) as (b & Hb & _); [rewrite He; now left|].
  assert (List.filter hasData (entriesByDay zone entries) <> []) as Hdata
    by (intros Hnil; now rewrite Hnil in Hb).
  destruct (selected_iff_data entries) as (Hh & Hl).
  split.
  - destruct (highestMoodDay zone entries) as [h|]; [now exists h|].
    exfalso. apply Hdata. now apply Hh.
  - destruct (lowestMoodDay zone entries) as [l|]; [now exists l|].
    exfalso. apply Hdata. now apply Hl.
Qed.

(** The mean of a selected bucket of ratings 1..5 is a number that is not
    zero, so the pattern is pushed. *)
Lemma selected_mean_truthy (entries : list MoodEntry) (h : DayBucket) :
  (forall entry, In entry entries -> 1 <= rating entry <= 5) ->
  Z.of_nat (length entries) < 1125899906842624 ->
  highestMoodDay zone entries = Some h \/ lowestMoodDay zone entries = Some h ->
  exists a, averageMood h = Some a /\ JS.truthy a = true /\ moodValue h = JS.value a.
Proof.
  intros Hr Hlen Hsel.
  destruct (selected_has_entries entries h Hsel) as (Hb & _ & Hne).
  destruct (bucket_contents entries h Hb) as (_ & Hentries & Hmean & _).
  assert (Z.of_nat (length (Analytics.entries h)) < 1125899906842624) as Hlen'.
  { apply List.in_map_iff in Hb as (name & <- & _). unfold bucket.
    cbn [Analytics.entries]. cbv zeta.
    pose proof (filter_length_le (fun entry => String.eqb (dayName zone entry) name) entries).
    lia. }
  destruct (Math_round_mean (Analytics.entries h) Hne Hlen') as (a & Ha & Ht & _).
  { intros entry Hin. apply Hr. now apply Hentries in Hin. }
  exists a. rewrite Hmean. split; [exact Ha|]. split; [exact Ht|].
  unfold moodValue, mood, JS.or_zero. now rewrite Hmean, Ha, Ht.
Qed.

Lemma firstBest_ext {A : Type} (R R' : A -> A -> Prop) (l : list A) (h : A) :
  (forall a b, In a l -> In b l -> (R a b <-> R' a b)) ->
  Spec.firstBest R l h <-> Spec.firstBest R' l h.
Proof.
  intros Hext.
  assert (forall R1 R2 : A -> A -> Prop,
            (forall a b, In a l -> In b l -> (R1 a b <-> R2 a b)) ->
            Spec.firstBest R1 l h -> Spec.firstBest R2 l h) as Hone.
  { intros R1 R2 H12 (l1 & l2 & El & Hbefore & Hafter). exists l1, l2.
    assert (In h l) as Hh by (rewrite El; apply in_elt).
    split; [exact El|]. split.
    - apply List.Forall_forall. intros a Ha.
      apply (H12 a h); [rewrite El; apply in_or_app; now left | exact Hh |].
      now apply (proj1 (List.Forall_forall _ _) Hbefore).
    - apply List.Forall_forall. intros b Hb Hhb.
      apply (proj1 (List.Forall_forall _ _) Hafter b Hb).
      apply (H12 h b); [exact Hh | rewrite El; apply in_or_app; right; now right | exact Hhb]. }
  split; apply Hone; [exact Hext|]. intros a b Ha Hb. symmetry. now apply Hext.
Qed.

(** On ratings 1..5 the buckets that have data are ranked by their exact
    means. *)
Lemma bucket_order (entries : list MoodEntry) (a b : DayBucket) :
  (forall entry, In entry entries -> 1 <= rating entry <= 5) ->
  Z.of_nat (length entries) < 8388608 ->
  In a (List.filter hasData (entriesByDay zone entries)) ->
  In b (List.filter hasData (entriesByDay zone entries)) ->
  (JS.xlt (moodValue a) (moodValue b)
   <-> Spec.higherMean (Analytics.entries b) (Analytics.entries a)).
Proof.
  intros Hr Hlen Ha Hb.
  assert (forall c, In c (List.filter hasData (entriesByDay zone entries)) ->
            Analytics.entries c <> []
            /\ Z.of_nat (length (Analytics.entries c)) < 8388608
            /\ (forall entry, In entry (Analytics.entries c) -> 1 <= rating entry <= 5)
            /\ averageMood c = average (Analytics.entries c)) as Hbucket.
  { intros c Hc. apply filter_In in Hc as (Hc & Hdata).
    destruct (bucket_contents entries c Hc) as (_ & Hentries & Hmean & Hne).
    split; [now apply Hne|]. split; [|split; [|exact Hmean]].
    - apply List.in_map_iff in Hc as (name & <- & _). unfold bucket.
      cbn [Analytics.entries]. cbv zeta.
      pose proof (filter_length_le (fun entry => String.eqb (dayName zone entry) name) entries).
      lia.
    - intros entry Hin. apply Hr. now apply Hentries in Hin. }
  destruct (Hbucket a Ha) as (Hna & Hla & Hra & Hma).
  destruct (Hbucket b Hb) as (Hnb & Hlb & Hrb & Hmb).
  destruct (order_of_means (Analytics.entries a) (Analytics.entries b) Hna Hnb Hla Hlb Hra Hrb)
    as (fa & fb & Ea & Eb & Hta & Htb & Horder).
  unfold moodValue, mood, JS.or_zero. now rewrite Hma, Hmb, Ea, Eb, Hta, Htb.
Qed.

Lemma selected_by_exact_means (entries : list MoodEntry) :
  (forall entry, In entry entries -> 1 <= rating entry <= 5) ->
  Z.of_nat (length entries) < 8388608 ->
  (forall h, highestMoodDay zone entries = Some h
     <-> Spec.peakBucket (List.filter hasData (entriesByDay zone entries)) h)
  /\ (forall l, lowestMoodDay zone entries = Some l
        <-> Spec.dipBucket (List.filter hasData (entriesByDay zone entries)) l).
Proof.
  intros Hr Hlen. split.
  - intros h. rewrite highestMoodDay_firstMaximum. unfold Spec.firstMaximum, Spec.peakBucket.
    apply firstBest_ext. intros a b Ha Hb. now apply (bucket_order entries).
  - intros l. rewrite lowestMoodDay_firstMinimum. unfold Spec.firstMinimum, Spec.dipBucket.
    apply firstBest_ext. intros a b Ha Hb. now apply (bucket_order entries).
Qed.

(** C5.  The buckets are the seven weekdays, Sunday first; each holds the
    entries that fall on its day, its mean is the average of these, and it
    has data exactly when it holds an entry, so every entry lies in a
    bucket that has data.  The bucket the Peak Day rule selects is, among
    the buckets that have data, the one with the maximum mean, and the
    first of them in the list when several have it: every bucket with data
    before it has a strictly smaller value, none after it has a larger
    one; this determines it.  The Dip Day rule selects the first bucket
    with the minimum in the same way.  A bucket is selected as soon as one
    has data, that is as soon as there is an entry, and a selected bucket
    is one of the seven and holds an entry.  On ratings 1..5 (and fewer
    than 2^23 entries) the binary64 means rank the buckets as the exact
    means of their entries do, so that the two rules select the first
    bucket of the highest and of the lowest exact mean; the mean of a
    selected bucket is a number other than zero, the value it is ranked by,
    and the pattern pushed is the one Peak Day (Dip Day) pattern whose day
    is the selected bucket's day and whose description names that day and
    its mean printed with one decimal.  (The value of a bucket is that of
    its mean, a bucket without data or with a mean that is not truthy
    counting as 0.) *)
Theorem peak_and_dip_day_are_first_extremes (entries : list MoodEntry) :
  map day (entriesByDay zone entries) = daysOfWeek
  /\ (forall h, highestMoodDay zone entries = Some h
        <-> Spec.firstMaximum moodValue (List.filter hasData (entriesByDay zone entries)) h)
  /\ (forall h, lowestMoodDay zone entries = Some h
        <-> Spec.firstMinimum moodValue (List.filter hasData (entriesByDay zone entries)) h)
  /\ (forall b a, averageMood b = Some a -> JS.truthy a = true -> moodValue b = JS.value a)
  /\ (highestMoodDay zone entries = None <-> List.filter hasData (entriesByDay zone entries) = [])
  /\ (lowestMoodDay zone entries = None <-> List.filter hasData (entriesByDay zone entries) = [])
  /\ (forall h a, highestMoodDay zone entries = Some h -> averageMood h = Some a ->
        JS.truthy a = true ->
        pushIfMood (highestMoodDay zone entries) peakDay = [peakDay (day h) a])
  /\ (forall h a, lowestMoodDay zone entries = Some h -> averageMood h = Some a ->
        JS.truthy a = true ->
        pushIfMood (lowestMoodDay zone entries) dipDay = [dipDay (day h) a])
  /\ (forall b, In b (entriesByDay zone entries) ->
        In (day b) daysOfWeek
        /\ (forall entry, In entry (Analytics.entries b)
              <-> In entry entries /\ dayName zone entry = day b)
        /\ averageMood b = average (Analytics.entries b)
        /\ (hasData b = true <-> Analytics.entries b <> []))
  /\ (forall entry, In entry entries ->
        exists b, In b (List.filter hasData (entriesByDay zone entries))
          /\ day b = dayName zone entry /\ In entry (Analytics.entries b))
  /\ (entries <> [] ->
      (exists h, highestMoodDay zone entries = Some h)
      /\ (exists l, lowestMoodDay zone entries = Some l))
  /\ (forall h, highestMoodDay zone entries = Some h \/ lowestMoodDay zone entries = Some h ->
        In h (entriesByDay zone entries) /\ hasData h = true /\ Analytics.entries h <> [])
  /\ ((forall entry, In entry entries -> 1 <= rating entry <= 5) ->
      Z.of_nat (length entries) < 8388608 ->
      (forall h, highestMoodDay zone entries = Some h
         <-> Spec.peakBucket (List.filter hasData (entriesByDay zone entries)) h)
      /\ (forall l, lowestMoodDay zone entries = Some l
            <-> Spec.dipBucket (List.filter hasData (entriesByDay zone entries)) l)
      /\ (forall h, highestMoodDay zone entries = Some h ->
         exists a, averageMood h = Some a /\ JS.truthy a = true /\ moodValue h = JS.value a
           /\ pushIfMood (highestMoodDay zone entries) peakDay
              = [{| pattern_day := day h;
                    pattern := "Peak Day";
                    description := "You tend to feel your best on " ++ day h
                      ++ "s with an average mood of " ++ JS.toFixed1 a ++ "." |}]%string)
      /\ (forall l, lowestMoodDay zone entries = Some l ->
            exists a, averageMood l = Some a /\ JS.truthy a = true /\ moodValue l = JS.value a
              /\ pushIfMood (lowestMoodDay zone entries) dipDay
                 = [{| pattern_day := day l;
                       pattern := "Dip Day";
                       description := "You tend to experience lower moods on " ++ day l
                         ++ "s with an average mood of " ++ JS.toFixed1 a ++ "." |}]%string)).
Proof.
  split; [apply entriesByDay_days|].
  split; [apply highestMoodDay_firstMaximum|].
  split; [apply lowestMoodDay_firstMinimum|].
  split; [intros b a Ha Ht; unfold moodValue, mood, JS.or_zero; now rewrite Ha, Ht|].
  split; [apply selected_iff_data|].
  split; [apply selected_iff_data|].
  split; [apply peak_pattern_names_selected_day|].
  split; [apply dip_pattern_names_selected_day|].
  split; [apply bucket_contents|].
  split; [apply entry_in_a_bucket|].
  split; [apply selected_when_entries|].
  split; [apply selected_has_entries|].
  intros Hr Hlen.
  split; [now apply selected_by_exact_means|]. split; [now apply selected_by_exact_means|].
  assert (Z.of_nat (length entries) < 1125899906842624) as Hlen' by lia. split.
  - intros h Hh.
    destruct (selected_mean_truthy entries h Hr Hlen' (or_introl Hh)) as (a & Ha & Ht & Hv).
    exists a. split; [exact Ha|]. split; [exact Ht|]. split; [exact Hv|].
    now apply peak_pattern_names_selected_day.
  - intros l Hl.
    destruct (selected_mean_truthy entries l Hr Hlen' (or_intror Hl)) as (a & Ha & Ht & Hv).
    exists a. split; [exact Ha|]. split; [exact Ht|]. split; [exact Hv|].
    now apply dip_pattern_names_selected_day.
Qed.

(** Saturday and Sunday both average 5, Monday to Wednesday all average 1:
    the peak is Sunday and the dip is Monday, the first of each tie in the
    Sunday-first order. *)
Example ties_go_to_the_first_weekday :
  option_map day (highestMoodDay UTC Sample.weekendFives) = Some "Sunday"%string
  /\ option_map day (lowestMoodDay UTC Sample.weekendFives) = Some "Monday"%string
  /\ map pattern_day (pushIfMood (highestMoodDay UTC Sample.weekendFives) peakDay
                      ++ pushIfMood (lowestMoodDay UTC Sample.weekendFives) dipDay)
     = ["Sunday"; "Monday"]%string.
Proof. now vm_compute. Qed.

End PeakAndDip.

Lemma peak_and_dip_day_are_first_extremes_witness :
  Analytics.pushIfMood (Analytics.highestMoodDay UTC Sample.weekendFives) Analytics.peakDay
  = [{| Analytics.pattern_day := "Sunday";
        Analytics.pattern := "Peak Day";
        Analytics.description
          := "You tend to feel your best on Sundays with an average mood of 5.0." |}]%string
  /\ Analytics.pushIfMood (Analytics.lowestMoodDay UTC Sample.weekendFives) Analytics.dipDay
     = [{| Analytics.pattern_day := "Monday";
           Analytics.pattern := "Dip Day";
           Analytics.description
             := "You tend to experience lower moods on Mondays with an average mood of 1.0." |}]%string.
Proof.
  pose proof (peak_and_dip_day_are_first_extremes UTC Sample.weekendFives)
    as (_ & _ & _ & _ & _ & _ & _ & _ & _ & _ & _ & _ & Hvalid).
  destruct Hvalid as (_ & _ & Hpeak & Hdip).
  - intros entry Hin. vm_compute in Hin. intuition (subst; vm_compute; intuition discriminate).
  - reflexivity.
  - split.
    + destruct (Analytics.highestMoodDay UTC Sample.weekendFives) as [h|] eqn:Hh;
        [|vm_compute in Hh; discriminate].
      destruct (Hpeak h eq_refl) as (a & Ha & _ & _ & Hpush). rewrite Hpush.
      vm_compute in Hh. injection Hh as <-. injection Ha as <-. reflexivity.
    + destruct (Analytics.lowestMoodDay UTC Sample.weekendFives) as [l|] eqn:Hl;
        [|vm_compute in Hl; discriminate].
      destruct (Hdip l eq_refl) as (a & Ha & _ & _ & Hpush). rewrite Hpush.
      vm_compute in Hl. injection Hl as <-. injection Ha as <-. reflexivity.
Defined.

(** ** Empty buckets *)

Section EmptyBuckets.
Import Analytics.
Context (zone : TimeZone).

(** Every entry lies in the bucket of its weekday. *)
Lemma entry_in_its_bucket (entries : list MoodEntry) (entry : MoodEntry) :
  In entry entries ->
  In (bucket zone entries (dayName zone entry)) (entriesByDay zone entries)
  /\ In entry (Analytics.entries (bucket zone entries (dayName zone entry))).
Proof.
  intros Hin. split.
  - apply in_map, dayName_In.
  - cbn [bucket Analytics.entries]. apply filter_In. split; [assumption|].
    apply String.eqb_refl.
Qed.

Lemma all_buckets_empty (entries : list MoodEntry) :
  (forall b, In b (entriesByDay zone entries) -> averageMood b = None) -> entries = [].
Proof.
  intros Hall. destruct entries as [|entry rest]; [reflexivity|]. exfalso.
  destruct (entry_in_its_bucket (entry :: rest) entry (or_introl eq_refl)) as [Hb Hin].
  specialize (Hall _ Hb). apply (proj1 (averageMood_None _ _ _ Hb)) in Hall.
  rewrite Hall in Hin. contradiction.
Qed.

Lemma selected_has_data (entries : list MoodEntry) (b : DayBucket) :
  highestMoodDay zone entries = Some b \/ lowestMoodDay zone entries = Some b ->
  In b (entriesByDay zone entries) /\ averageMood b <> None /\ Analytics.entries b <> [].
Proof.
  intros Hsel.
  assert (In b (List.filter hasData (entriesByDay zone entries))) as Hin.
  { destruct Hsel as [H|H];
      [apply highestMoodDay_firstMaximum in H | apply lowestMoodDay_firstMinimum in H];
      destruct H as (l1 & l2 & -> & _); apply in_elt. }
  apply filter_In in Hin as [Hin Hdata]. split; [assumption|].
  assert (averageMood b <> None) as Hne.
  { unfold hasData in Hdata. destruct (averageMood b); [discriminate | discriminate]. }
  split; [assumption|]. intros Hnil. apply Hne.
  now apply (proj2 (averageMood_None zone entries b Hin)).
Qed.

(** C6.  A bucket the Peak Day or the Dip Day rule selects always has data
    (a mean and at least one entry).  When every weekday bucket is empty
    neither rule selects a bucket, and the pattern list is empty. *)
Theorem no_pattern_from_empty_buckets (entries : list MoodEntry) :
  (forall b, highestMoodDay zone entries = Some b \/ lowestMoodDay zone entries = Some b ->
     In b (entriesByDay zone entries) /\ averageMood b <> None /\ Analytics.entries b <> [])
  /\ ((forall b, In b (entriesByDay zone entries) -> averageMood b = None) ->
      highestMoodDay zone entries = None
      /\ lowestMoodDay zone entries = None
      /\ pushIfMood (highestMoodDay zone entries) peakDay = []
      /\ pushIfMood (lowestMoodDay zone entries) dipDay = []
      /\ moodPatterns zone entries = []).
Proof.
  split; [apply selected_has_data|].
  intros Hall. apply all_buckets_empty in Hall as ->. now vm_compute.
Qed.

End EmptyBuckets.

Lemma no_pattern_from_empty_buckets_witness :
  Analytics.highestMoodDay UTC [] = None
  /\ Analytics.lowestMoodDay UTC [] = None
  /\ Analytics.pushIfMood (Analytics.highestMoodDay UTC []) Analytics.peakDay = []
  /\ Analytics.pushIfMood (Analytics.lowestMoodDay UTC []) Analytics.dipDay = []
  /\ Analytics.moodPatterns UTC [] = [].
Proof.
  apply (proj2 (no_pattern_from_empty_buckets UTC [])).
  intros b Hb. apply List.in_map_iff in Hb as (name & <- & _). reflexivity.
Defined.


(** ** Substrings *)

Lemma append_cons (x : ascii) (a b : string) :
  (String x a ++ b)%string = String x (a ++ b)%string.
Proof. reflexivity. Qed.


Lemma string_app_assoc (a b c : string) : ((a ++ b) ++ c = a ++ (b ++ c))%string.
Proof.
  induction a as [|x a IH]; [reflexivity|].
  rewrite !append_cons. f_equal. exact IH.
Qed.

Lemma startsWith_iff (s w : string) :
  JS.startsWith s w = true <-> exists q, s = (w ++ q)%string.
Proof.
  revert s. induction w as [|a w IH]; intros s.
  - destruct s; split; eauto.
  - destruct s as [|b s]; cbn [JS.startsWith].
    + split; [discriminate | intros [q Hq]; discriminate].
    + rewrite andb_true_iff, Ascii.eqb_eq, IH. split.
      * intros [-> [q ->]]. eauto.
      * intros [q Hq]. rewrite append_cons in Hq. injection Hq as -> ->. eauto.
Qed.

Lemma includes_iff (s w : string) :
  JS.includes s w = true <-> exists p q, s = (p ++ w ++ q)%string.
Proof.
  induction s as [|c s IH]; cbn [JS.includes].
  - rewrite orb_false_r, startsWith_iff. split.
    + intros [q Hq]. exists EmptyString, q. exact Hq.
    + intros (p & q & Hpq). destruct p; [eauto | discriminate].
  - rewrite orb_true_iff, startsWith_iff, IH. split.
    + intros [[q Hq]|(p & q & ->)].
      * exists EmptyString, q. exact Hq.
      * exists (String c p), q. reflexivity.
    + intros (p & q & Hpq). destruct p as [|c' p].
      * left. eauto.
      * right. rewrite append_cons in Hpq. injection Hpq as -> ->. eauto.
Qed.



(** A string that contains a word contains every word that word starts
    with. *)
Lemma includes_prefix (s w rest : string) :
  JS.includes s (w ++ rest) = true -> JS.includes s w = true.
Proof.
  rewrite !includes_iff. intros (p & q & ->).
  exists p, (rest ++ q)%string. now rewrite string_app_assoc.
Qed.



(** ** Weekend versus weekday *)







(** ** The guard of the weekend rule in exact arithmetic *)

Section Difference.






End Difference.

Section Guard.




End Guard.

Section ExactSkew.
Import Analytics.



End ExactSkew.

Section WeekendRule.
Import Analytics.
Context (zone : TimeZone).




Lemma nonempty_length {A : Type} (l : list A) :
  (0 <? Z.of_nat (length l)) = true <-> l <> [].
Proof.
  destruct l; simpl length.
  - split; [discriminate | congruence].
  - split; [discriminate | intros _; apply Z.ltb_lt; lia].
Qed.







End WeekendRule.




(** ** Sorting by an integer key, largest first *)

Section SortByKey.
Context {A : Type} (before : A -> A -> bool) (key : A -> Z).
Hypothesis before_key : forall a b, before a b = (key a <? key b).

Lemma insert_permutation (x : A) (l : list A) : Permutation (JS.insert before x l) (x :: l).
Proof.
  induction l as [|y l IH]; simpl; [reflexivity|].
  destruct (before x y); [|reflexivity].
  rewrite IH. apply perm_swap.
Qed.

Lemma sort_permutation (l : list A) : Permutation (JS.sort before l) l.
Proof.
  induction l as [|x l IH]; simpl; [reflexivity|].
  rewrite insert_permutation. now constructor.
Qed.

Lemma insert_sorted (x : A) (l : list A) :
  StronglySorted (fun a b => key b <= key a) l ->
  StronglySorted (fun a b => key b <= key a) (JS.insert before x l).
Proof using before_key.
  induction 1 as [|y l Hs IH Hy]; simpl; [repeat constructor|].
  rewrite before_key. destruct (Z.ltb_spec (key x) (key y)).
  - constructor; [assumption|].
    rewrite List.Forall_forall in *. intros z Hz.
    apply (Permutation_in _ (insert_permutation x l)) in Hz as [<-|Hz]; [lia | now apply Hy].
  - constructor; [now constructor|].
    constructor; [assumption|]. rewrite List.Forall_forall in *.
    intros z Hz. specialize (Hy z Hz). lia.
Qed.

Lemma sort_sorted (l : list A) :
  StronglySorted (fun a b => key b <= key a) (JS.sort before l).
Proof using before_key.
  induction l as [|x l IH]; simpl; [constructor | now apply insert_sorted].
Qed.

(** Elements of equal key keep their order: the sort is stable. *)
Lemma insert_stable (k : Z) (x : A) (l : list A) :
  List.filter (fun a => key a =? k) (JS.insert before x l)
  = List.filter (fun a => key a =? k) (x :: l).
Proof using before_key.
  induction l as [|y l IH]; [reflexivity|].
  cbn [JS.insert]. rewrite before_key. destruct (Z.ltb_spec (key x) (key y)); [|reflexivity].
  cbn [List.filter] in *. rewrite IH.
  destruct (Z.eqb_spec (key x) k), (Z.eqb_spec (key y) k); try reflexivity. lia.
Qed.

Lemma sort_stable (k : Z) (l : list A) :
  List.filter (fun a => key a =? k) (JS.sort before l)
  = List.filter (fun a => key a =? k) l.
Proof using before_key.
  induction l as [|x l IH]; [reflexivity|].
  cbn [JS.sort fold_right]. fold (JS.sort before l). rewrite insert_stable.
  cbn [List.filter]. now rewrite IH.
Qed.

End SortByKey.

Lemma firstn_In {A : Type} (n : nat) (l : list A) (x : A) :
  In x (firstn n l) -> In x l.
Proof.
  revert n. induction l as [|y l IH]; intros [|n]; simpl; try tauto.
  intros [->|H]; [now left | right; eauto].
Qed.

Lemma firstn_sorted {A : Type} (R : A -> A -> Prop) (n : nat) (l : list A) :
  StronglySorted R l -> StronglySorted R (firstn n l).
Proof.
  intros Hs. revert n. induction Hs as [|x l Hs IH Hx]; intros [|n]; simpl; try constructor.
  - apply IH.
  - rewrite List.Forall_forall in *. intros y Hy. apply Hx. eapply firstn_In; eauto.
Qed.

(** ** The trigger object *)

Section TriggerObject.
Import Analytics.

Lemma lookup_record_same (word : string) (kind : Impact) (rating : Z) (t : Triggers) :
  lookup word (record word kind rating t) = Some (bumped kind rating (lookup word t)).
Proof.
  induction t as [|[key data] rest IH]; cbn [record lookup].
  - now rewrite String.eqb_refl.
  - destruct (String.eqb key word) eqn:Hk; cbn [lookup]; rewrite Hk; [reflexivity | exact IH].
Qed.

Lemma lookup_record_other (word word' : string) (kind : Impact) (rating : Z) (t : Triggers) :
  word' <> word -> lookup word' (record word kind rating t) = lookup word' t.
Proof.
  intros Hne. induction t as [|[key data] rest IH]; cbn [record lookup].
  - destruct (String.eqb_spec word word'); [congruence | reflexivity].
  - destruct (String.eqb_spec key word) as [->|Hk]; cbn [lookup].
    + destruct (String.eqb_spec word word'); [congruence | reflexivity].
    + destruct (String.eqb key word'); [reflexivity | exact IH].
Qed.

(** [record] keeps the keys in place and appends a key it has not met. *)
Lemma record_keys (word : string) (kind : Impact) (rating : Z) (t : Triggers) :
  map fst (record word kind rating t)
  = map fst t ++ match lookup word t with Some _ => [] | None => [word] end.
Proof.
  induction t as [|[key data] rest IH]; cbn [record lookup map fst app]; [reflexivity|].
  destruct (String.eqb key word); cbn [map fst].
  - now rewrite app_nil_r.
  - now rewrite IH.
Qed.

(** One pass over a list of distinct words. *)
Lemma scan_lookup (kind : Impact) (details : string) (rating : Z) (word : string)
    (words : list string) (t : Triggers) :
  List.NoDup words ->
  lookup word
    (fold_left (fun t w => if JS.includes details w then record w kind rating t else t) words t)
  = if existsb (String.eqb word) words && JS.includes details word
    then Some (bumped kind rating (lookup word t))
    else lookup word t.
Proof.
  intros Hnd. revert t. induction Hnd as [|w words Hw Hnd IH]; intros t; [reflexivity|].
  cbn [fold_left existsb]. rewrite IH. destruct (String.eqb_spec word w) as [->|Hne].
  - assert (existsb (String.eqb w) words = false) as ->.
    { apply not_true_is_false. intros H. apply existsb_exists in H as (x & Hx & Heq).
      apply String.eqb_eq in Heq. subst x. contradiction. }
    simpl. destruct (JS.includes details w); [apply lookup_record_same | reflexivity].
  - simpl. destruct (JS.includes details w); [|reflexivity].
    now rewrite lookup_record_other.
Qed.

Lemma scan_keys (kind : Impact) (details : string) (rating : Z)
    (words : list string) (t : Triggers) :
  exists new,
    map fst (fold_left (fun t w => if JS.includes details w then record w kind rating t else t)
               words t)
    = map fst t ++ new.
Proof.
  revert t. induction words as [|w words IH]; intros t; cbn [fold_left].
  - exists []. now rewrite app_nil_r.
  - destruct (IH (if JS.includes details w then record w kind rating t else t)) as [new ->].
    destruct (JS.includes details w).
    + rewrite record_keys, <- app_assoc. eauto.
    + eauto.
Qed.

(** The vocabulary: no word twice, no word of both kinds, no empty word. *)
Lemma triggerWords_NoDup (kind : Impact) : List.NoDup (triggerWords kind).
Proof.
  destruct kind; repeat (constructor; [simpl; intuition discriminate|]); constructor.
Qed.

Lemma vocabulary_word (kind : Impact) (word : string) :
  In word (triggerWords kind) ->
  existsb (String.eqb word) (triggerWords kind) = true
  /\ existsb (String.eqb word) (triggerWords (other kind)) = false
  /\ JS.includes "" word = false.
Proof.
  destruct kind; simpl; intuition (subst; reflexivity).
Qed.

Lemma not_in_vocabulary (word : string) :
  (forall kind, ~ In word (triggerWords kind)) ->
  forall kind, existsb (String.eqb word) (triggerWords kind) = false.
Proof.
  intros Hout kind. apply not_true_is_false. intros H.
  apply existsb_exists in H as (x & Hx & Heq). apply String.eqb_eq in Heq. subst x.
  exact (Hout kind Hx).
Qed.

Lemma checkTriggers_lookup (kind : Impact) (details : string) (rating : Z)
    (word : string) (t : Triggers) :
  lookup word (checkTriggers kind details rating t)
  = if existsb (String.eqb word) (triggerWords kind) && JS.includes details word
    then Some (bumped kind rating (lookup word t))
    else lookup word t.
Proof. apply scan_lookup, triggerWords_NoDup. Qed.

(** What one entry does to a word of the vocabulary. *)
Lemma analyzeDetails_lookup (t : Triggers) (entry : MoodEntry) (kind : Impact) (word : string) :
  In word (triggerWords kind) ->
  lookup word (analyzeDetails t entry)
  = if Spec.mentions word entry
    then Some (bumped kind (rating entry) (lookup word t))
    else lookup word t.
Proof.
  intros Hin. destruct (vocabulary_word kind word Hin) as (Hown & Hother & Hempty).
  unfold analyzeDetails, Spec.mentions. destruct (details entry) as [text|]; [|reflexivity].
  destruct (String.eqb_spec text "") as [->|Hne].
  - simpl JS.toLowerCase. now rewrite Hempty.
  - cbv zeta. rewrite !checkTriggers_lookup. destruct kind; simpl other in Hother.
    + rewrite Hown, Hother. simpl. reflexivity.
    + rewrite Hown, Hother. simpl.
      now destruct (JS.includes (JS.toLowerCase text) word).
Qed.

(** ... and to any other word: nothing. *)
Lemma analyzeDetails_lookup_other (t : Triggers) (entry : MoodEntry) (word : string) :
  (forall kind, ~ In word (triggerWords kind)) ->
  lookup word (analyzeDetails t entry) = lookup word t.
Proof.
  intros Hout. unfold analyzeDetails. destruct (details entry) as [text|]; [|reflexivity].
  destruct (String.eqb text ""); [reflexivity|]. cbv zeta.
  now rewrite !checkTriggers_lookup, !not_in_vocabulary.
Qed.

Lemma analyzeDetails_keys (t : Triggers) (entry : MoodEntry) :
  exists new, map fst (analyzeDetails t entry) = map fst t ++ new.
Proof.
  unfold analyzeDetails. destruct (details entry) as [text|].
  - destruct (String.eqb text ""); [exists []; now rewrite app_nil_r|]. cbv zeta.
    unfold checkTriggers.
    destruct (scan_keys Negative (JS.toLowerCase text) (rating entry) (triggerWords Negative)
                (fold_left (fun t w => if JS.includes (JS.toLowerCase text) w
                                       then record w Positive (rating entry) t else t)
                   (triggerWords Positive) t)) as [new2 ->].
    destruct (scan_keys Positive (JS.toLowerCase text) (rating entry) (triggerWords Positive) t)
      as [new1 ->].
    exists (new1 ++ new2). now rewrite app_assoc.
  - exists []. now rewrite app_nil_r.
Qed.

Lemma occurrences_cons (word : string) (entry : MoodEntry) (entries : list MoodEntry) :
  Spec.occurrences word (entry :: entries)
  = (if Spec.mentions word entry then 1 else 0) + Spec.occurrences word entries.
Proof.
  unfold Spec.occurrences. cbn [List.filter].
  destruct (Spec.mentions word entry); simpl length; lia.
Qed.

Lemma ratingTotal_cons (word : string) (entry : MoodEntry) (entries : list MoodEntry) :
  Spec.ratingTotal word (entry :: entries)
  = (if Spec.mentions word entry then rating entry else 0) + Spec.ratingTotal word entries.
Proof.
  unfold Spec.ratingTotal. cbn [List.filter].
  destruct (Spec.mentions word entry); [apply sumRatings_cons | lia].
Qed.

Lemma occurrences_nonneg (word : string) (entries : list MoodEntry) :
  0 <= Spec.occurrences word entries.
Proof. unfold Spec.occurrences. lia. Qed.

(** The object after all entries, started from [t]. *)
Lemma fold_analyzeDetails_lookup (entries : list MoodEntry) (t : Triggers)
    (kind : Impact) (word : string) :
  In word (triggerWords kind) ->
  lookup word (fold_left analyzeDetails entries t)
  = if Spec.occurrences word entries =? 0 then lookup word t
    else Some
      match lookup word t with
      | Some data =>
          {| count := count data + Spec.occurrences word entries;
             totalImpact := totalImpact data + Spec.ratingTotal word entries;
             type := type data |}
      | None =>
          {| count := Spec.occurrences word entries;
             totalImpact := Spec.ratingTotal word entries;
             type := kind |}
      end.
Proof.
  intros Hin. revert t. induction entries as [|entry entries IH]; intros t; [reflexivity|].
  cbn [fold_left]. rewrite IH, (analyzeDetails_lookup t entry kind word Hin).
  rewrite occurrences_cons, ratingTotal_cons.
  pose proof (occurrences_nonneg word entries) as Hn.
  destruct (Spec.mentions word entry).
  - destruct (Z.eqb_spec (1 + Spec.occurrences word entries) 0) as [|_]; [lia|].
    destruct (Z.eqb_spec (Spec.occurrences word entries) 0) as [H0|H0].
    + assert (Spec.ratingTotal word entries = 0) as Ht0.
      { unfold Spec.occurrences in H0. unfold Spec.ratingTotal.
        destruct (List.filter _ entries); [reflexivity | simpl length in H0; lia]. }
      rewrite H0, Ht0. f_equal. destruct (lookup word t); simpl; f_equal; lia.
    + f_equal. destruct (lookup word t); simpl; f_equal; lia.
  - rewrite !Z.add_0_l. reflexivity.
Qed.

Lemma triggers_lookup (entries : list MoodEntry) (kind : Impact) (word : string) :
  In word (triggerWords kind) ->
  lookup word (triggers entries)
  = if Spec.occurrences word entries =? 0 then None
    else Some {| count := Spec.occurrences word entries;
                 totalImpact := Spec.ratingTotal word entries;
                 type := kind |}.
Proof. intros Hin. unfold triggers. now rewrite (fold_analyzeDetails_lookup _ _ kind). Qed.

Lemma triggers_lookup_other (entries : list MoodEntry) (word : string) :
  (forall kind, ~ In word (triggerWords kind)) -> lookup word (triggers entries) = None.
Proof.
  intros Hout. unfold triggers.
  assert (forall t, lookup word (fold_left analyzeDetails entries t) = lookup word t) as H.
  { induction entries as [|e es IH]; intros t; [reflexivity|]. cbn [fold_left].
    now rewrite IH, analyzeDetails_lookup_other. }
  now rewrite H.
Qed.

End TriggerObject.

(** ** The trigger list *)

Section TriggerList.
Import Analytics.

Lemma lookup_None (word : string) (t : Triggers) :
  lookup word t = None <-> ~ In word (map fst t).
Proof.
  induction t as [|[key data] rest IH]; cbn [lookup map fst In]; [tauto|].
  destruct (String.eqb_spec key word) as [->|Hne].
  - split; [discriminate | tauto].
  - rewrite IH. tauto.
Qed.

Lemma lookup_In (word : string) (data : TriggerData) (t : Triggers) :
  List.NoDup (map fst t) -> (In (word, data) t <-> lookup word t = Some data).
Proof.
  induction t as [|[key d] rest IH]; cbn [lookup map fst In]; intros Hnd.
  - split; [tauto | discriminate].
  - apply List.NoDup_cons_iff in Hnd as [Hkey Hnd].
    destruct (String.eqb_spec key word) as [->|Hne].
    + split.
      * intros [[= ->]|Hin]; [reflexivity|]. exfalso. apply Hkey.
        apply List.in_map_iff. exists (word, data). auto.
      * intros [= ->]. now left.
    + rewrite <- (IH Hnd). split; [intros [[= ? ?]|H]; [contradiction | assumption] | tauto].
Qed.

Lemma record_NoDup (word : string) (kind : Impact) (rating : Z) (t : Triggers) :
  List.NoDup (map fst t) -> List.NoDup (map fst (record word kind rating t)).
Proof.
  intros Hnd. rewrite record_keys. destruct (lookup word t) eqn:Hl.
  - now rewrite app_nil_r.
  - apply lookup_None in Hl. apply List.NoDup_app.
    + assumption.
    + repeat constructor. simpl. tauto.
    + intros x Hx [<-|[]]. contradiction.
Qed.

Lemma checkTriggers_NoDup (kind : Impact) (details : string) (rating : Z) (t : Triggers) :
  List.NoDup (map fst t) -> List.NoDup (map fst (checkTriggers kind details rating t)).
Proof.
  unfold checkTriggers. generalize (triggerWords kind) as words. intros words. revert t.
  induction words as [|w words IH]; intros t Hnd; cbn [fold_left]; [assumption|].
  apply IH. destruct (JS.includes details w); [now apply record_NoDup | assumption].
Qed.

Lemma analyzeDetails_NoDup (t : Triggers) (entry : MoodEntry) :
  List.NoDup (map fst t) -> List.NoDup (map fst (analyzeDetails t entry)).
Proof.
  intros Hnd. unfold analyzeDetails. destruct (details entry) as [text|]; [|assumption].
  destruct (String.eqb text ""); [assumption|]. now apply checkTriggers_NoDup, checkTriggers_NoDup.
Qed.

Lemma triggers_NoDup (entries : list MoodEntry) : List.NoDup (map fst (triggers entries)).
Proof.
  unfold triggers.
  assert (forall t, List.NoDup (map fst t) ->
                    List.NoDup (map fst (fold_left analyzeDetails entries t))) as H.
  { induction entries as [|e es IH]; intros t Hnd; [assumption|].
    apply IH, analyzeDetails_NoDup, Hnd. }
  apply H. constructor.
Qed.

(** The keys of the object are in the order the words were first met: a
    further entry appends its new words and moves nothing. *)
Lemma triggers_keys_grow (entries : list MoodEntry) (entry : MoodEntry) :
  exists new, map fst (triggers (entries ++ [entry])) = map fst (triggers entries) ++ new.
Proof.
  unfold triggers. rewrite fold_left_app. cbn [fold_left]. apply analyzeDetails_keys.
Qed.

(** An entry of the object is a word of the vocabulary with its number of
    occurrences, its rating total and its kind. *)
Lemma triggers_In (entries : list MoodEntry) (word : string) (data : TriggerData) :
  In (word, data) (triggers entries)
  <-> exists kind, In word (triggerWords kind)
        /\ 1 <= Spec.occurrences word entries
        /\ data = {| count := Spec.occurrences word entries;
                     totalImpact := Spec.ratingTotal word entries;
                     type := kind |}.
Proof.
  rewrite (lookup_In word data _ (triggers_NoDup entries)). split.
  - intros Hl.
    assert (exists kind, In word (triggerWords kind)) as [kind Hin].
    { destruct (in_dec string_dec word (triggerWords Positive)) as [H|Hp]; [eauto|].
      destruct (in_dec string_dec word (triggerWords Negative)) as [H|Hn]; [eauto|].
      rewrite triggers_lookup_other in Hl; [discriminate|]. intros []; assumption. }
    exists kind. split; [assumption|].
    rewrite (triggers_lookup entries kind word Hin) in Hl.
    pose proof (occurrences_nonneg word entries).
    destruct (Z.eqb_spec (Spec.occurrences word entries) 0); [discriminate|].
    injection Hl as <-. split; [lia | reflexivity].
  - intros (kind & Hin & Hocc & ->). rewrite (triggers_lookup entries kind word Hin).
    destruct (Z.eqb_spec (Spec.occurrences word entries) 0); [lia | reflexivity].
Qed.

Lemma frequentTriggers_In (entries : list MoodEntry) (t : MoodTrigger) :
  In t (frequentTriggers entries)
  <-> exists word kind, In word (triggerWords kind)
        /\ 2 <= Spec.occurrences word entries
        /\ t = {| trigger := JS.capitalize word;
                  impact := kind;
                  frequency := Spec.occurrences word entries |}.
Proof.
  unfold frequentTriggers. rewrite List.in_map_iff. split.
  - intros ([word data] & <- & Hin). apply filter_In in Hin as [Hin Hc].
    apply triggers_In in Hin as (kind & Hw & _ & ->). cbn [snd count] in Hc.
    apply Z.leb_le in Hc. exists word, kind. repeat split; assumption.
  - intros (word & kind & Hw & Hocc & ->).
    exists (word, {| count := Spec.occurrences word entries;
                     totalImpact := Spec.ratingTotal word entries;
                     type := kind |}).
    split; [reflexivity|]. apply filter_In. split.
    + apply triggers_In. exists kind. repeat split; [assumption | lia].
    + cbn [snd count]. now apply Z.leb_le.
Qed.

Lemma byFrequency_key (a b : MoodTrigger) :
  byFrequency a b = (frequency a <? frequency b).
Proof.
  unfold byFrequency.
  destruct (Z.ltb_spec 0 (frequency b - frequency a)), (Z.ltb_spec (frequency a) (frequency b));
    (reflexivity || lia).
Qed.

End TriggerList.

(** ** The order of first mention *)

Section MentionOrder.
Import Analytics.

Lemma known_In (word : string) (words : list string) :
  Spec.known word words = true <-> In word words.
Proof.
  unfold Spec.known. rewrite existsb_exists. split.
  - intros (x & Hx & Heq). apply String.eqb_eq in Heq. now subst x.
  - intros H. exists word. split; [exact H|apply String.eqb_refl].
Qed.

Lemma known_app (word : string) (l1 l2 : list string) :
  Spec.known word (l1 ++ l2) = Spec.known word l1 || Spec.known word l2.
Proof. unfold Spec.known. apply existsb_app. Qed.

Lemma known_lookup (word : string) (t : Triggers) :
  Spec.known word (map fst t) = match lookup word t with Some _ => true | None => false end.
Proof.
  induction t as [|[key data] rest IH]; [reflexivity|].
  cbn [map fst lookup]. unfold Spec.known in *. cbn [existsb].
  rewrite (String.eqb_sym word key). destruct (String.eqb key word); [reflexivity|exact IH].
Qed.

(** One pass adds, in the order of the scan, the words of the note that
    are no keys yet. *)
Lemma scan_keys_exact (kind : Impact) (details : string) (rating : Z)
    (words : list string) (t : Triggers) :
  List.NoDup words ->
  map fst (fold_left (fun t w => if JS.includes details w then record w kind rating t else t)
             words t)
  = map fst t
    ++ List.filter (fun w => JS.includes details w && negb (Spec.known w (map fst t))) words.
Proof.
  intros Hnd. revert t. induction Hnd as [|w words Hw Hnd IH]; intros t; cbn [fold_left].
  - cbn. now rewrite app_nil_r.
  - rewrite IH. cbn [List.filter]. destruct (JS.includes details w) eqn:Ew; cbn [andb].
    + rewrite record_keys, known_lookup. destruct (lookup w t) eqn:El; cbn [negb].
      * now rewrite app_nil_r.
      * rewrite <- app_assoc. cbn [app]. f_equal. f_equal.
        apply filter_ext_in. intros x Hx. rewrite known_app.
        replace (Spec.known x [w]) with false; [now rewrite orb_false_r|].
        symmetry. apply not_true_is_false. rewrite known_In. intros [<-|[]]. contradiction.
    + reflexivity.
Qed.

Lemma vocabulary_words :
  map fst Spec.vocabulary = triggerWords Positive ++ triggerWords Negative.
Proof. reflexivity. Qed.

(** The keys one note adds: they follow the keys met before, in the order
    of the two scans, positive words first. *)
Lemma analyzeDetails_keys_exact (t : Triggers) (entry : MoodEntry) :
  map fst (analyzeDetails t entry) = map fst t ++ Spec.firstMentioned (map fst t) entry.
Proof.
  unfold Spec.firstMentioned. rewrite vocabulary_words, List.filter_app.
  unfold analyzeDetails, Spec.mentions.
  destruct (details entry) as [text|] eqn:Ed.
  - destruct (String.eqb_spec text "") as [->|Hne].
    + replace (List.filter _ (triggerWords Positive)) with (@nil string).
      replace (List.filter _ (triggerWords Negative)) with (@nil string).
      * now rewrite app_nil_r.
      * symmetry. apply filter_nil_iff. intros x Hx.
        apply vocabulary_word in Hx as (_ & _ & Hx). cbn [JS.toLowerCase]. now rewrite Hx.
      * symmetry. apply filter_nil_iff. intros x Hx.
        apply vocabulary_word in Hx as (_ & _ & Hx). cbn [JS.toLowerCase]. now rewrite Hx.
    + cbv zeta. unfold checkTriggers.
      rewrite (scan_keys_exact Negative) by apply triggerWords_NoDup.
      rewrite (scan_keys_exact Positive) by apply triggerWords_NoDup.
      rewrite <- app_assoc. f_equal. f_equal.
      apply filter_ext_in. intros x Hx. rewrite known_app.
      replace (Spec.known x (List.filter _ (triggerWords Positive))) with false;
        [now rewrite orb_false_r|].
      symmetry. apply not_true_is_false. rewrite known_In, filter_In. intros [Hp _].
      apply (vocabulary_word Negative) in Hx as (_ & Hother & _). cbn [other] in Hother.
      apply known_In in Hp. unfold Spec.known in Hp. congruence.
  - cbn. now rewrite app_nil_r.
Qed.

Lemma fold_analyzeDetails_keys (entries : list MoodEntry) (t : Triggers) :
  map fst (fold_left analyzeDetails entries t)
  = fold_left (fun words entry => words ++ Spec.firstMentioned words entry) entries (map fst t).
Proof.
  revert t. induction entries as [|entry entries IH]; intros t; [reflexivity|].
  cbn [fold_left]. now rewrite IH, analyzeDetails_keys_exact.
Qed.

(** The keys of the object are the words in the order of their first
    mention. *)
Lemma triggers_keys (entries : list MoodEntry) :
  map fst (triggers entries) = Spec.mentionOrder entries.
Proof. apply fold_analyzeDetails_keys. Qed.

Lemma kindOf_vocabulary (kind : Impact) (word : string) :
  In word (triggerWords kind) -> Spec.kindOf word = kind.
Proof.
  intros H. apply vocabulary_word in H as (Hown & Hother & _).
  unfold Spec.kindOf, Spec.known. destruct kind; cbn [other] in Hother.
  - now rewrite Hown.
  - now rewrite Hother.
Qed.

Lemma pairs_of_keys {A B : Type} (f : A -> B) (l : list (A * B)) :
  (forall k v, In (k, v) l -> v = f k) -> l = map (fun k => (k, f k)) (map fst l).
Proof.
  induction l as [|[k v] l IH]; intros H; [reflexivity|]. cbn [map fst].
  rewrite <- IH by (intros k' v' Hin; apply H; now right).
  now rewrite (H k v (or_introl eq_refl)).
Qed.

Lemma triggers_by_first_mention (entries : list MoodEntry) :
  triggers entries
  = map (fun word => (word, {| count := Spec.occurrences word entries;
                               totalImpact := Spec.ratingTotal word entries;
                               type := Spec.kindOf word |}))
        (Spec.mentionOrder entries).
Proof.
  rewrite <- triggers_keys. apply pairs_of_keys. intros word data Hin.
  apply triggers_In in Hin as (kind & Hw & _ & ->). now rewrite (kindOf_vocabulary kind).
Qed.

Lemma filter_map_swap {A B : Type} (f : A -> B) (p : B -> bool) (l : list A) :
  List.filter p (map f l) = map f (List.filter (fun x => p (f x)) l).
Proof.
  induction l as [|x l IH]; [reflexivity|]. cbn [map List.filter].
  destruct (p (f x)); cbn [map]; now rewrite IH.
Qed.

(** The list handed to [setMoodTriggers] is the ranking by first
    mention. *)
Lemma triggersArray_by_first_mention (entries : list MoodEntry) :
  triggersArray entries = Spec.rankByFirstMention entries.
Proof.
  unfold triggersArray, Spec.rankByFirstMention, frequentTriggers.
  rewrite triggers_by_first_mention, !filter_map_swap, map_map. reflexivity.
Qed.

End MentionOrder.

(** ** Ranking the triggers *)

Section TriggerRanking.
Import Analytics.

Lemma triggersArray_length (entries : list MoodEntry) :
  (length (triggersArray entries) <= 5)%nat.
Proof. unfold triggersArray. apply firstn_le_length. Qed.

Lemma triggersArray_sorted (entries : list MoodEntry) :
  StronglySorted (fun a b => frequency b <= frequency a) (triggersArray entries).
Proof.
  unfold triggersArray. apply firstn_sorted.
  apply (sort_sorted byFrequency frequency byFrequency_key).
Qed.

Lemma triggersArray_In (entries : list MoodEntry) (t : MoodTrigger) :
  In t (triggersArray entries) ->
  exists word kind, In word (triggerWords kind)
    /\ 2 <= Spec.occurrences word entries
    /\ t = {| trigger := JS.capitalize word;
              impact := kind;
              frequency := Spec.occurrences word entries |}.
Proof.
  unfold triggersArray. intros Hin. apply firstn_In in Hin.
  apply (Permutation_in _ (sort_permutation byFrequency _)) in Hin.
  now apply frequentTriggers_In.
Qed.

(** C7 as stated fails on a tie: "stress" is met in the first note and
    "exercise" in the second, both twice in all; the list has Stress first,
    the vocabulary order would have Exercise first. *)
Lemma tie_follows_first_mention :
  map trigger (triggersArray Sample.stressBeforeExercise) = ["Stress"; "Exercise"]%string
  /\ map frequency (triggersArray Sample.stressBeforeExercise) = [2; 2]
  /\ map trigger (Spec.extractTriggers Sample.stressBeforeExercise)
     = ["Exercise"; "Stress"]%string
  /\ triggersArray Sample.stressBeforeExercise
     <> Spec.extractTriggers Sample.stressBeforeExercise.
Proof.
  split; [now vm_compute|]. split; [now vm_compute|]. split; [now vm_compute|].
  vm_compute. discriminate.
Qed.

(** C7 (as amended).  The list handed over is the ranking by first
    mention: the vocabulary words in the order in which the entries first
    mention them (a note adds the words it mentions that no earlier note
    mentioned, in the order of the two scans, positive words before negative
    ones), each with its display form, kind and number of occurrences; of
    these the words with at least 2 occurrences, sorted by descending
    count, the sort being a stable rearrangement (words of equal count stay
    in first-mention order); of these the first five.  So the result has at
    most 5 triggers, is in descending order of count, and every trigger in
    it has at least 2 occurrences. *)
Theorem triggers_are_ranked_by_count_then_first_mention (entries : list MoodEntry) :
  triggersArray entries = Spec.rankByFirstMention entries
  /\ (forall t entry,
        map fst (analyzeDetails t entry) = map fst t ++ Spec.firstMentioned (map fst t) entry)
  /\ (forall entry,
        map fst (triggers (entries ++ [entry]))
        = map fst (triggers entries) ++ Spec.firstMentioned (map fst (triggers entries)) entry)
  /\ map fst (triggers entries) = Spec.mentionOrder entries
  /\ frequentTriggers entries
     = List.filter (fun t => 2 <=? frequency t)
         (map (fun word => {| trigger := JS.capitalize word;
                              impact := Spec.kindOf word;
                              frequency := Spec.occurrences word entries |})
              (Spec.mentionOrder entries))
  /\ (forall t, In t (frequentTriggers entries)
        <-> exists word kind, In word (triggerWords kind)
              /\ 2 <= Spec.occurrences word entries
              /\ t = {| trigger := JS.capitalize word;
                        impact := kind;
                        frequency := Spec.occurrences word entries |})
  /\ Permutation (JS.sort byFrequency (frequentTriggers entries)) (frequentTriggers entries)
  /\ StronglySorted (fun a b => frequency b <= frequency a)
       (JS.sort byFrequency (frequentTriggers entries))
  /\ (forall k, List.filter (fun t => frequency t =? k)
                  (JS.sort byFrequency (frequentTriggers entries))
                = List.filter (fun t => frequency t =? k) (frequentTriggers entries))
  /\ (length (triggersArray entries) <= 5)%nat
  /\ StronglySorted (fun a b => frequency b <= frequency a) (triggersArray entries)
  /\ (forall t, In t (triggersArray entries) ->
        2 <= frequency t /\ In t (frequentTriggers entries)).
Proof.
  split; [apply triggersArray_by_first_mention|].
  split; [apply analyzeDetails_keys_exact|].
  split.
  { intros entry. unfold triggers. rewrite fold_left_app. cbn [fold_left].
    apply analyzeDetails_keys_exact. }
  split; [apply triggers_keys|].
  split.
  { unfold frequentTriggers.
    rewrite triggers_by_first_mention, !filter_map_swap, map_map. reflexivity. }
  split; [apply frequentTriggers_In|].
  split; [apply sort_permutation|].
  split; [apply (sort_sorted byFrequency frequency byFrequency_key)|].
  split; [intros k; apply (sort_stable byFrequency frequency byFrequency_key)|].
  split; [apply triggersArray_length|].
  split; [apply triggersArray_sorted|].
  intros t Hin. pose proof (triggersArray_In entries t Hin) as (word & kind & Hw & Hocc & ->).
  split; [assumption|]. apply frequentTriggers_In. eauto.
Qed.

(** Two words first met in the same note: "workout" is found by the scan of
    the positive words, "work" by the scan of the negative words after
    it. *)
Example same_note_follows_the_scans :
  Spec.firstMentioned [] Sample.morningWorkout = ["workout"; "work"]%string
  /\ Spec.mentionOrder Sample.twoWorkouts = ["workout"; "work"]%string
  /\ map trigger (triggersArray Sample.twoWorkouts) = ["Workout"; "Work"]%string.
Proof. now vm_compute. Qed.

(** Seven words qualify, five are kept. *)
Example five_of_seven_triggers :
  length (frequentTriggers Sample.sevenWords) = 7%nat
  /\ map trigger (triggersArray Sample.sevenWords)
     = ["Sleep"; "Exercise"; "Friend"; "Family"; "Nature"]%string.
Proof. now vm_compute. Qed.

End TriggerRanking.

(** ** What the trigger list shows *)

Section TriggerOutput.
Import Analytics.

Lemma record_sameCounts (word : string) (kind : Impact) (rating rating' : Z) (t t' : Triggers) :
  sameCounts t t' -> sameCounts (record word kind rating t) (record word kind rating' t').
Proof.
  induction 1 as [|[key data] [key' data'] t t' (Hk & Hc & Hty) Hrest IH]; cbn [record].
  - repeat constructor.
  - cbn [fst snd] in Hk, Hc, Hty. subst key'. destruct (String.eqb key word).
    + constructor; [|assumption]. cbn [fst snd count type]. repeat split; [lia | assumption].
    + constructor; [|assumption]. cbn [fst snd]. auto.
Qed.

Lemma checkTriggers_sameCounts (kind : Impact) (details : string) (rating rating' : Z)
    (t t' : Triggers) :
  sameCounts t t' ->
  sameCounts (checkTriggers kind details rating t) (checkTriggers kind details rating' t').
Proof.
  unfold checkTriggers. generalize (triggerWords kind) as words. intros words. revert t t'.
  induction words as [|w words IH]; intros t t' Hs; cbn [fold_left]; [assumption|].
  apply IH. destruct (JS.includes details w); [now apply record_sameCounts | assumption].
Qed.

Lemma analyzeDetails_sameCounts (t t' : Triggers) (entry entry' : MoodEntry) :
  details entry = details entry' -> sameCounts t t' ->
  sameCounts (analyzeDetails t entry) (analyzeDetails t' entry').
Proof.
  intros Hd Hs. unfold analyzeDetails. rewrite <- Hd.
  destruct (details entry) as [text|]; [|assumption].
  destruct (String.eqb text ""); [assumption|].
  now apply checkTriggers_sameCounts, checkTriggers_sameCounts.
Qed.

Lemma triggers_sameCounts (entries entries' : list MoodEntry) :
  map details entries = map details entries' ->
  sameCounts (triggers entries) (triggers entries').
Proof.
  unfold triggers.
  assert (forall t t', sameCounts t t' -> map details entries = map details entries' ->
            sameCounts (fold_left analyzeDetails entries t)
                       (fold_left analyzeDetails entries' t')) as H.
  { revert entries'. induction entries as [|e es IH]; intros [|e' es'] t t' Hs Hmap;
      try discriminate; [assumption|].
    injection Hmap as Hd Hmap. cbn [fold_left].
    apply IH; [now apply analyzeDetails_sameCounts | assumption]. }
  intros Hmap. apply H; [constructor | assumption].
Qed.

Lemma frequentTriggers_sameCounts (t t' : Triggers) :
  sameCounts t t' ->
  map toMoodTrigger (List.filter (fun kv => 2 <=? count (snd kv)) t)
  = map toMoodTrigger (List.filter (fun kv => 2 <=? count (snd kv)) t').
Proof.
  induction 1 as [|a b t t' (Hk & Hc & Hty) Hrest IH]; [reflexivity|].
  cbn [List.filter]. rewrite <- Hc. destruct (2 <=? count (snd a)); [|assumption].
  cbn [map]. rewrite IH. f_equal. unfold toMoodTrigger. now rewrite Hk, Hc, Hty.
Qed.

(** The ratings of the entries have no bearing on the trigger list. *)
Lemma triggersArray_ignores_ratings (entries entries' : list MoodEntry) :
  map details entries = map details entries' ->
  triggersArray entries = triggersArray entries'.
Proof.
  intros Hmap. unfold triggersArray, frequentTriggers.
  now rewrite (frequentTriggers_sameCounts _ _ (triggers_sameCounts _ _ Hmap)).
Qed.

Lemma triggersArray_fields (entries : list MoodEntry) (t : MoodTrigger) :
  In t (triggersArray entries) ->
  exists word kind, In word (triggerWords kind)
    /\ trigger t = JS.capitalize word
    /\ impact t = kind
    /\ frequency t = Spec.occurrences word entries.
Proof.
  intros Hin. apply triggersArray_In in Hin as (word & kind & Hw & _ & ->).
  exists word, kind. auto.
Qed.

(** C8 as stated fails: two windows with the same notes and different
    ratings give the same trigger list, while the rating totals of
    "exercise" are 2 and 10; no reading of the list gives the total. *)
Lemma rating_total_is_not_in_the_trigger_list :
  triggersArray Sample.exerciseRatedLow = triggersArray Sample.exerciseRatedHigh
  /\ Spec.ratingTotal "exercise" Sample.exerciseRatedLow = 2
  /\ Spec.ratingTotal "exercise" Sample.exerciseRatedHigh = 10
  /\ ~ (exists total : list MoodTrigger -> Z,
          forall entries, total (triggersArray entries) = Spec.ratingTotal "exercise" entries).
Proof.
  assert (triggersArray Sample.exerciseRatedLow = triggersArray Sample.exerciseRatedHigh) as Heq
    by now vm_compute.
  split; [exact Heq|]. split; [now vm_compute|]. split; [now vm_compute|].
  intros [total Htotal].
  pose proof (Htotal Sample.exerciseRatedLow) as Hlow.
  pose proof (Htotal Sample.exerciseRatedHigh) as Hhigh.
  rewrite Heq, Hhigh in Hlow. vm_compute in Hlow. discriminate.
Qed.

(** C8 (as amended).  The object the scan fills holds, under every
    vocabulary word met at least once, the number of entries that mention
    it, the sum of their ratings and the word's kind.  A trigger of the
    resulting list carries the capitalized word, the kind and the number of
    occurrences, and nothing else: the list is the same for any two windows
    with the same notes, whatever the ratings are. *)
Theorem trigger_list_carries_word_kind_and_count_only :
  (forall entries kind word, In word (triggerWords kind) ->
     lookup word (triggers entries)
     = if Spec.occurrences word entries =? 0 then None
       else Some {| count := Spec.occurrences word entries;
                    totalImpact := Spec.ratingTotal word entries;
                    type := kind |})
  /\ (forall entries t, In t (triggersArray entries) ->
        exists word kind, In word (triggerWords kind)
          /\ trigger t = JS.capitalize word
          /\ impact t = kind
          /\ frequency t = Spec.occurrences word entries)
  /\ (forall entries entries', map details entries = map details entries' ->
        triggersArray entries = triggersArray entries').
Proof.
  split; [exact triggers_lookup|].
  split; [exact triggersArray_fields | exact triggersArray_ignores_ratings].
Qed.

End TriggerOutput.

(** ** "workout" contains "work" *)

Section Workout.
Import Analytics.

Lemma toLowerCase_append (a b : string) :
  JS.toLowerCase (a ++ b) = (JS.toLowerCase a ++ JS.toLowerCase b)%string.
Proof.
  induction a as [|c a IH]; [reflexivity|].
  rewrite append_cons. cbn [JS.toLowerCase]. rewrite append_cons. now f_equal.
Qed.

(** A word in lower case that occurs in a note occurs in its lower-case
    form. *)
Lemma includes_toLowerCase (text word : string) :
  JS.toLowerCase word = word ->
  JS.includes text word = true -> JS.includes (JS.toLowerCase text) word = true.
Proof.
  intros Hw. rewrite !includes_iff. intros (p & q & ->).
  exists (JS.toLowerCase p), (JS.toLowerCase q). now rewrite !toLowerCase_append, Hw.
Qed.

Lemma mentions_workout_mentions_work (entry : MoodEntry) :
  Spec.mentions "workout" entry = true -> Spec.mentions "work" entry = true.
Proof.
  unfold Spec.mentions. destruct (details entry) as [text|]; [|discriminate].
  apply (includes_prefix _ "work" "out").
Qed.

Lemma workout_bumps_both (t : Triggers) (entry : MoodEntry) :
  Spec.mentions "workout" entry = true ->
  lookup "workout" (analyzeDetails t entry)
  = Some (bumped Positive (rating entry) (lookup "workout" t))
  /\ lookup "work" (analyzeDetails t entry)
     = Some (bumped Negative (rating entry) (lookup "work" t)).
Proof.
  intros Hm. pose proof (mentions_workout_mentions_work entry Hm) as Hm'.
  rewrite (analyzeDetails_lookup t entry Positive "workout"), Hm by (simpl; tauto).
  rewrite (analyzeDetails_lookup t entry Negative "work"), Hm' by (simpl; tauto).
  split; reflexivity.
Qed.

Lemma occurrences_workout_le_work (entries : list MoodEntry) :
  Spec.occurrences "workout" entries <= Spec.occurrences "work" entries.
Proof.
  induction entries as [|e es IH]; [reflexivity|]. rewrite !occurrences_cons.
  pose proof (mentions_workout_mentions_work e) as H.
  destruct (Spec.mentions "workout" e); [rewrite H by reflexivity; lia|].
  destruct (Spec.mentions "work" e); lia.
Qed.

(** C10.  An entry whose note contains "workout" in any mix of cases (its
    lower-case form contains the word; a note containing "workout" as
    written is one) is counted under the positive word "workout" and under
    the negative word "work": after the entry each of the two holds one
    occurrence more and the entry's rating more than before, or 1 and the
    rating if the word is new, with its own kind.  Over a window, both words
    are in the object as soon as "workout" has been met, "work" with at
    least as many occurrences. *)
Theorem workout_counts_as_work_too (t : Triggers) (entry : MoodEntry) (text : string) :
  details entry = Some text ->
  JS.includes (JS.toLowerCase text) "workout" = true ->
  lookup "workout" (analyzeDetails t entry)
  = Some (bumped Positive (rating entry) (lookup "workout" t))
  /\ lookup "work" (analyzeDetails t entry)
     = Some (bumped Negative (rating entry) (lookup "work" t))
  /\ (forall raw, JS.includes raw "workout" = true ->
        JS.includes (JS.toLowerCase raw) "workout" = true)
  /\ (forall entries, In entry entries ->
        lookup "workout" (triggers entries)
        = Some {| count := Spec.occurrences "workout" entries;
                  totalImpact := Spec.ratingTotal "workout" entries;
                  type := Positive |}
        /\ lookup "work" (triggers entries)
           = Some {| count := Spec.occurrences "work" entries;
                     totalImpact := Spec.ratingTotal "work" entries;
                     type := Negative |}
        /\ 1 <= Spec.occurrences "workout" entries <= Spec.occurrences "work" entries).
Proof.
  intros Hd Hinc.
  assert (Spec.mentions "workout" entry = true) as Hm.
  { unfold Spec.mentions. now rewrite Hd. }
  destruct (workout_bumps_both t entry Hm) as [H1 H2].
  split; [exact H1|]. split; [exact H2|].
  split; [intros raw; now apply includes_toLowerCase|].
  intros entries Hin.
  assert (1 <= Spec.occurrences "workout" entries) as Hocc.
  { unfold Spec.occurrences.
    assert (In entry (List.filter (Spec.mentions "workout") entries)) as Hf
      by (apply filter_In; auto).
    destruct (List.filter _ entries); [contradiction | simpl length; lia]. }
  pose proof (occurrences_workout_le_work entries) as Hle.
  rewrite (triggers_lookup entries Positive "workout") by (simpl; tauto).
  rewrite (triggers_lookup entries Negative "work") by (simpl; tauto).
  destruct (Z.eqb_spec (Spec.occurrences "workout" entries) 0); [lia|].
  destruct (Z.eqb_spec (Spec.occurrences "work" entries) 0); [lia|].
  repeat split; lia.
Qed.

(** One note in capitals, on an empty object: both words appear, each with
    one occurrence and the note's rating; two such notes put "Workout"
    (positive) and "Work" (negative) in the trigger list. *)
Lemma workout_counts_as_work_too_witness :
  (lookup "workout" (analyzeDetails [] Sample.morningWorkout)
   = Some {| count := 1; totalImpact := 4; type := Positive |}
   /\ lookup "work" (analyzeDetails [] Sample.morningWorkout)
      = Some {| count := 1; totalImpact := 4; type := Negative |})
  /\ triggersArray Sample.twoWorkouts
     = [ {| trigger := "Workout"; impact := Positive; frequency := 2 |};
         {| trigger := "Work"; impact := Negative; frequency := 2 |} ].
Proof.
  split; [|now vm_compute].
  destruct (workout_counts_as_work_too [] Sample.morningWorkout
              "Morning WORKOUT, felt great" eq_refl eq_refl) as (H1 & H2 & _).
  split; [exact H1 | exact H2].
Defined.

End Workout.

(** ** The report of the analytics screen *)

Section ReportState.
Import Report.

Lemma afterLoads_snoc (zone : TimeZone) (loads : list (option (list MoodEntry)))
    (fetched : option (list MoodEntry)) :
  afterLoads zone (loads ++ [fetched]) = loadMoodData zone fetched (afterLoads zone loads).
Proof. unfold afterLoads. now rewrite fold_left_app. Qed.

(** X1.  Whenever the screen shows the report (the state says there is
    enough data), it holds at least ten entries, and the patterns and the
    triggers shown are the analysis of these very entries, whatever loads,
    failed ones among them, came before. *)
Theorem report_analyses_the_entries_it_holds (zone : TimeZone)
    (loads : list (option (list MoodEntry))) :
  hasEnoughData (afterLoads zone loads) = true ->
  10 <= Z.of_nat (length (moodEntries (afterLoads zone loads)))
  /\ moodPatterns (afterLoads zone loads)
     = Analytics.moodPatterns zone (moodEntries (afterLoads zone loads))
  /\ moodTriggers (afterLoads zone loads)
     = Analytics.triggersArray (moodEntries (afterLoads zone loads)).
Proof.
  induction loads as [|fetched loads IH] using rev_ind.
  - discriminate.
  - rewrite afterLoads_snoc. destruct fetched as [entries|]; [|exact IH].
    cbn [loadMoodData hasEnoughData moodEntries moodPatterns moodTriggers].
    intros H. rewrite H. split; [now apply Z.leb_le|]. now split.
Qed.

End ReportState.

Lemma report_analyses_the_entries_it_holds_witness :
  10 <= Z.of_nat (length (Report.moodEntries
                            (Report.afterLoads UTC [None; Some Sample.yearAndTwoDays; None])))
  /\ Report.moodPatterns (Report.afterLoads UTC [None; Some Sample.yearAndTwoDays; None])
     = Analytics.moodPatterns UTC
         (Report.moodEntries (Report.afterLoads UTC [None; Some Sample.yearAndTwoDays; None]))
  /\ Report.moodTriggers (Report.afterLoads UTC [None; Some Sample.yearAndTwoDays; None])
     = Analytics.triggersArray
         (Report.moodEntries (Report.afterLoads UTC [None; Some Sample.yearAndTwoDays; None])).
Proof.
  apply (report_analyses_the_entries_it_holds UTC [None; Some Sample.yearAndTwoDays; None]).
  reflexivity.
Defined.

Section Find.
Context {A : Type} (f : A -> bool).

Lemma find_first (l : list A) (x : A) :
  List.find f l = Some x
  <-> exists l1 l2, l = l1 ++ x :: l2 /\ f x = true /\ Forall (fun y => f y = false) l1.
Proof.
  split.
  - induction l as [|y l IH]; [discriminate|]. cbn [List.find].
    destruct (f y) eqn:E.
    + intros [= ->]. exists [], l. repeat split; [exact E | constructor].
    + intros H. destruct (IH H) as (l1 & l2 & -> & Hx & Hl1).
      exists (y :: l1), l2. split; [reflexivity|]. split; [exact Hx|]. now constructor.
  - intros (l1 & l2 & -> & Hx & Hl1). induction Hl1 as [|y l1 Hy _ IH].
    + cbn. now rewrite Hx.
    + cbn. now rewrite Hy.
Qed.

Lemma find_none (l : list A) :
  List.find f l = None <-> forall x, In x l -> f x = false.
Proof.
  induction l as [|y l IH]; cbn [List.find].
  - split; [intros _ x []|reflexivity].
  - destruct (f y) eqn:E.
    + split; [discriminate|]. intros H. specialize (H y (or_introl eq_refl)). congruence.
    + rewrite IH. split.
      * intros H x [<-|Hx]; [exact E|now apply H].
      * intros H x Hx. apply H. now right.
Qed.

Lemma find_existsb (l : list A) :
  existsb f l = true <-> exists x, List.find f l = Some x.
Proof.
  induction l as [|y l IH]; cbn.
  - split; [discriminate|now intros [x H]].
  - destruct (f y); cbn; [split; eauto|exact IH].
Qed.

Lemma find_firstn (n : nat) (l : list A) (x : A) :
  List.find f (firstn n l) = Some x -> List.find f l = Some x.
Proof.
  revert n. induction l as [|y l IH]; intros [|n]; cbn; try discriminate.
  destruct (f y); [trivial|apply IH].
Qed.
End Find.

Section Variability.
Import Report.

Lemma Math_min_least (first : Z) (rest : list Z) :
  In (Math_min first rest) (first :: rest)
  /\ forall x, In x (first :: rest) -> Math_min first rest <= x.
Proof.
  unfold Math_min. revert first. induction rest as [|y rest IH]; intros first; cbn [fold_left].
  - split; [now left|]. intros x [<-|[]]. lia.
  - destruct (IH (Z.min first y)) as [Hin Hle]. split.
    + destruct Hin as [Hin|Hin]; [|right; now right].
      rewrite <- Hin. destruct (Z.min_spec first y) as [[_ ->]|[_ ->]]; [now left|right; now left].
    + intros x [<-|[<-|Hx]].
      * specialize (Hle _ (or_introl eq_refl)). lia.
      * specialize (Hle _ (or_introl eq_refl)). lia.
      * apply Hle. now right.
Qed.

Lemma Math_max_greatest (first : Z) (rest : list Z) :
  In (Math_max first rest) (first :: rest)
  /\ forall x, In x (first :: rest) -> x <= Math_max first rest.
Proof.
  unfold Math_max. revert first. induction rest as [|y rest IH]; intros first; cbn [fold_left].
  - split; [now left|]. intros x [<-|[]]. lia.
  - destruct (IH (Z.max first y)) as [Hin Hle]. split.
    + destruct Hin as [Hin|Hin]; [|right; now right].
      rewrite <- Hin. destruct (Z.max_spec first y) as [[_ ->]|[_ ->]]; [right; now left|now left].
    + intros x [<-|[<-|Hx]].
      * specialize (Hle _ (or_introl eq_refl)). lia.
      * specialize (Hle _ (or_introl eq_refl)). lia.
      * apply Hle. now right.
Qed.

(** The spread of the ratings: the two entries it is reached by, and the
    text chosen from it. *)
Lemma moodVariability_range (moodEntries : list MoodEntry) :
  moodEntries <> [] ->
  exists lo hi, In lo moodEntries /\ In hi moodEntries
    /\ (forall e, In e moodEntries -> rating lo <= rating e <= rating hi)
    /\ moodVariability moodEntries
       = if 3 <=? rating hi - rating lo then significant
         else if 2 <=? rating hi - rating lo then moderate else stable.
Proof.
  intros Hne. unfold moodVariability.
  destruct moodEntries as [|e0 rest]; [congruence|]. cbn [map].
  destruct (Math_min_least (rating e0) (map rating rest)) as [Hmin Hle].
  destruct (Math_max_greatest (rating e0) (map rating rest)) as [Hmax Hge].
  change (rating e0 :: map rating rest) with (map rating (e0 :: rest)) in *.
  apply List.in_map_iff in Hmin as (lo & Hlo & Hinlo).
  apply List.in_map_iff in Hmax as (hi & Hhi & Hinhi).
  exists lo, hi. split; [exact Hinlo|]. split; [exact Hinhi|]. split.
  - intros e He. rewrite Hlo, Hhi. split; [apply Hle|apply Hge]; now apply in_map.
  - cbv zeta. now rewrite Hlo, Hhi.
Qed.

Lemma variability_texts_differ :
  significant <> moderate /\ significant <> stable /\ moderate <> stable
  /\ significant <> notEnough /\ moderate <> notEnough /\ stable <> notEnough.
Proof. repeat split; discriminate. Qed.

(** X2.  The text of the Mood Variability card is chosen by the widest gap
    between the ratings of two entries held: "significant" when two
    entries are three or more apart, "moderate" when the widest gap is
    two, "stable" when no two entries are more than one apart; with an
    entry held it is never the "not enough data" text. *)
Theorem variability_is_the_widest_gap_between_two_ratings (moodEntries : list MoodEntry) :
  moodEntries <> [] ->
  (moodVariability moodEntries = significant
   <-> exists a b, In a moodEntries /\ In b moodEntries /\ 3 <= rating a - rating b)
  /\ (moodVariability moodEntries = moderate
      <-> (exists a b, In a moodEntries /\ In b moodEntries /\ rating a - rating b = 2)
          /\ forall a b, In a moodEntries -> In b moodEntries -> rating a - rating b <= 2)
  /\ (moodVariability moodEntries = stable
      <-> forall a b, In a moodEntries -> In b moodEntries -> rating a - rating b <= 1)
  /\ moodVariability moodEntries <> notEnough.
Proof.
  intros Hne. destruct (moodVariability_range moodEntries Hne) as (lo & hi & Hlo & Hhi & Hall & ->).
  destruct variability_texts_differ as (D1 & D2 & D3 & D4 & D5 & D6).
  assert (Hgap : forall a b, In a moodEntries -> In b moodEntries ->
                   rating a - rating b <= rating hi - rating lo).
  { intros a b Ha Hb. pose proof (Hall a Ha). pose proof (Hall b Hb). lia. }
  destruct (Z.leb_spec 3 (rating hi - rating lo)) as [H3|H3];
    [|destruct (Z.leb_spec 2 (rating hi - rating lo)) as [H2|H2]].
  - split; [|split; [|split]]; try easy.
    + split; [intros _; now exists hi, lo|reflexivity].
    + split; [congruence|]. intros [_ H]. specialize (H hi lo Hhi Hlo). lia.
    + split; [congruence|]. intros H. specialize (H hi lo Hhi Hlo). lia.
  - split; [|split; [|split]]; try easy.
    + split; [congruence|]. intros (a & b & Ha & Hb & Hab). specialize (Hgap a b Ha Hb). lia.
    + split; [intros _|reflexivity]. split.
      * exists hi, lo. repeat split; try assumption. lia.
      * intros a b Ha Hb. specialize (Hgap a b Ha Hb). lia.
    + split; [congruence|]. intros H. specialize (H hi lo Hhi Hlo). lia.
  - split; [|split; [|split]]; try easy.
    + split; [congruence|]. intros (a & b & Ha & Hb & Hab). specialize (Hgap a b Ha Hb). lia.
    + split; [congruence|]. intros [(a & b & Ha & Hb & Hab) _]. specialize (Hgap a b Ha Hb). lia.
    + split; [intros _|reflexivity]. intros a b Ha Hb. specialize (Hgap a b Ha Hb). lia.
Qed.

Lemma variability_is_the_widest_gap_between_two_ratings_witness :
  moodVariability Sample.weekendFives = significant
  <-> exists a b, In a Sample.weekendFives /\ In b Sample.weekendFives
                  /\ 3 <= rating a - rating b.
Proof.
  apply (variability_is_the_widest_gap_between_two_ratings Sample.weekendFives).
  discriminate.
Defined.
End Variability.

Lemma sorted_after {A : Type} (R : A -> A -> Prop) (l1 l2 : list A) (x : A) :
  StronglySorted R (l1 ++ x :: l2) -> Forall (R x) l2.
Proof.
  induction l1 as [|y l1 IH]; cbn; intros H.
  - now inversion H.
  - inversion H; subst. now apply IH.
Qed.


Section TriggerCards.
Import Analytics Report.

Lemma sorted_triggers_In (entries : list MoodEntry) (t : MoodTrigger) :
  In t (JS.sort byFrequency (frequentTriggers entries)) <-> In t (frequentTriggers entries).
Proof.
  split; apply Permutation_in; [|symmetry]; apply sort_permutation.
Qed.

Lemma vocabulary_lower (kind : Impact) (word : string) :
  In word (triggerWords kind) ->
  JS.toLowerCase (JS.capitalize word) = word /\ word <> ""%string.
Proof.
  destruct kind; cbn [triggerWords In]; intros H;
    repeat (destruct H as [<-|H]; [split; [reflexivity|discriminate]|]); destruct H.
Qed.

Lemma vocabulary_kind (kind kind' : Impact) (word : string) :
  In word (triggerWords kind) -> In word (triggerWords kind') -> kind = kind'.
Proof.
  intros H H'. destruct kind, kind'; try reflexivity;
    apply vocabulary_word in H as (_ & H & _); cbn [other] in H;
    apply vocabulary_word in H' as (H' & _); congruence.
Qed.


(** The first listed trigger of a kind is the most mentioned word of that
    kind. *)
Lemma first_of_kind (entries : list MoodEntry) (kind : Impact) (t : MoodTrigger) :
  List.find (hasImpact kind) (triggersArray entries) = Some t ->
  exists word, In word (triggerWords kind)
    /\ 2 <= Spec.occurrences word entries
    /\ (forall word', In word' (triggerWords kind) ->
          Spec.occurrences word' entries <= Spec.occurrences word entries)
    /\ t = {| trigger := JS.capitalize word; impact := kind;
              frequency := Spec.occurrences word entries |}.
Proof.
  intros Hfind. apply find_firstn in Hfind.
  apply find_first in Hfind as (l1 & l2 & Hl & Ht & Hl1).
  assert (In t (frequentTriggers entries)) as Hin.
  { apply sorted_triggers_In. rewrite Hl. apply in_or_app. right. now left. }
  apply frequentTriggers_In in Hin as (word & kind' & Hw & Ho & ->).
  assert (kind' = kind) as -> by (unfold hasImpact in Ht; cbn in Ht; now destruct kind', kind).
  exists word. split; [exact Hw|]. split; [exact Ho|]. split; [|reflexivity].
  intros word' Hw'. destruct (Z.lt_ge_cases (Spec.occurrences word' entries) 2) as [|Ho']; [lia|].
  assert (In {| trigger := JS.capitalize word'; impact := kind;
                frequency := Spec.occurrences word' entries |}
            (JS.sort byFrequency (frequentTriggers entries))) as Hin'.
  { apply sorted_triggers_In, frequentTriggers_In. now exists word', kind. }
  rewrite Hl in Hin'. apply in_app_or in Hin' as [Hin'|[Heq|Hin']].
  - rewrite List.Forall_forall in Hl1. apply Hl1 in Hin'. unfold hasImpact in Hin'. cbn in Hin'.
    now destruct kind.
  - injection Heq as _ Heq. lia.
  - pose proof (sort_sorted byFrequency frequency byFrequency_key (frequentTriggers entries)) as Hs.
    rewrite Hl in Hs. apply sorted_after in Hs. rewrite List.Forall_forall in Hs.
    apply Hs in Hin'. exact Hin'.
Qed.

(** X4.  When a trigger of a kind is listed, the tip about that kind
    quotes, in lower case, a word of that kind that no word of the kind
    occurs more often than, and never falls back on the generic name. *)
Theorem tips_quote_the_most_mentioned_word (entries : list MoodEntry) (kind : Impact) :
  existsb (hasImpact kind) (triggersArray entries) = true ->
  exists word, In word (triggerWords kind)
    /\ 2 <= Spec.occurrences word entries
    /\ (forall word', In word' (triggerWords kind) ->
          Spec.occurrences word' entries <= Spec.occurrences word entries)
    /\ (forall fallback, triggerName kind fallback (triggersArray entries) = word)
    /\ (kind = Positive ->
        positiveTip (triggersArray entries)
        = ("Consider increasing activities involving " ++ quote ++ word ++ quote
           ++ " as they seem to boost your mood.")%string)
    /\ (kind = Negative ->
        negativeTip (triggersArray entries)
        = ("Be mindful of how " ++ quote ++ word ++ quote
           ++ " affects your mood and develop strategies to manage it.")%string).
Proof.
  intros Hex. pose proof Hex as Hfind. apply find_existsb in Hfind as [t Hfind].
  destruct (first_of_kind entries kind t Hfind) as (word & Hw & Ho & Hmost & ->).
  destruct (vocabulary_lower kind word Hw) as [Hlower Hne].
  assert (Hname : forall fallback, triggerName kind fallback (triggersArray entries) = word).
  { intros fallback. unfold triggerName. rewrite Hfind. cbn [trigger]. rewrite Hlower.
    unfold orElse. destruct (String.eqb_spec word ""); congruence. }
  assert (Hlen : (0 <? Z.of_nat (length (triggersArray entries))) = true).
  { apply nonempty_length. intros E. rewrite E in Hfind. discriminate. }
  exists word. split; [exact Hw|]. split; [exact Ho|]. split; [exact Hmost|].
  split; [exact Hname|]. split; intros ->.
  - unfold positiveTip. now rewrite Hlen, Hex, Hname.
  - unfold negativeTip. now rewrite Hlen, Hex, Hname.
Qed.

Lemma tips_quote_the_most_mentioned_word_witness :
  exists word, In word (triggerWords Positive)
    /\ 2 <= Spec.occurrences word Sample.sevenWords
    /\ (forall word', In word' (triggerWords Positive) ->
          Spec.occurrences word' Sample.sevenWords <= Spec.occurrences word Sample.sevenWords)
    /\ (forall fallback, triggerName Positive fallback (triggersArray Sample.sevenWords) = word)
    /\ (Positive = Positive ->
        positiveTip (triggersArray Sample.sevenWords)
        = ("Consider increasing activities involving " ++ quote ++ word ++ quote
           ++ " as they seem to boost your mood.")%string)
    /\ (Positive = Negative ->
        negativeTip (triggersArray Sample.sevenWords)
        = ("Be mindful of how " ++ quote ++ word ++ quote
           ++ " affects your mood and develop strategies to manage it.")%string).
Proof.
  apply (tips_quote_the_most_mentioned_word Sample.sevenWords Positive). now vm_compute.
Defined.
End TriggerCards.

Lemma find_app {A : Type} (f : A -> bool) (l1 l2 : list A) :
  List.find f (l1 ++ l2)
  = match List.find f l1 with Some x => Some x | None => List.find f l2 end.
Proof. induction l1 as [|y l1 IH]; cbn; [reflexivity|]. now destruct (f y). Qed.

Lemma xvalue_antisym (a b : JS.xvalue) : ~ JS.xlt a b -> ~ JS.xlt b a -> a = b.
Proof. destruct a, b; cbn; intros; try tauto. f_equal. lia. Qed.

Section DipDayTip.
Import Analytics Report.
Context (zone : TimeZone).

Lemma pushIfMood_cases (d : option DayBucket) (make : string -> spec_float -> MoodPattern) :
  (pushIfMood d make = []
   /\ forall b a, d = Some b -> averageMood b = Some a -> JS.truthy a = false)
  \/ exists b a, d = Some b /\ averageMood b = Some a /\ JS.truthy a = true
       /\ pushIfMood d make = [make (day b) a].
Proof.
  unfold pushIfMood. destruct d as [b|]; [|left; split; [reflexivity|discriminate]].
  destruct (averageMood b) as [a|] eqn:Ea;
    [|left; split; [reflexivity|intros b' a' [= <-]; congruence]].
  destruct (JS.truthy a) eqn:Et.
  - right. exists b, a. now rewrite Ea, Et.
  - left. split; [reflexivity|]. intros b' a' [= <-]. rewrite Ea. now intros [= <-].
Qed.

Lemma weekendRule_no_dip (entries : list MoodEntry) :
  List.find isDipDay (weekendRule zone entries) = None.
Proof.
  unfold weekendRule. cbv zeta.
  destruct (_ && _ && _); [|reflexivity]. now destruct (JS.gt _ _).
Qed.

Lemma find_dip (entries : list MoodEntry) :
  List.find isDipDay (Analytics.moodPatterns zone entries)
  = hd_error (pushIfMood (lowestMoodDay zone entries) dipDay).
Proof.
  unfold Analytics.moodPatterns. rewrite !find_app, weekendRule_no_dip.
  destruct (pushIfMood_cases (highestMoodDay zone entries) peakDay)
    as [[-> _]|(b & a & _ & _ & _ & ->)];
    destruct (pushIfMood_cases (lowestMoodDay zone entries) dipDay)
    as [[-> _]|(b' & a' & _ & _ & _ & ->)]; reflexivity.
Qed.

Lemma day_of_week_nonempty (name : string) : In name daysOfWeek -> name <> ""%string.
Proof.
  cbn. intros H. repeat (destruct H as [<-|H]; [discriminate|]). destruct H.
Qed.

(** X5.  When the pattern list holds a Dip Day, the first tip names the
    day of the bucket the Dip Day rule selected, one of the seven
    weekdays, and never falls back on "your dip days". *)
Theorem dip_day_tip_names_the_lowest_day (entries : list MoodEntry) :
  existsb isDipDay (Analytics.moodPatterns zone entries) = true ->
  exists h, lowestMoodDay zone entries = Some h
    /\ In (day h) daysOfWeek
    /\ dipDayName (Analytics.moodPatterns zone entries) = day h
    /\ dipDayTip (Analytics.moodPatterns zone entries)
       = ("Plan enjoyable activities for " ++ day h ++ " to help boost your mood.")%string.
Proof.
  intros Hex. pose proof Hex as Hfind. apply find_existsb in Hfind as [p Hfind].
  rewrite find_dip in Hfind.
  destruct (pushIfMood_cases (lowestMoodDay zone entries) dipDay)
    as [[E _]|(h & a & Hlow & Ha & Ht & E)]; rewrite E in Hfind; [discriminate|].
  injection Hfind as <-.
  assert (In (day h) daysOfWeek) as Hday.
  { rewrite <- (entriesByDay_days zone entries). apply in_map.
    now apply (selected_has_data zone entries h (or_intror Hlow)). }
  assert (dipDayName (Analytics.moodPatterns zone entries) = day h) as Hname.
  { unfold dipDayName. rewrite find_dip, E. cbn [hd_error dipDay pattern_day].
    unfold orElse. destruct (String.eqb_spec (day h) ""); [|reflexivity].
    now apply day_of_week_nonempty in Hday. }
  exists h. split; [exact Hlow|]. split; [exact Hday|]. split; [exact Hname|].
  unfold dipDayTip. rewrite Hex, Hname.
  replace (0 <? Z.of_nat (length (Analytics.moodPatterns zone entries))) with true;
    [reflexivity|].
  symmetry. apply nonempty_length. intros E'. rewrite E' in Hex. discriminate.
Qed.

End DipDayTip.

Lemma dip_day_tip_names_the_lowest_day_witness :
  exists h, Analytics.lowestMoodDay UTC Sample.weekendFives = Some h
    /\ In (Analytics.day h) Analytics.daysOfWeek
    /\ Report.dipDayName (Analytics.moodPatterns UTC Sample.weekendFives) = Analytics.day h
    /\ Report.dipDayTip (Analytics.moodPatterns UTC Sample.weekendFives)
       = ("Plan enjoyable activities for " ++ Analytics.day h
          ++ " to help boost your mood.")%string.
Proof.
  apply (dip_day_tip_names_the_lowest_day UTC Sample.weekendFives). now vm_compute.
Defined.

Section OneDay.
Import Analytics.
Context (zone : TimeZone).

Lemma data_bucket_has_entry (entries : list MoodEntry) (b : DayBucket) :
  In b (List.filter hasData (entriesByDay zone entries)) ->
  exists entry, In entry entries /\ b = bucket zone entries (dayName zone entry).
Proof.
  rewrite filter_In. intros [Hb Hd]. unfold entriesByDay in Hb.
  apply List.in_map_iff in Hb as (name & <- & _).
  unfold hasData in Hd. cbn [bucket averageMood] in Hd.
  destruct (List.filter _ entries) as [|entry rest] eqn:E; [discriminate|].
  assert (In entry (List.filter (fun entry => String.eqb (dayName zone entry) name) entries))
    as Hin by (rewrite E; now left).
  apply filter_In in Hin as [Hin Hname]. apply String.eqb_eq in Hname.
  exists entry. now rewrite Hname.
Qed.

(** X6.  The Peak Day and the Dip Day rule select the same bucket exactly
    when all buckets that have data are of the same value; this is so, in
    particular, when all entries fall on one weekday, and the two patterns
    then name the same day. *)
Theorem peak_and_dip_coincide_when_days_are_alike (entries : list MoodEntry)
    (h l : DayBucket) :
  highestMoodDay zone entries = Some h -> lowestMoodDay zone entries = Some l ->
  (h = l <-> forall b, In b (List.filter hasData (entriesByDay zone entries)) ->
                       moodValue b = moodValue h)
  /\ ((forall e e', In e entries -> In e' entries ->
         getDay zone (date e) = getDay zone (date e')) ->
      h = l).
Proof.
  intros Hh Hl.
  apply highestMoodDay_firstMaximum in Hh as (h1 & h2 & Eh & Hh1 & Hh2).
  apply lowestMoodDay_firstMinimum in Hl as (l1 & l2 & El & Hl1 & Hl2).
  rewrite List.Forall_forall in Hh1, Hh2, Hl1, Hl2.
  assert (Hiff : h = l <-> forall b, In b (List.filter hasData (entriesByDay zone entries)) ->
                                     moodValue b = moodValue h).
  { split.
    - intros <- b Hb.
      assert (~ JS.xlt (moodValue h) (moodValue b)) as Hle.
      { rewrite Eh in Hb. apply in_app_or in Hb as [Hb|[<-|Hb]].
        - intros Hlt. apply (xlt_irrefl (moodValue b)).
          eapply xlt_trans; [now apply Hh1|exact Hlt].
        - apply xlt_irrefl.
        - now apply Hh2. }
      apply xvalue_antisym; [|exact Hle].
      rewrite El in Hb. apply in_app_or in Hb as [Hb|[<-|Hb]].
      + exfalso. apply Hle. now apply Hl1.
      + apply xlt_irrefl.
      + now apply Hl2.
    - intros Hsame.
      assert (h1 = []) as ->.
      { destruct h1 as [|b h1]; [reflexivity|]. exfalso.
        pose proof (Hh1 b (or_introl eq_refl)) as Hlt.
        rewrite (Hsame b) in Hlt by (rewrite Eh; now left).
        now apply xlt_irrefl in Hlt. }
      assert (l1 = []) as ->.
      { destruct l1 as [|b l1]; [reflexivity|]. exfalso.
        pose proof (Hl1 b (or_introl eq_refl)) as Hlt.
        rewrite (Hsame l), (Hsame b) in Hlt.
        - now apply xlt_irrefl in Hlt.
        - rewrite El. now left.
        - rewrite El. apply in_or_app. right. now left. }
      rewrite Eh in El. now injection El. }
  split; [exact Hiff|].
  intros Hday. apply Hiff. intros b Hb.
  assert (In h (List.filter hasData (entriesByDay zone entries))) as Hin
    by (rewrite Eh; apply in_or_app; right; now left).
  apply data_bucket_has_entry in Hb as (e & He & ->).
  apply data_bucket_has_entry in Hin as (e' & He' & ->).
  unfold dayName. now rewrite (Hday e e' He He').
Qed.

End OneDay.

Lemma peak_and_dip_coincide_when_days_are_alike_witness :
  Analytics.highestMoodDay UTC Sample.threeAndFour
  = Some (Analytics.bucket UTC Sample.threeAndFour "Sunday")
  /\ Analytics.lowestMoodDay UTC Sample.threeAndFour
     = Some (Analytics.bucket UTC Sample.threeAndFour "Sunday")
  /\ forall b, In b (List.filter Analytics.hasData (Analytics.entriesByDay UTC Sample.threeAndFour)) ->
               Analytics.moodValue b
               = Analytics.moodValue (Analytics.bucket UTC Sample.threeAndFour "Sunday").
Proof.
  assert (Analytics.highestMoodDay UTC Sample.threeAndFour
          = Some (Analytics.bucket UTC Sample.threeAndFour "Sunday")) as Hh
    by (vm_compute; reflexivity).
  assert (Analytics.lowestMoodDay UTC Sample.threeAndFour
          = Some (Analytics.bucket UTC Sample.threeAndFour "Sunday")) as Hl
    by (vm_compute; reflexivity).
  split; [exact Hh|]. split; [exact Hl|].
  now apply (peak_and_dip_coincide_when_days_are_alike UTC Sample.threeAndFour _ _ Hh Hl).
Defined.

(** ** The face of a day and of a week *)

Section RoundedMood.
Import HomeScreen Rounding.

Lemma roundedMean_nearest (rows : list MoodEntry) :
  rows <> [] ->
  2 * Z.of_nat (length rows) * roundedMean rows
  <= 2 * sumRatings rows + Z.of_nat (length rows)
  < 2 * Z.of_nat (length rows) * roundedMean rows + 2 * Z.of_nat (length rows).
Proof.
  intros Hne.
  assert (0 < Z.of_nat (length rows)) as Hn by (destruct rows; [congruence|cbn [length]; lia]).
  unfold roundedMean.
  pose proof (Z.div_mod (2 * sumRatings rows + Z.of_nat (length rows))
                (2 * Z.of_nat (length rows)) ltac:(lia)) as Hdiv.
  pose proof (Z.mod_pos_bound (2 * sumRatings rows + Z.of_nat (length rows))
                (2 * Z.of_nat (length rows)) ltac:(lia)) as Hmod.
  lia.
Qed.

Lemma face_of_a_rating (r : Z) :
  1 <= r <= 5 ->
  getMoodEmoji (Some (JS.of_int r)) <> getMoodEmoji None
  /\ getMoodColor (Some (JS.of_int r))
     = nth (Z.to_nat (r - 1)) [mood1; mood2; mood3; mood4; mood5] text.
Proof.
  intros Hr.
  assert (r = 1 \/ r = 2 \/ r = 3 \/ r = 4 \/ r = 5) as Hcases by lia.
  destruct Hcases as [-> | [-> | [-> | [-> | ->]]]]; split; (discriminate || reflexivity).
Qed.

(** X7.  The mood of a day with entries rated 1 to 5 is their mean
    rounded to the nearest rating in exact arithmetic, a tie going up:
    the binary64 division and [Math.round] lose nothing.  It is a rating
    itself, so that the cell shows one of the five faces in one of the
    five mood colours, never the dash. *)
Theorem day_mood_is_the_mean_rounded_half_up (dayEntries : list MoodEntry) :
  dayEntries <> [] -> Z.of_nat (length dayEntries) < 1125899906842624 ->
  (forall entry, In entry dayEntries -> 1 <= rating entry <= 5) ->
  exists r,
    dayAverage dayEntries = Some (JS.of_int r)
    /\ 1 <= r <= 5
    /\ 2 * Z.of_nat (length dayEntries) * r
       <= 2 * sumRatings dayEntries + Z.of_nat (length dayEntries)
       < 2 * Z.of_nat (length dayEntries) * r + 2 * Z.of_nat (length dayEntries)
    /\ getMoodEmoji (dayAverage dayEntries) <> getMoodEmoji None
    /\ getMoodColor (dayAverage dayEntries)
       = nth (Z.to_nat (r - 1)) [mood1; mood2; mood3; mood4; mood5] text.
Proof.
  intros Hne Hlen Hr.
  destruct (Math_round_mean dayEntries Hne Hlen Hr) as (a & Ha & _ & Hround).
  pose proof (roundedMean_range dayEntries Hne Hr) as Hrange.
  exists (roundedMean dayEntries).
  assert (dayAverage dayEntries = Some (JS.of_int (roundedMean dayEntries))) as E
    by (unfold dayAverage; rewrite Ha; cbn [option_map]; now rewrite Hround).
  split; [exact E|]. split; [exact Hrange|].
  split; [now apply roundedMean_nearest|].
  rewrite E. now apply face_of_a_rating.
Qed.

(** X8.  The Weekly Mood cell of a week with entries rated 1 to 5 shows
    the face and the colour of the week's mean rounded to the nearest
    rating in exact arithmetic, a tie going up; the mean is never taken
    for a missing one. *)
Theorem weekly_mood_is_the_face_of_the_rounded_mean (weekRows : list MoodEntry) :
  weekRows <> [] -> Z.of_nat (length weekRows) < 1125899906842624 ->
  (forall entry, In entry weekRows -> 1 <= rating entry <= 5) ->
  exists r,
    roundedOrNull (average weekRows) = Some (JS.of_int r)
    /\ weeklyMoodEmoji (average weekRows) = getMoodEmoji (Some (JS.of_int r))
    /\ 1 <= r <= 5
    /\ 2 * Z.of_nat (length weekRows) * r
       <= 2 * sumRatings weekRows + Z.of_nat (length weekRows)
       < 2 * Z.of_nat (length weekRows) * r + 2 * Z.of_nat (length weekRows)
    /\ weeklyMoodEmoji (average weekRows) <> getMoodEmoji None
    /\ getMoodColor (roundedOrNull (average weekRows))
       = nth (Z.to_nat (r - 1)) [mood1; mood2; mood3; mood4; mood5] text.
Proof.
  intros Hne Hlen Hr.
  destruct (Math_round_mean weekRows Hne Hlen Hr) as (a & Ha & Ht & Hround).
  pose proof (roundedMean_range weekRows Hne Hr) as Hrange.
  exists (roundedMean weekRows).
  assert (roundedOrNull (average weekRows) = Some (JS.of_int (roundedMean weekRows))) as E
    by (unfold roundedOrNull; now rewrite Ha, Ht, Hround).
  assert (weeklyMoodEmoji (average weekRows)
          = getMoodEmoji (Some (JS.of_int (roundedMean weekRows)))) as E'
    by (unfold weeklyMoodEmoji; now rewrite Ha, Ht, Hround).
  split; [exact E|]. split; [exact E'|]. split; [exact Hrange|].
  split; [now apply roundedMean_nearest|].
  rewrite E, E'. now apply face_of_a_rating.
Qed.

End RoundedMood.

Lemma day_mood_is_the_mean_rounded_half_up_witness :
  exists r,
    HomeScreen.dayAverage Sample.threeAndFour = Some (JS.of_int r)
    /\ 1 <= r <= 5
    /\ 2 * Z.of_nat (length Sample.threeAndFour) * r
       <= 2 * sumRatings Sample.threeAndFour + Z.of_nat (length Sample.threeAndFour)
       < 2 * Z.of_nat (length Sample.threeAndFour) * r
         + 2 * Z.of_nat (length Sample.threeAndFour)
    /\ HomeScreen.getMoodEmoji (HomeScreen.dayAverage Sample.threeAndFour)
       <> HomeScreen.getMoodEmoji None
    /\ HomeScreen.getMoodColor (HomeScreen.dayAverage Sample.threeAndFour)
       = nth (Z.to_nat (r - 1))
           [HomeScreen.mood1; HomeScreen.mood2; HomeScreen.mood3; HomeScreen.mood4;
            HomeScreen.mood5] HomeScreen.text.
Proof.
  apply (day_mood_is_the_mean_rounded_half_up Sample.threeAndFour).
  - discriminate.
  - reflexivity.
  - intros entry Hin. vm_compute in Hin. intuition (subst; vm_compute; intuition discriminate).
Defined.

Lemma weekly_mood_is_the_face_of_the_rounded_mean_witness :
  exists r,
    HomeScreen.roundedOrNull (average Sample.weekendFives) = Some (JS.of_int r)
    /\ HomeScreen.weeklyMoodEmoji (average Sample.weekendFives)
       = HomeScreen.getMoodEmoji (Some (JS.of_int r))
    /\ 1 <= r <= 5
    /\ 2 * Z.of_nat (length Sample.weekendFives) * r
       <= 2 * sumRatings Sample.weekendFives + Z.of_nat (length Sample.weekendFives)
       < 2 * Z.of_nat (length Sample.weekendFives) * r
         + 2 * Z.of_nat (length Sample.weekendFives)
    /\ HomeScreen.weeklyMoodEmoji (average Sample.weekendFives) <> HomeScreen.getMoodEmoji None
    /\ HomeScreen.getMoodColor (HomeScreen.roundedOrNull (average Sample.weekendFives))
       = nth (Z.to_nat (r - 1))
           [HomeScreen.mood1; HomeScreen.mood2; HomeScreen.mood3; HomeScreen.mood4;
            HomeScreen.mood5] HomeScreen.text.
Proof.
  apply (weekly_mood_is_the_face_of_the_rounded_mean Sample.weekendFives).
  - discriminate.
  - reflexivity.
  - intros entry Hin. vm_compute in Hin. intuition (subst; vm_compute; intuition discriminate).
Defined.

(** ** The date navigation *)

Section Navigation.
Import HomeScreen Summary.

Lemma after_snoc (presses : list Press) (p : Press) :
  after (presses ++ [p]) = press (after presses) p.
Proof. unfold after. now rewrite fold_left_app. Qed.

Lemma offset_nonneg (presses : list Press) : 0 <= dateOffset (after presses).
Proof.
  induction presses as [|p presses IH] using rev_ind; [reflexivity|].
  rewrite after_snoc.
  destruct p; cbn [press navigateToPrevious resetToToday toggleTimePeriod dateOffset];
    try lia.
  unfold navigateToNext, canNavigateForward.
  destruct (Z.ltb_spec 0 (dateOffset (after presses))); cbn [dateOffset]; lia.
Qed.

(** X9.  Whatever is pressed, the offset of the summary from today never
    becomes negative: the summary never shows a day or a week after the
    current one.  The forward arrow does something exactly when the offset
    is positive, it undoes the backward arrow, and switching between the
    day view and the week view goes back to the current day or week. *)
Theorem navigation_never_passes_today (presses : list Press) :
  0 <= dateOffset (after presses)
  /\ (canNavigateForward (after presses) = true <-> 0 < dateOffset (after presses))
  /\ (canNavigateForward (after presses) = false <-> dateOffset (after presses) = 0)
  /\ navigateToNext (navigateToPrevious (after presses)) = after presses
  /\ (canNavigateForward (after presses) = false ->
      navigateToNext (after presses) = after presses)
  /\ (canNavigateForward (after presses) = true ->
      dateOffset (navigateToNext (after presses)) = dateOffset (after presses) - 1)
  /\ dateOffset (toggleTimePeriod (after presses)) = 0
  /\ summaryTimePeriod (toggleTimePeriod (after presses))
     <> summaryTimePeriod (after presses)
  /\ toggleTimePeriod (toggleTimePeriod (after presses)) = resetToToday (after presses).
Proof.
  pose proof (offset_nonneg presses) as H. set (s := after presses) in *.
  split; [exact H|].
  split; [unfold canNavigateForward; apply Z.ltb_lt|].
  split; [unfold canNavigateForward; rewrite Z.ltb_ge; lia|].
  split.
  { unfold navigateToNext, navigateToPrevious, canNavigateForward.
    cbn [dateOffset summaryTimePeriod].
    destruct (Z.ltb_spec 0 (dateOffset s + 1)); [|lia].
    destruct s as [period offset]. cbn. f_equal. lia. }
  split; [unfold navigateToNext; now intros ->|].
  split; [unfold navigateToNext; now intros ->|].
  split; [reflexivity|].
  split; [destruct s as [[|] offset]; discriminate|].
  destruct s as [[|] offset]; reflexivity.
Qed.

End Navigation.

(** ** The chart *)

Section Chart.
Import Report.

Lemma orZero_id (d : Z) : orZero d = d.
Proof. unfold orZero. destruct (Z.eqb_spec d 0); congruence. Qed.

Lemma chartValue_none (moodEntries : list MoodEntry) (zone : TimeZone) (now i : Z) :
  (forall e, In e moodEntries -> date e <> chartDate zone now i) ->
  chartValue moodEntries zone now i = 0.
Proof.
  intros H. unfold chartValue.
  destruct (List.find _ moodEntries) as [e|] eqn:E; [|reflexivity].
  apply find_first in E as (l1 & l2 & -> & He & _). apply Z.eqb_eq in He.
  exfalso. apply (H e); [|exact He]. apply in_or_app. right. now left.
Qed.

Lemma chartValue_first (moodEntries l1 l2 : list MoodEntry) (e : MoodEntry)
    (zone : TimeZone) (now i : Z) :
  moodEntries = l1 ++ e :: l2 -> date e = chartDate zone now i ->
  Forall (fun e' => date e' <> chartDate zone now i) l1 ->
  chartValue moodEntries zone now i = rating e.
Proof.
  intros -> He Hl1. unfold chartValue.
  replace (List.find _ (l1 ++ e :: l2)) with (Some e); [reflexivity|].
  symmetry. apply find_first. exists l1, l2. split; [reflexivity|].
  split; [now apply Z.eqb_eq|].
  eapply List.Forall_impl; [|exact Hl1]. cbn. intros a Ha. now apply Z.eqb_neq.
Qed.

Lemma chartValue_zero (moodEntries : list MoodEntry) (zone : TimeZone) (now i : Z) :
  (forall e, In e moodEntries -> 1 <= rating e) ->
  chartValue moodEntries zone now i = 0 ->
  forall e, In e moodEntries -> date e <> chartDate zone now i.
Proof.
  intros Hr H. unfold chartValue in H.
  destruct (List.find _ moodEntries) as [e|] eqn:E.
  - apply find_first in E as (l1 & l2 & -> & _ & _).
    assert (1 <= rating e) by (apply Hr, in_or_app; right; now left). lia.
  - intros e He. apply Z.eqb_neq. revert e He. now apply find_none.
Qed.

Lemma getChartData_points (moodEntries : list MoodEntry) (zone : TimeZone) (now : Z) :
  labels (getChartData moodEntries zone now)
  = map (chartLabel zone now) [7; 6; 5; 4; 3; 2; 1; 0]
  /\ data (getChartData moodEntries zone now)
     = map (chartValue moodEntries zone now) [7; 6; 5; 4; 3; 2; 1; 0].
Proof.
  split; [reflexivity|].
  unfold getChartData. cbn [chartLoop app data map]. now rewrite !orZero_id.
Qed.

Lemma Day_earlier (t i : Z) : Day (t - i * msPerDay) = Day t - i.
Proof.
  unfold Day. replace (t - i * msPerDay) with (t + (- i) * msPerDay) by lia.
  rewrite Z.div_add by (unfold msPerDay; lia). lia.
Qed.

(** X10.  The chart headed "Past 7 days" has eight points, the oldest
    first: point [k] belongs to the day [7 - k] days back, and the last one
    is labelled Today.  A point plots the rating of the first entry held
    whose date is the date that day has in UTC, and 0 when no entry has
    that date; as ratings are 1 at least, a point of 0 says that there is
    no entry.  The other labels are the first two letters of the weekday
    that day has in local time.  In a zone at a fixed offset from UTC the
    dates are the eight consecutive dates that end with today's date in
    UTC, while the labels name the weekdays of the eight that end with
    today's local date. *)
Theorem chart_plots_the_first_entry_of_eight_days (moodEntries : list MoodEntry)
    (zone : TimeZone) (now k : Z) :
  0 <= k <= 7 ->
  length (labels (getChartData moodEntries zone now)) = 8%nat
  /\ length (data (getChartData moodEntries zone now)) = 8%nat
  /\ nth (Z.to_nat k) (labels (getChartData moodEntries zone now)) ""%string
     = (if k =? 7 then "Today"%string
        else substring 0 2
               (nth (Z.to_nat (WeekDay (LocalTime zone (daysEarlier zone now (7 - k)))))
                  Analytics.daysOfWeek ""%string))
  /\ ((forall e, In e moodEntries -> date e <> chartDate zone now (7 - k)) ->
      nth (Z.to_nat k) (data (getChartData moodEntries zone now)) 0 = 0)
  /\ (forall l1 e l2, moodEntries = l1 ++ e :: l2 -> date e = chartDate zone now (7 - k) ->
        Forall (fun e' => date e' <> chartDate zone now (7 - k)) l1 ->
        nth (Z.to_nat k) (data (getChartData moodEntries zone now)) 0 = rating e)
  /\ ((forall e, In e moodEntries -> 1 <= rating e) ->
      (nth (Z.to_nat k) (data (getChartData moodEntries zone now)) 0 = 0
       <-> forall e, In e moodEntries -> date e <> chartDate zone now (7 - k)))
  /\ (forall offset,
        chartDate (fixed offset) now (7 - k) = Day now - (7 - k)
        /\ WeekDay (LocalTime (fixed offset) (daysEarlier (fixed offset) now (7 - k)))
           = weekday (Day (now + offset) - (7 - k))).
Proof.
  intros Hk.
  destruct (getChartData_points moodEntries zone now) as [-> ->].
  split; [reflexivity|]. split; [reflexivity|].
  assert (nth (Z.to_nat k) (map (chartValue moodEntries zone now) [7; 6; 5; 4; 3; 2; 1; 0]) 0
          = chartValue moodEntries zone now (7 - k)
          /\ nth (Z.to_nat k) (map (chartLabel zone now) [7; 6; 5; 4; 3; 2; 1; 0]) ""%string
             = chartLabel zone now (7 - k)) as (-> & ->).
  { assert (k = 0 \/ k = 1 \/ k = 2 \/ k = 3 \/ k = 4 \/ k = 5 \/ k = 6 \/ k = 7) as Hc by lia.
    repeat (destruct Hc as [-> | Hc]); try subst k; now split. }
  split.
  { unfold chartLabel.
    destruct (Z.eqb_spec (7 - k) 0), (Z.eqb_spec k 7); try lia; reflexivity. }
  split; [apply chartValue_none|].
  split; [intros l1 e l2; apply chartValue_first|].
  split; [intros Hr; split; [now apply chartValue_zero|apply chartValue_none]|].
  intros offset. unfold chartDate, dateString, daysEarlier, toUTC, LocalTime, WeekDay, weekday.
  cbn [fixed atInstant atLocalTime].
  replace (now + offset - (7 - k) * msPerDay - offset) with (now - (7 - k) * msPerDay) by lia.
  replace (now - (7 - k) * msPerDay + offset) with (now + offset - (7 - k) * msPerDay) by lia.
  now rewrite !Day_earlier.
Qed.

End Chart.

Lemma chart_plots_the_first_entry_of_eight_days_witness :
  nth 7 (Report.data (Report.getChartData Sample.todayAndAWeekAgo Sample.newYork
                        (midnight Sample.sunday + 2 * msPerHour))) 0 = 5
  /\ nth 7 (Report.labels (Report.getChartData Sample.todayAndAWeekAgo Sample.newYork
                             (midnight Sample.sunday + 2 * msPerHour))) ""%string
     = "Today"%string
  /\ Report.chartDate Sample.newYork (midnight Sample.sunday + 2 * msPerHour) 0 = Sample.sunday
  /\ WeekDay (LocalTime Sample.newYork
                (daysEarlier Sample.newYork (midnight Sample.sunday + 2 * msPerHour) 0)) = 6.
Proof.
  pose proof (chart_plots_the_first_entry_of_eight_days Sample.todayAndAWeekAgo Sample.newYork
                (midnight Sample.sunday + 2 * msPerHour) 7 ltac:(lia))
    as (_ & _ & Hlabel & _ & Hfirst & _ & Hfixed).
  split; [|split; [exact Hlabel|]].
  - apply (Hfirst [] (Sample.entry Sample.sunday 5) [Sample.entry (Sample.sunday - 7) 1]);
      [reflexivity | reflexivity | constructor].
  - destruct (Hfixed (- 5 * msPerHour)) as (Hdate & Hday). split.
    + exact Hdate.
    + exact Hday.
Defined.
